(** * The minefield engine of MinesweeperClone

    A shallow embedding of [src/Minesweeper/MinefieldWindow.cpp]: the tile
    array, lazy mine generation, the breadth-first flood reveal, chording and
    the mouse handlers, followed by the properties of the engine.

    Conventions of the embedding.
    - [UINT] values are integers in [Z]; every [UINT] operation of the source
      is written with its reduction modulo 2^32 ([wrap]).  An [INT] or [LONG]
      operand of a mixed expression is converted to [UINT] by the same
      reduction, as C++ does.
    - [std::vector<MineTile>] is a [list MineTile]; [v[i]] is stdpp's lookup
      [v !! i] and a write through [v[i]] is [alter].  An index outside the
      vector is undefined behaviour in the source; here the read yields
      [None] and the handler leaves the field as it is.
    - The calls into the parent window ([m_pGameWindow->...]) and into the
      scene ([m_scene....]) return nothing and touch no member of the
      minefield; they do not appear. *)

From stdpp Require Import base decidable option list list_numbers sorting.
From Stdlib Require Import ZArith Lia.

Open Scope Z_scope.

(** ** Machine integers *)

Definition UINT_modulus : Z := 2 ^ 32.
Definition size_t_modulus : Z := 2 ^ 64.

(** Arithmetic on [UINT] keeps the low 32 bits. *)
Definition wrap (z : Z) : Z := z mod UINT_modulus.

(** Arithmetic on [std::size_t] (64 bits on the Win64 target). *)
Definition wrap_size_t (z : Z) : Z := z mod size_t_modulus.

Definition is_UINT (z : Z) : Prop := 0 <= z < UINT_modulus.

(** ** Tiles *)

Inductive TileContent : Set :=
| EMPTY | ONE | TWO | THREE | FOUR | FIVE | SIX | SEVEN | EIGHT | MINE.

Inductive TileState : Set := HIDDEN | CLICKED | REVEALED.

Inductive TileMark : Set := NONE | FLAG | QUESTION_MARK.

#[global] Instance TileContent_eq_dec : EqDecision TileContent.
Proof. solve_decision. Defined.

#[global] Instance TileState_eq_dec : EqDecision TileState.
Proof. solve_decision. Defined.

#[global] Instance TileMark_eq_dec : EqDecision TileMark.
Proof. solve_decision. Defined.

(** Modelled from the spec: the class [MineTile] (MineTile.h) is not under
    src/.  Section 3 of the specification gives a tile its three attributes,
    and the accessors below are the ones the minefield calls. *)
Record MineTile : Set := mkMineTile {
  GetTileContent : TileContent;
  GetTileState : TileState;
  GetTileMark : TileMark
}.

Definition SetTileContent (c : TileContent) (t : MineTile) : MineTile :=
  mkMineTile c (GetTileState t) (GetTileMark t).

Definition SetTileState (st : TileState) (t : MineTile) : MineTile :=
  mkMineTile (GetTileContent t) st (GetTileMark t).

Definition SetTileMark (m : TileMark) (t : MineTile) : MineTile :=
  mkMineTile (GetTileContent t) (GetTileState t) m.

(** Modelled from the spec: the default constructor [MineTile()], "all-default
    tiles" of section 4.3: nothing inside, hidden, unmarked. *)
Definition MineTile_default : MineTile := mkMineTile EMPTY HIDDEN NONE.

(** [operator()(index)] as a read and as a write. *)
Definition tile_at (tiles : list MineTile) (index : Z) : option MineTile :=
  tiles !! Z.to_nat index.

Definition tile_update (f : MineTile -> MineTile) (index : Z)
    (tiles : list MineTile) : list MineTile :=
  alter f (Z.to_nat index) tiles.

(** The number of tiles that satisfy a decidable property, as a [UINT]-sized
    integer. *)
Fixpoint count_tiles (P : MineTile -> bool) (tiles : list MineTile) : Z :=
  match tiles with
  | [] => 0
  | t :: rest => (if P t then 1 else 0) + count_tiles P rest
  end.

Definition is_revealed (t : MineTile) : bool :=
  bool_decide (GetTileState t = REVEALED).
Definition is_flagged (t : MineTile) : bool :=
  bool_decide (GetTileMark t = FLAG).
Definition is_mine (t : MineTile) : bool :=
  bool_decide (GetTileContent t = MINE).

(** ** Grid geometry *)

(** [GetTileGrid(x, y, radius)]; [width] and [height] are the members
    [m_width] and [m_height], the only ones it reads.  The offsets are [INT],
    the coordinates [UINT]: the sums and the index are computed modulo 2^32,
    which is what clips a block at the left and top borders. *)
Definition GetTileGrid (width height : Z) (x y radius : Z) : list Z :=
  if radius <? 0 then []
  else
    yOffset ← seqZ (- radius) (2 * radius + 1);
    if (0 <=? wrap (y + yOffset)) && (wrap (y + yOffset) <? height) then
      xOffset ← seqZ (- radius) (2 * radius + 1);
      if (0 <=? wrap (x + xOffset)) && (wrap (x + xOffset) <? width) then
        [wrap (wrap (x + xOffset) + wrap (wrap (y + yOffset) * width))]
      else []
    else [].

(** [operator()(x, y)]: the index [x + static_cast<std::size_t>(y) * m_width]. *)
Definition tile_index (width : Z) (x y : Z) : Z :=
  wrap_size_t (x + wrap_size_t (y * width)).

(** [GetNumberAdjacentMines(x, y)]. *)
Definition GetNumberAdjacentMines (width height : Z) (tiles : list MineTile)
    (x y : Z) : Z :=
  foldl (fun cAdjacentMines tile =>
           match tile_at tiles tile with
           | Some t => if decide (GetTileContent t = MINE)
                       then wrap (cAdjacentMines + 1) else cAdjacentMines
           | None => cAdjacentMines
           end)
        0 (GetTileGrid width height x y 1).

(** ** The minefield *)

(** The members of [MinefieldWindow] that the engine reads and writes. *)
Record MinefieldWindow : Type := mkMinefieldWindow {
  m_width : Z;
  m_height : Z;
  m_cTiles : Z;
  m_cMines : Z;
  m_cRevealedTiles : Z;
  m_cFlaggedTiles : Z;
  m_bMouseTracking : bool;
  m_bGameLost : bool;
  m_bQuestionMarksEnabled : bool;
  m_bChording : bool;
  m_bLRHeldAfterChord : bool;
  m_lastGridPos : Z * Z;
  m_aMineTiles : list MineTile
}.

Definition set_aMineTiles (v : list MineTile) (s : MinefieldWindow) :=
  mkMinefieldWindow (m_width s) (m_height s) (m_cTiles s) (m_cMines s)
    (m_cRevealedTiles s) (m_cFlaggedTiles s) (m_bMouseTracking s)
    (m_bGameLost s) (m_bQuestionMarksEnabled s) (m_bChording s)
    (m_bLRHeldAfterChord s) (m_lastGridPos s) v.

Definition set_cRevealedTiles (v : Z) (s : MinefieldWindow) :=
  mkMinefieldWindow (m_width s) (m_height s) (m_cTiles s) (m_cMines s)
    v (m_cFlaggedTiles s) (m_bMouseTracking s)
    (m_bGameLost s) (m_bQuestionMarksEnabled s) (m_bChording s)
    (m_bLRHeldAfterChord s) (m_lastGridPos s) (m_aMineTiles s).

Definition set_cFlaggedTiles (v : Z) (s : MinefieldWindow) :=
  mkMinefieldWindow (m_width s) (m_height s) (m_cTiles s) (m_cMines s)
    (m_cRevealedTiles s) v (m_bMouseTracking s)
    (m_bGameLost s) (m_bQuestionMarksEnabled s) (m_bChording s)
    (m_bLRHeldAfterChord s) (m_lastGridPos s) (m_aMineTiles s).

Definition set_bMouseTracking (v : bool) (s : MinefieldWindow) :=
  mkMinefieldWindow (m_width s) (m_height s) (m_cTiles s) (m_cMines s)
    (m_cRevealedTiles s) (m_cFlaggedTiles s) v
    (m_bGameLost s) (m_bQuestionMarksEnabled s) (m_bChording s)
    (m_bLRHeldAfterChord s) (m_lastGridPos s) (m_aMineTiles s).

Definition set_bGameLost (v : bool) (s : MinefieldWindow) :=
  mkMinefieldWindow (m_width s) (m_height s) (m_cTiles s) (m_cMines s)
    (m_cRevealedTiles s) (m_cFlaggedTiles s) (m_bMouseTracking s)
    v (m_bQuestionMarksEnabled s) (m_bChording s)
    (m_bLRHeldAfterChord s) (m_lastGridPos s) (m_aMineTiles s).

Definition set_bQuestionMarksEnabled (v : bool) (s : MinefieldWindow) :=
  mkMinefieldWindow (m_width s) (m_height s) (m_cTiles s) (m_cMines s)
    (m_cRevealedTiles s) (m_cFlaggedTiles s) (m_bMouseTracking s)
    (m_bGameLost s) v (m_bChording s)
    (m_bLRHeldAfterChord s) (m_lastGridPos s) (m_aMineTiles s).

Definition set_bChording (v : bool) (s : MinefieldWindow) :=
  mkMinefieldWindow (m_width s) (m_height s) (m_cTiles s) (m_cMines s)
    (m_cRevealedTiles s) (m_cFlaggedTiles s) (m_bMouseTracking s)
    (m_bGameLost s) (m_bQuestionMarksEnabled s) v
    (m_bLRHeldAfterChord s) (m_lastGridPos s) (m_aMineTiles s).

Definition set_bLRHeldAfterChord (v : bool) (s : MinefieldWindow) :=
  mkMinefieldWindow (m_width s) (m_height s) (m_cTiles s) (m_cMines s)
    (m_cRevealedTiles s) (m_cFlaggedTiles s) (m_bMouseTracking s)
    (m_bGameLost s) (m_bQuestionMarksEnabled s) (m_bChording s)
    v (m_lastGridPos s) (m_aMineTiles s).

Definition set_lastGridPos (v : Z * Z) (s : MinefieldWindow) :=
  mkMinefieldWindow (m_width s) (m_height s) (m_cTiles s) (m_cMines s)
    (m_cRevealedTiles s) (m_cFlaggedTiles s) (m_bMouseTracking s)
    (m_bGameLost s) (m_bQuestionMarksEnabled s) (m_bChording s)
    (m_bLRHeldAfterChord s) v (m_aMineTiles s).

(** [std::vector<MineTile>(m_cTiles, MineTile())]. *)
Definition fresh_tiles (cTiles : Z) : list MineTile :=
  replicate (Z.to_nat cTiles) MineTile_default.

(** The constructor.  Its initialiser list leaves [m_bChording],
    [m_bLRHeldAfterChord] and [m_lastGridPos] to the class declaration, which
    is not under src/: their first values are parameters here. *)
Definition MinefieldWindow_new (width height cMines : Z)
    (bChording bLRHeldAfterChord : bool) (lastGridPos : Z * Z)
    : MinefieldWindow :=
  let cTiles := wrap (width * height) in
  let cMines := if cTiles <? cMines then cTiles else cMines in
  mkMinefieldWindow width height cTiles cMines 0 0 false false false
    bChording bLRHeldAfterChord lastGridPos (fresh_tiles cTiles).

Definition IsGameLost (s : MinefieldWindow) : bool := m_bGameLost s.

(** The comparison is the source's: the mine count stands on the right so
    that no [UINT] difference is taken. *)
Definition IsGameWon (s : MinefieldWindow) : bool :=
  negb (m_bGameLost s)
  && ((m_cTiles s <=? wrap (m_cMines s + m_cRevealedTiles s))
      && (0 <? m_cRevealedTiles s)).

Definition IsGameActive (s : MinefieldWindow) : bool :=
  negb (IsGameLost s || IsGameWon s).

Definition ResetGame (s : MinefieldWindow) : MinefieldWindow :=
  set_aMineTiles (fresh_tiles (m_cTiles s))
    (set_cFlaggedTiles 0 (set_cRevealedTiles 0 (set_bGameLost false s))).

(** [Resize] answers [TRUE] when it rebuilt the field and [FALSE] when the
    three arguments are the stored ones. *)
Definition Resize (width height cMines : Z) (s : MinefieldWindow)
    : bool * MinefieldWindow :=
  if negb (m_width s =? width) || negb (m_height s =? height)
     || negb (m_cMines s =? cMines)
  then
    let cTiles := wrap (width * height) in
    let cMines := if cTiles <? cMines then cTiles else cMines in
    (true,
     ResetGame
       (mkMinefieldWindow width height cTiles cMines
          (m_cRevealedTiles s) (m_cFlaggedTiles s) (m_bMouseTracking s)
          (m_bGameLost s) (m_bQuestionMarksEnabled s) (m_bChording s)
          (m_bLRHeldAfterChord s) (m_lastGridPos s) (m_aMineTiles s)))
  else (false, s).

(** The loops of the source that run over every [x] below [m_width] and,
    inside, every [y] below [m_height]. *)
Definition for_each_xy {A : Type} (width height : Z) (body : Z -> Z -> A -> A)
    (a : A) : A :=
  foldl (fun a x => foldl (fun a y => body x y a) a (seqZ 0 height))
        a (seqZ 0 width).

Definition ToggleQuestionMarkUsage (s : MinefieldWindow) : MinefieldWindow :=
  let s := set_bQuestionMarksEnabled (negb (m_bQuestionMarksEnabled s)) s in
  if negb (m_bQuestionMarksEnabled s) then
    set_aMineTiles
      (for_each_xy (m_width s) (m_height s)
         (fun x y tiles =>
            match tile_at tiles (tile_index (m_width s) x y) with
            | Some t =>
                if decide (GetTileMark t = QUESTION_MARK)
                then tile_update (SetTileMark NONE)
                       (tile_index (m_width s) x y) tiles
                else tiles
            | None => tiles
            end)
         (m_aMineTiles s))
      s
  else s.

(** ** Mine generation *)

(** The switch of [GenerateNumbers]: the numeral for a count of adjacent
    mines; [0] and every count above [8] give [EMPTY]. *)
Definition content_of_count (c : Z) : TileContent :=
  if c =? 1 then ONE else if c =? 2 then TWO else if c =? 3 then THREE
  else if c =? 4 then FOUR else if c =? 5 then FIVE else if c =? 6 then SIX
  else if c =? 7 then SEVEN else if c =? 8 then EIGHT else EMPTY.

(** The body of the loops of [GenerateNumbers], at the cell [(x, y)]. *)
Definition number_tile (width height x y : Z) (tiles : list MineTile)
    : list MineTile :=
  match tile_at tiles (tile_index width x y) with
  | Some t =>
      if decide (GetTileContent t ≠ MINE)
      then tile_update
             (SetTileContent
                (content_of_count
                   (GetNumberAdjacentMines width height tiles x y)))
             (tile_index width x y) tiles
      else tiles
  | None => tiles
  end.

Definition GenerateNumbers (width height : Z) (tiles : list MineTile)
    : list MineTile :=
  for_each_xy width height (number_tile width height) tiles.

(** The loop of [GenerateMines] that walks the tile indices [tile],
    [tile + 1], ... ([count] of them) against the sorted vector of excluded
    tiles: [itLeft] is the head of [excluded], [itRight] its end.  A pointer
    [&m_aMineTiles[tile]] is kept as the index [tile]. *)
Fixpoint tiles_to_toggle (count : nat) (tile : Z) (excluded : list Z)
    : list Z :=
  match count with
  | O => []
  | S count' =>
      match excluded with
      | [] => tile :: tiles_to_toggle count' (wrap (tile + 1)) excluded
      | itLeft :: rest =>
          if tile <? itLeft
          then tile :: tiles_to_toggle count' (wrap (tile + 1)) excluded
          else tiles_to_toggle count' (wrap (tile + 1)) rest
      end
  end.

(** The radius of the block that stays free of mines around the first
    click. *)
Definition exclusion_radius (cTiles cMines : Z) : Z :=
  if wrap (cTiles - cMines) <? 9 then 0 else 1.

(** Modelled from the spec: the randomizer [m_rng.SampleVector] is not under
    src/.  [GenerateMines] takes the sampler as its first argument; an item
    is the index of the tile that the pointer in [tilesToToggle] points to.
    Section 4.1 speaks of a call with a count [k] no larger than the length
    of the sequence: it returns exactly [k] distinct items.  That is the
    second clause.  Of a call with a larger count the spec says nothing;
    the first clause holds of every call: the sampler is handed pointers to
    the candidates and to nothing else, and what it returns are pointers out
    of that sequence.  How many, and which, when [k] is larger than the
    length is left open. *)
Definition Sampler : Type := list Z -> Z -> list Z.

Definition SampleVector_contract (SampleVector : Sampler) : Prop :=
  forall (candidates : list Z) (k : Z),
    SampleVector candidates k ⊆ candidates
    /\ (0 <= k <= Z.of_nat (length candidates) ->
        (NoDup candidates -> NoDup (SampleVector candidates k))
        /\ Z.of_nat (length (SampleVector candidates k)) = k).

(** A sampler that meets the contract: the first [k] candidates. *)
Definition first_k_sampler : Sampler :=
  fun candidates k => take (Z.to_nat k) candidates.

(** The loop of [GenerateMines] that writes [MINE] through each sampled
    pointer. *)
Definition place_mines (tilesToToggle : list Z) (tiles : list MineTile)
    : list MineTile :=
  foldl (fun tiles tile => tile_update (SetTileContent MINE) tile tiles)
        tiles tilesToToggle.

Definition GenerateMines (SampleVector : Sampler) (x y : Z)
    (s : MinefieldWindow) : MinefieldWindow :=
  let excludedTiles :=
    GetTileGrid (m_width s) (m_height s) x y
      (exclusion_radius (m_cTiles s) (m_cMines s)) in
  let tilesToToggle :=
    tiles_to_toggle (length (m_aMineTiles s)) 0 excludedTiles in
  let tilesToToggle := SampleVector tilesToToggle (m_cMines s) in
  set_aMineTiles
    (GenerateNumbers (m_width s) (m_height s)
       (place_mines tilesToToggle (m_aMineTiles s)))
    s.

(** ** Flood reveal *)

(** The state of the loop in [SetTileRevealed]: the tile array, the counter
    [m_cRevealedTiles], the queue [tilesToProcess] (front first), and a
    record of every index ever pushed, oldest first, kept for the proofs
    only. *)
Record Flood : Type := mkFlood {
  fl_tiles : list MineTile;
  fl_cRevealedTiles : Z;
  fl_queue : list Z;
  fl_pushed : list Z
}.

(** The body of the [for] over the neighbours of the front tile. *)
Definition flood_visit (fl : Flood) (tile : Z) : Flood :=
  match tile_at (fl_tiles fl) tile with
  | Some t =>
      if decide (GetTileState t ≠ REVEALED ∧ GetTileMark t ≠ FLAG) then
        let tiles := tile_update (SetTileState REVEALED) tile (fl_tiles fl) in
        let cRevealed := wrap (fl_cRevealedTiles fl + 1) in
        if decide (GetTileContent t = EMPTY)
        then mkFlood tiles cRevealed (fl_queue fl ++ [tile])
               (fl_pushed fl ++ [tile])
        else mkFlood tiles cRevealed (fl_queue fl) (fl_pushed fl)
      else fl
  | None => fl
  end.

(** One turn of the [while]: visit the block around the front tile, then
    pop the front.  [%] and [/] are those of [UINT]; the width is not zero
    when there is a tile in the queue. *)
Definition flood_turn (width height : Z) (front : Z) (fl : Flood) : Flood :=
  let fl' :=
    foldl flood_visit fl
      (GetTileGrid width height (front mod width) (front / width) 1) in
  mkFlood (fl_tiles fl') (fl_cRevealedTiles fl') (tail (fl_queue fl'))
    (fl_pushed fl').

(** The [while] itself, run for at most [fuel] turns: [None] when the queue
    is still not empty after that many. *)
Fixpoint flood_loop (width height : Z) (fuel : nat) (fl : Flood)
    : option Flood :=
  match fl_queue fl with
  | [] => Some fl
  | front :: _ =>
      match fuel with
      | O => None
      | S fuel' => flood_loop width height fuel' (flood_turn width height front fl)
      end
  end.

(** Turns that always suffice (see [flood_loop_terminates]). *)
Definition flood_fuel (tiles : list MineTile) : nat := S (length tiles).

(** [SetTileRevealed(x, y)].  The read of the content comes after the write
    of the state in the source and sees the same content.  Two branches
    have no counterpart in the source and leave the field as it is: the
    index outside the array, and a flood that is not over after
    [flood_fuel] turns, which [flood_from_origin] shows never happens. *)
Definition SetTileRevealed (x y : Z) (s : MinefieldWindow) : MinefieldWindow :=
  let index := tile_index (m_width s) x y in
  match tile_at (m_aMineTiles s) index with
  | Some t =>
      if decide (GetTileState t ≠ REVEALED ∧ GetTileMark t ≠ FLAG) then
        let tiles := tile_update (SetTileState REVEALED) index (m_aMineTiles s) in
        let cRevealed := wrap (m_cRevealedTiles s + 1) in
        if decide (GetTileContent t = MINE) then
          set_bGameLost true (set_cRevealedTiles cRevealed (set_aMineTiles tiles s))
        else if decide (GetTileContent t = EMPTY) then
          let seed := wrap (x + wrap (y * m_width s)) in
          match flood_loop (m_width s) (m_height s) (flood_fuel tiles)
                  (mkFlood tiles cRevealed [seed] [seed]) with
          | Some fl =>
              set_cRevealedTiles (fl_cRevealedTiles fl)
                (set_aMineTiles (fl_tiles fl) s)
          | None => s
          end
        else set_cRevealedTiles cRevealed (set_aMineTiles tiles s)
      else s
  | None => s
  end.

(** ** Previews and chording *)

(** [HIDDEN] and not flagged becomes [CLICKED], for each tile of [grid]. *)
Definition press_tiles (grid : list Z) (tiles : list MineTile) : list MineTile :=
  foldl (fun tiles tile =>
           match tile_at tiles tile with
           | Some t =>
               if decide (GetTileState t = HIDDEN ∧ GetTileMark t ≠ FLAG)
               then tile_update (SetTileState CLICKED) tile tiles
               else tiles
           | None => tiles
           end)
        tiles grid.

(** [CLICKED] becomes [HIDDEN] again, for each tile of [grid]. *)
Definition release_tiles (grid : list Z) (tiles : list MineTile) : list MineTile :=
  foldl (fun tiles tile =>
           match tile_at tiles tile with
           | Some t =>
               if decide (GetTileState t = CLICKED)
               then tile_update (SetTileState HIDDEN) tile tiles
               else tiles
           | None => tiles
           end)
        tiles grid.

Definition BeginChord (x y : Z) (s : MinefieldWindow) : MinefieldWindow :=
  set_bChording true
    (set_aMineTiles
       (press_tiles (GetTileGrid (m_width s) (m_height s) x y 1) (m_aMineTiles s))
       s).

(** The count [cFlags] of [EndChord]. *)
Definition count_flags (tiles : list MineTile) (grid : list Z) : Z :=
  foldl (fun cFlags tile =>
           match tile_at tiles tile with
           | Some t => if decide (GetTileMark t = FLAG)
                       then wrap (cFlags + 1) else cFlags
           | None => cFlags
           end)
        0 grid.

(** The loop of [EndChord] that reveals the block. *)
Definition reveal_tiles (grid : list Z) (s : MinefieldWindow) : MinefieldWindow :=
  foldl (fun s tile => SetTileRevealed (tile mod m_width s) (tile / m_width s) s)
        s grid.

Definition EndChord (x y : Z) (s : MinefieldWindow) : MinefieldWindow :=
  let grid := GetTileGrid (m_width s) (m_height s) x y 1 in
  let revert := set_aMineTiles (release_tiles grid (m_aMineTiles s)) s in
  set_bChording false
    match tile_at (m_aMineTiles s) (tile_index (m_width s) x y) with
    | Some centre =>
        if decide (GetTileState centre = REVEALED) then
          if decide (count_flags (m_aMineTiles s) grid
                     = GetNumberAdjacentMines (m_width s) (m_height s)
                         (m_aMineTiles s) x y)
          then reveal_tiles grid s
          else revert
        else revert
    | None => s
    end.

(** [MovePos]: the positions are [POINT]s, their [LONG] coordinates become
    the [UINT] arguments of [GetTileGrid]. *)
Definition MovePos (oldPos newPos : Z * Z) (tileUpdateRadius : Z)
    (forceUpdate : bool) (s : MinefieldWindow) : MinefieldWindow :=
  if negb (oldPos.1 =? newPos.1) || negb (oldPos.2 =? newPos.2) || forceUpdate
  then
    set_aMineTiles
      (press_tiles
         (GetTileGrid (m_width s) (m_height s) (wrap newPos.1) (wrap newPos.2)
            tileUpdateRadius)
         (release_tiles
            (GetTileGrid (m_width s) (m_height s) (wrap oldPos.1)
               (wrap oldPos.2) tileUpdateRadius)
            (m_aMineTiles s)))
      s
  else s.

(** ** Input handlers *)

(** The key-state bits of [wParam] (WinUser.h). *)
Definition MK_LBUTTON : Z := 1.
Definition MK_RBUTTON : Z := 2.
Definition MK_MBUTTON : Z := 16.

Definition held (wParam mask : Z) : bool := negb (Z.land wParam mask =? 0).

(** Every handler takes [gridPos], the value of [MouseToTilePos(lParam)]:
    that function divides window coordinates in floating point and clamps
    the result to the field; the handlers only use its result. *)

(** [LONG] is the 32-bit signed integer of Win32; a value of the unsigned
    type of that width becomes a [LONG] by keeping its low 32 bits. *)
Definition is_LONG (z : Z) : Prop := - 2 ^ 31 <= z < 2 ^ 31.

Definition to_LONG (z : Z) : Z := (z + 2 ^ 31) mod UINT_modulus - 2 ^ 31.

(** The clamp of [MouseToTilePos], [pos.x = min(max(pos.x, 0), m_width - 1)],
    for one coordinate.  [min] and [max] are the macros of minwindef.h,
    [(a) > (b) ? (a) : (b)] and [(a) < (b) ? (a) : (b)]: [max] compares two
    signed values; [min] compares a [LONG] with the [UINT] [m_width - 1], so
    both operands and the result are unsigned, and the result is stored
    back into a [LONG]. *)
Definition clamp_to_field (quotient extent : Z) : Z :=
  let lower := if quotient >? 0 then quotient else 0 in
  let upper := wrap (extent - 1) in
  to_LONG (if wrap lower <? upper then wrap lower else upper).

(** [MouseToTilePos(lParam)].  The two quotients of the window geometry,
    computed in [DOUBLE] and cut to [LONG] by the [static_cast]s, are the
    arguments [quotientX] and [quotientY]: the function is the clamp of
    both to the field. *)
Definition MouseToTilePos (quotientX quotientY : Z) (s : MinefieldWindow)
    : Z * Z :=
  (clamp_to_field quotientX (m_width s), clamp_to_field quotientY (m_height s)).

Definition OnLButtonDown (wParam : Z) (gridPos : Z * Z) (s : MinefieldWindow)
    : MinefieldWindow :=
  if IsGameActive s && negb (held wParam MK_MBUTTON)
     && negb (m_bLRHeldAfterChord s)
  then
    if held wParam MK_RBUTTON then BeginChord gridPos.1 gridPos.2 s
    else
      match tile_at (m_aMineTiles s)
              (tile_index (m_width s) gridPos.1 gridPos.2) with
      | Some t =>
          if decide (GetTileState t = HIDDEN ∧ GetTileMark t ≠ FLAG)
          then set_aMineTiles
                 (tile_update (SetTileState CLICKED)
                    (tile_index (m_width s) gridPos.1 gridPos.2)
                    (m_aMineTiles s))
                 s
          else s
      | None => s
      end
  else s.

Definition OnLButtonUp (SampleVector : Sampler) (wParam : Z) (gridPos : Z * Z)
    (s : MinefieldWindow) : MinefieldWindow :=
  if IsGameActive s && negb (held wParam MK_MBUTTON)
     && negb (m_bLRHeldAfterChord s)
  then
    if m_bChording s
    then set_bLRHeldAfterChord true (EndChord gridPos.1 gridPos.2 s)
    else
      match tile_at (m_aMineTiles s)
              (tile_index (m_width s) gridPos.1 gridPos.2) with
      | Some t =>
          if decide (GetTileState t = CLICKED) then
            let s :=
              if m_cRevealedTiles s =? 0
              then GenerateMines SampleVector gridPos.1 gridPos.2 s
              else s in
            SetTileRevealed gridPos.1 gridPos.2 s
          else s
      | None => s
      end
  else if m_bLRHeldAfterChord s && negb (held wParam MK_RBUTTON)
  then set_bLRHeldAfterChord false s
  else s.

(** The switch of [OnRButtonDown] on the mark of a hidden tile. *)
Definition cycle_mark (index : Z) (t : MineTile) (s : MinefieldWindow)
    : MinefieldWindow :=
  match GetTileMark t with
  | NONE =>
      set_aMineTiles (tile_update (SetTileMark FLAG) index (m_aMineTiles s))
        (set_cFlaggedTiles (wrap (m_cFlaggedTiles s + 1)) s)
  | FLAG =>
      set_aMineTiles
        (tile_update
           (SetTileMark (if m_bQuestionMarksEnabled s then QUESTION_MARK else NONE))
           index (m_aMineTiles s))
        (set_cFlaggedTiles (wrap (m_cFlaggedTiles s - 1)) s)
  | QUESTION_MARK =>
      set_aMineTiles (tile_update (SetTileMark NONE) index (m_aMineTiles s)) s
  end.

Definition OnRButtonDown (wParam : Z) (gridPos : Z * Z) (s : MinefieldWindow)
    : MinefieldWindow :=
  if IsGameActive s && negb (held wParam MK_MBUTTON)
     && negb (m_bLRHeldAfterChord s)
  then
    if held wParam MK_LBUTTON then BeginChord gridPos.1 gridPos.2 s
    else
      match tile_at (m_aMineTiles s)
              (tile_index (m_width s) gridPos.1 gridPos.2) with
      | Some t =>
          if decide (GetTileState t = HIDDEN)
          then cycle_mark (tile_index (m_width s) gridPos.1 gridPos.2) t s
          else s
      | None => s
      end
  else s.

Definition OnRButtonUp (wParam : Z) (gridPos : Z * Z) (s : MinefieldWindow)
    : MinefieldWindow :=
  if IsGameActive s && negb (held wParam MK_MBUTTON)
     && negb (m_bLRHeldAfterChord s)
  then
    if m_bChording s
    then set_bLRHeldAfterChord true (EndChord gridPos.1 gridPos.2 s)
    else s
  else if m_bLRHeldAfterChord s && negb (held wParam MK_LBUTTON)
  then set_bLRHeldAfterChord false s
  else s.

Definition OnMButtonDown (wParam : Z) (gridPos : Z * Z) (s : MinefieldWindow)
    : MinefieldWindow :=
  if IsGameActive s && negb (m_bChording s)
  then
    if negb (m_bChording s) then BeginChord gridPos.1 gridPos.2 s else s
  else s.

Definition OnMButtonUp (wParam : Z) (gridPos : Z * Z) (s : MinefieldWindow)
    : MinefieldWindow :=
  if IsGameActive s then
    if m_bChording s then
      let s :=
        if held wParam MK_LBUTTON || held wParam MK_RBUTTON
        then set_bLRHeldAfterChord true s else s in
      EndChord gridPos.1 gridPos.2 s
    else s
  else s.

(** [tracked] is the answer of [TrackMouseEvent]. *)
Definition OnMouseMove (tracked : bool) (wParam : Z) (gridPos : Z * Z)
    (s : MinefieldWindow) : MinefieldWindow :=
  if negb (m_bMouseTracking s) then
    let s := if tracked then set_bMouseTracking true s else s in
    if IsGameActive s then
      let s :=
        if held wParam MK_LBUTTON || held wParam MK_MBUTTON then
          let s :=
            if held wParam MK_RBUTTON || held wParam MK_MBUTTON
            then MovePos (m_lastGridPos s) gridPos 1 true s
            else MovePos (m_lastGridPos s) gridPos 0 true s in
          set_bChording
            (held wParam MK_LBUTTON && held wParam MK_RBUTTON
             || held wParam MK_MBUTTON)
            s
        else s in
      set_lastGridPos gridPos s
    else s
  else
    if IsGameActive s then
      let s :=
        if held wParam MK_LBUTTON || held wParam MK_MBUTTON then
          if m_bChording s then MovePos (m_lastGridPos s) gridPos 1 false s
          else if negb (m_bLRHeldAfterChord s)
               then MovePos (m_lastGridPos s) gridPos 0 false s
               else s
        else s in
      set_lastGridPos gridPos s
    else s.

Definition OnMouseLeave (s : MinefieldWindow) : MinefieldWindow :=
  let s :=
    if IsGameActive s then
      set_aMineTiles
        (release_tiles
           (GetTileGrid (m_width s) (m_height s) (wrap (m_lastGridPos s).1)
              (wrap (m_lastGridPos s).2) (if m_bChording s then 1 else 0))
           (m_aMineTiles s))
        s
    else s in
  set_bMouseTracking false (set_bLRHeldAfterChord false s).

(** ** Runs of the engine *)

(** What reaches the minefield: the window messages that [HandleMessage]
    hands to the input handlers and the public methods its parent calls. *)
Inductive Event : Type :=
| WM_LBUTTONDOWN (wParam : Z) (gridPos : Z * Z)
| WM_LBUTTONUP (SampleVector : Sampler) (wParam : Z) (gridPos : Z * Z)
| WM_RBUTTONDOWN (wParam : Z) (gridPos : Z * Z)
| WM_RBUTTONUP (wParam : Z) (gridPos : Z * Z)
| WM_MBUTTONDOWN (wParam : Z) (gridPos : Z * Z)
| WM_MBUTTONUP (wParam : Z) (gridPos : Z * Z)
| WM_MOUSEMOVE (tracked : bool) (wParam : Z) (gridPos : Z * Z)
| WM_MOUSELEAVE
| CallResize (width height cMines : Z)
| CallToggleQuestionMarkUsage
| CallResetGame.

Definition handle (e : Event) (s : MinefieldWindow) : MinefieldWindow :=
  match e with
  | WM_LBUTTONDOWN wParam gridPos => OnLButtonDown wParam gridPos s
  | WM_LBUTTONUP rng wParam gridPos => OnLButtonUp rng wParam gridPos s
  | WM_RBUTTONDOWN wParam gridPos => OnRButtonDown wParam gridPos s
  | WM_RBUTTONUP wParam gridPos => OnRButtonUp wParam gridPos s
  | WM_MBUTTONDOWN wParam gridPos => OnMButtonDown wParam gridPos s
  | WM_MBUTTONUP wParam gridPos => OnMButtonUp wParam gridPos s
  | WM_MOUSEMOVE tracked wParam gridPos => OnMouseMove tracked wParam gridPos s
  | WM_MOUSELEAVE => OnMouseLeave s
  | CallResize width height cMines => (Resize width height cMines s).2
  | CallToggleQuestionMarkUsage => ToggleQuestionMarkUsage s
  | CallResetGame => ResetGame s
  end.

(** A position inside the field, which is what [MouseToTilePos] returns on
    a field with at least one tile. *)
Definition in_field (width height : Z) (pos : Z * Z) : Prop :=
  0 <= pos.1 < width /\ 0 <= pos.2 < height.

(** A valid configuration: three [UINT]s whose tile count [width * height]
    is itself a [UINT], so that [m_cTiles] is the number of cells. *)
Definition valid_configuration (width height cMines : Z) : Prop :=
  is_UINT width /\ is_UINT height /\ is_UINT cMines
  /\ width * height < UINT_modulus.

(** What the surroundings guarantee of an event in state [s]. *)
Definition event_ok (s : MinefieldWindow) (e : Event) : Prop :=
  match e with
  | WM_LBUTTONDOWN _ gridPos | WM_RBUTTONDOWN _ gridPos
  | WM_RBUTTONUP _ gridPos | WM_MBUTTONDOWN _ gridPos
  | WM_MBUTTONUP _ gridPos | WM_MOUSEMOVE _ _ gridPos =>
      in_field (m_width s) (m_height s) gridPos
  | WM_LBUTTONUP rng _ gridPos =>
      SampleVector_contract rng /\ in_field (m_width s) (m_height s) gridPos
  | CallResize width height cMines => valid_configuration width height cMines
  | WM_MOUSELEAVE | CallToggleQuestionMarkUsage | CallResetGame => True
  end.

(** The events that are window messages of the mouse, as opposed to the
    calls of the public methods. *)
Definition input_message (e : Event) : bool :=
  match e with
  | CallResize _ _ _ | CallToggleQuestionMarkUsage | CallResetGame => false
  | _ => true
  end.

(** The states of a run: a freshly constructed minefield of a valid
    configuration, then any number of events. *)
Inductive Reachable : MinefieldWindow -> Prop :=
| Reachable_new width height cMines bChording bLRHeld lastGridPos :
    valid_configuration width height cMines ->
    Reachable
      (MinefieldWindow_new width height cMines bChording bLRHeld lastGridPos)
| Reachable_handle s e :
    Reachable s -> event_ok s e -> Reachable (handle e s).

(** ** Relations between tile arrays *)

(** A preview step: content and mark stay, a tile is revealed after iff
    it was before, and a flagged hidden tile stays hidden. *)
Definition preview_step (t t' : MineTile) : Prop :=
  GetTileContent t' = GetTileContent t
  /\ GetTileMark t' = GetTileMark t
  /\ (GetTileState t' = REVEALED <-> GetTileState t = REVEALED)
  /\ (GetTileMark t = FLAG -> GetTileState t = HIDDEN -> GetTileState t' = HIDDEN).

(** A reveal step: content and mark stay; the state stays, or a tile that
    was neither revealed nor flagged is now revealed. *)
Definition reveal_step (t t' : MineTile) : Prop :=
  GetTileContent t' = GetTileContent t
  /\ GetTileMark t' = GetTileMark t
  /\ (GetTileState t' = GetTileState t
      \/ (GetTileState t ≠ REVEALED /\ GetTileMark t ≠ FLAG
          /\ GetTileState t' = REVEALED)).

(** A content step: state and mark stay. *)
Definition content_step (t t' : MineTile) : Prop :=
  GetTileState t' = GetTileState t /\ GetTileMark t' = GetTileMark t.

(** A step of the question-mark sweep. *)
Definition sweep_step (t t' : MineTile) : Prop :=
  GetTileContent t' = GetTileContent t
  /\ GetTileState t' = GetTileState t
  /\ (GetTileMark t' = GetTileMark t
      \/ (GetTileMark t = QUESTION_MARK /\ GetTileMark t' = NONE)).

(** ** The invariant of the field *)

Definition revealed_mine (t : MineTile) : Prop :=
  GetTileState t = REVEALED /\ GetTileContent t = MINE.

Definition flag_hidden (t : MineTile) : Prop :=
  GetTileMark t = FLAG -> GetTileState t = HIDDEN.

(** No mine next to a tile whose content is [EMPTY]: the block around tile
    [i], as the flood computes it, holds no mine. *)
Definition numbers_ok (width height : Z) (tiles : list MineTile) : Prop :=
  forall (i : Z) (t : MineTile),
    0 <= i -> tile_at tiles i = Some t -> GetTileContent t = EMPTY ->
    forall (j : Z) (t' : MineTile),
      j ∈ GetTileGrid width height (i mod width) (i / width) 1 ->
      tile_at tiles j = Some t' -> GetTileContent t' ≠ MINE.

Record field_ok (width height cTiles cMines cRevealed cFlagged : Z)
    (bGameLost : bool) (tiles : list MineTile) : Prop := mk_field_ok {
  ok_width : 0 <= width;
  ok_height : 0 <= height;
  ok_area : width * height < UINT_modulus;
  ok_cTiles : cTiles = width * height;
  ok_length : Z.of_nat (length tiles) = width * height;
  ok_cMines : 0 <= cMines <= cTiles;
  ok_revealed : cRevealed = count_tiles is_revealed tiles;
  ok_flagged : cFlagged = count_tiles is_flagged tiles;
  ok_flag_hidden : Forall flag_hidden tiles;
  ok_lost : bGameLost = true <-> Exists revealed_mine tiles;
  ok_numbers : numbers_ok width height tiles
}.

(** No tile holds a mine. *)
Definition unmined (tiles : list MineTile) : Prop :=
  Forall (fun t => GetTileContent t ≠ MINE) tiles.

(** Once a tile is revealed the mines have been placed: all [cMines] of
    them when the field has a tile to spare for the first click. *)
Definition mines_counted (cTiles cMines cRevealed : Z) (tiles : list MineTile)
    : Prop :=
  0 < cRevealed -> cMines < cTiles -> count_tiles is_mine tiles = cMines.

(** The invariant of a run: the field is in order; as long as nothing is
    revealed no mine has been placed; afterwards the mines are counted. *)
Definition Inv (s : MinefieldWindow) : Prop :=
  field_ok (m_width s) (m_height s) (m_cTiles s) (m_cMines s)
    (m_cRevealedTiles s) (m_cFlaggedTiles s) (m_bGameLost s) (m_aMineTiles s)
  /\ (m_cRevealedTiles s = 0 -> unmined (m_aMineTiles s))
  /\ mines_counted (m_cTiles s) (m_cMines s) (m_cRevealedTiles s)
       (m_aMineTiles s).

(** ** Pieces of the block around a tile *)

Definition in_grid (n c o : Z) : bool :=
  (0 <=? wrap (c + o)) && (wrap (c + o) <? n).

Definition grid_cell (width x y' xo : Z) : list Z :=
  if in_grid width x xo
  then [wrap (wrap (x + xo) + wrap (y' * width))] else [].

Definition grid_row (width height x y yo : Z) : list Z :=
  if in_grid height y yo
  then grid_cell width x (wrap (y + yo)) (-1)
       ++ grid_cell width x (wrap (y + yo)) 0
       ++ grid_cell width x (wrap (y + yo)) 1
  else [].

(** The same pieces for a block whose centre lies in the field, where no
    sum wraps: the cell [(x', y')] if it is in the field, and the three
    cells of row [y'] around column [x]. *)
Definition field_cell (width x' y' : Z) : list Z :=
  if (0 <=? x') && (x' <? width) then [x' + y' * width] else [].

Definition field_row (width height x y' : Z) : list Z :=
  if (0 <=? y') && (y' <? height)
  then field_cell width (x - 1) y' ++ field_cell width x y'
       ++ field_cell width (x + 1) y'
  else [].

(** A list of indices that increases strictly and starts at [lo] or
    above. *)
Fixpoint increasing_from (lo : Z) (l : list Z) : Prop :=
  match l with
  | [] => True
  | e :: rest => lo <= e /\ increasing_from (e + 1) rest
  end.

(** A step of [GenerateNumbers]: state and mark stay, and a tile holds a
    mine after iff it did before. *)
Definition numbers_step (t t' : MineTile) : Prop :=
  GetTileState t' = GetTileState t /\ GetTileMark t' = GetTileMark t
  /\ (GetTileContent t' = MINE <-> GetTileContent t = MINE).

(** The cells in the order in which [for_each_xy] meets them. *)
Definition cells (width height : Z) : list (Z * Z) :=
  x ← seqZ 0 width; y ← seqZ 0 height; [(x, y)].

(** Whether the tile at an index holds a mine. *)
Definition mine_at (tiles : list MineTile) (index : Z) : bool :=
  match tile_at tiles index with
  | Some t => is_mine t
  | None => false
  end.

(** The numeral of tile [i] agrees with the mines around it. *)
Definition number_right (width height : Z) (tiles : list MineTile) (i : Z) : Prop :=
  forall t, tile_at tiles i = Some t -> GetTileContent t ≠ MINE ->
    GetTileContent t
    = content_of_count
        (GetNumberAdjacentMines width height tiles (i mod width) (i / width)).

(** ** The flood *)

(** What the loop has left to do: the tiles not yet revealed, and the
    queue. *)
Definition flood_measure (fl : Flood) : Z :=
  (Z.of_nat (length (fl_tiles fl)) - count_tiles is_revealed (fl_tiles fl))
  + Z.of_nat (length (fl_queue fl)).

(** The invariant of the worklist: no index was pushed twice, and every
    pushed index is that of a revealed tile. *)
Definition revealed_at (tiles : list MineTile) (index : Z) : Prop :=
  0 <= index
  /\ exists t, tile_at tiles index = Some t /\ GetTileState t = REVEALED.

Definition pushed_once (fl : Flood) : Prop :=
  NoDup (fl_pushed fl) /\ Forall (revealed_at (fl_tiles fl)) (fl_pushed fl).

(** The invariant of the tiles: against the array [tiles0] the loop started
    from, every tile took a reveal step; every queued index is that of an
    [EMPTY] tile; and a tile revealed since lies in the block of an [EMPTY]
    tile. *)
Definition empty_at (tiles : list MineTile) (index : Z) : Prop :=
  0 <= index
  /\ exists t, tile_at tiles index = Some t /\ GetTileContent t = EMPTY.

Definition near_empty (width height : Z) (tiles0 tiles : list MineTile) : Prop :=
  forall j t0 t,
    0 <= j -> tile_at tiles0 j = Some t0 -> tile_at tiles j = Some t ->
    GetTileState t0 ≠ REVEALED -> GetTileState t = REVEALED ->
    exists q, empty_at tiles0 q
              /\ j ∈ GetTileGrid width height (q mod width) (q / width) 1.

Definition flood_rel (width height : Z) (tiles0 : list MineTile) (fl : Flood)
    : Prop :=
  Forall2 reveal_step tiles0 (fl_tiles fl)
  /\ Forall (empty_at tiles0) (fl_queue fl)
  /\ near_empty width height tiles0 (fl_tiles fl).

(** The counter agrees with the array, which is short enough for the
    counter not to wrap. *)
Definition flood_counted (fl : Flood) : Prop :=
  Z.of_nat (length (fl_tiles fl)) < UINT_modulus
  /\ fl_cRevealedTiles fl = count_tiles is_revealed (fl_tiles fl).

(** ** Reveal *)

(** The shape of the field: the array has one tile per cell and the tile
    count is a [UINT]. *)
Definition field_shape (width height : Z) (tiles : list MineTile) : Prop :=
  0 <= width /\ 0 <= height /\ width * height < UINT_modulus
  /\ Z.of_nat (length tiles) = width * height.

(** What a call [SetTileRevealed(x, y)] does to the tiles, when the tile at
    [origin] was [t]: a tile revealed by the call is the origin or lies in
    the block of an [EMPTY] tile. *)
Definition reveal_near (width height : Z) (origin : Z)
    (tiles tiles' : list MineTile) : Prop :=
  forall j t0 t,
    0 <= j -> tile_at tiles j = Some t0 -> tile_at tiles' j = Some t ->
    GetTileState t0 ≠ REVEALED -> GetTileState t = REVEALED ->
    j = origin
    \/ exists q, empty_at tiles q
                 /\ j ∈ GetTileGrid width height (q mod width) (q / width) 1.

(** The members that [SetTileRevealed] leaves alone. *)
Definition same_frame (s s' : MinefieldWindow) : Prop :=
  m_width s' = m_width s /\ m_height s' = m_height s
  /\ m_cTiles s' = m_cTiles s /\ m_cMines s' = m_cMines s
  /\ m_cFlaggedTiles s' = m_cFlaggedTiles s
  /\ m_bMouseTracking s' = m_bMouseTracking s
  /\ m_bQuestionMarksEnabled s' = m_bQuestionMarksEnabled s
  /\ m_bChording s' = m_bChording s
  /\ m_bLRHeldAfterChord s' = m_bLRHeldAfterChord s
  /\ m_lastGridPos s' = m_lastGridPos s.

Record reveal_spec (x y : Z) (s s' : MinefieldWindow) : Prop := mk_reveal_spec {
  rs_frame : same_frame s s';
  rs_step : Forall2 reveal_step (m_aMineTiles s) (m_aMineTiles s');
  rs_near :
    reveal_near (m_width s) (m_height s) (x + y * m_width s)
      (m_aMineTiles s) (m_aMineTiles s');
  rs_lost :
    m_bGameLost s' = true <->
    m_bGameLost s = true
    \/ exists t, tile_at (m_aMineTiles s) (x + y * m_width s) = Some t
                 /\ GetTileState t ≠ REVEALED /\ GetTileMark t ≠ FLAG
                 /\ GetTileContent t = MINE;
  rs_origin :
    exists t', tile_at (m_aMineTiles s') (x + y * m_width s) = Some t'
               /\ (GetTileState t' = REVEALED \/ GetTileMark t' = FLAG);
  rs_counted :
    m_cRevealedTiles s = count_tiles is_revealed (m_aMineTiles s) ->
    m_cRevealedTiles s' = count_tiles is_revealed (m_aMineTiles s')
}.

(** A step that only touches the mark. *)
Definition mark_step (t t' : MineTile) : Prop :=
  GetTileContent t' = GetTileContent t /\ GetTileState t' = GetTileState t.

(** ** Statements about chords *)

(** The test of [EndChord]: the centre is revealed and as many tiles of
    its block carry a flag as hold a mine. *)
Definition chord_matches (x y : Z) (s : MinefieldWindow) : Prop :=
  exists centre,
    tile_at (m_aMineTiles s) (tile_index (m_width s) x y) = Some centre
    /\ GetTileState centre = REVEALED
    /\ count_flags (m_aMineTiles s)
         (GetTileGrid (m_width s) (m_height s) x y 1)
       = GetNumberAdjacentMines (m_width s) (m_height s) (m_aMineTiles s) x y.

(** Every neighbour of [(x, y)] is revealed. *)
Definition neighbours_revealed (x y : Z) (s : MinefieldWindow) : Prop :=
  forall j t,
    j ∈ GetTileGrid (m_width s) (m_height s) x y 1 ->
    tile_at (m_aMineTiles s) j = Some t -> GetTileState t = REVEALED.

(** Every neighbour of [(x, y)] that carries no flag is revealed. *)
Definition unflagged_neighbours_revealed (x y : Z) (s : MinefieldWindow) : Prop :=
  forall j t,
    j ∈ GetTileGrid (m_width s) (m_height s) x y 1 ->
    tile_at (m_aMineTiles s) j = Some t ->
    GetTileMark t ≠ FLAG -> GetTileState t = REVEALED.

(** No tile is revealed in [s'] that was not in [s]. *)
Definition nothing_revealed (s s' : MinefieldWindow) : Prop :=
  forall j t t',
    tile_at (m_aMineTiles s) j = Some t ->
    tile_at (m_aMineTiles s') j = Some t' ->
    GetTileState t' = REVEALED -> GetTileState t = REVEALED.

(** Every neighbour of [(x, y)] that showed as pressed in [s] is hidden in
    [s']. *)
Definition previews_reverted (x y : Z) (s s' : MinefieldWindow) : Prop :=
  forall j t,
    j ∈ GetTileGrid (m_width s) (m_height s) x y 1 ->
    tile_at (m_aMineTiles s) j = Some t -> GetTileState t = CLICKED ->
    exists t', tile_at (m_aMineTiles s') j = Some t'
               /\ GetTileState t' = HIDDEN.

(** ** A small game *)

(** Three tiles in a row and one mine; the left button goes down and up on
    the first tile, the right button flags the second, the middle button
    goes down on the first. *)
Definition game_new : MinefieldWindow :=
  MinefieldWindow_new 3 1 1 false false (0, 0).
Definition game_pressed : MinefieldWindow :=
  handle (WM_LBUTTONDOWN MK_LBUTTON (0, 0)) game_new.
Definition game_opened : MinefieldWindow :=
  handle (WM_LBUTTONUP first_k_sampler 0 (0, 0)) game_pressed.
Definition game_flagged : MinefieldWindow :=
  handle (WM_RBUTTONDOWN MK_RBUTTON (1, 0)) game_opened.
Definition game_chording : MinefieldWindow :=
  handle (WM_MBUTTONDOWN MK_MBUTTON (0, 0)) game_flagged.

(** The record of pushes is the history of the queue: what was popped,
    followed by what is queued. *)
Definition pushed_history (fl : Flood) : Prop :=
  exists popped : list Z, fl_pushed fl = popped ++ fl_queue fl.

(** ** What a message does *)

(** Two states of the same game: they differ at most in the members that
    follow the mouse ([m_bMouseTracking], [m_bChording],
    [m_bLRHeldAfterChord], [m_lastGridPos]). *)
Definition same_game (s s' : MinefieldWindow) : Prop :=
  m_width s' = m_width s /\ m_height s' = m_height s
  /\ m_cTiles s' = m_cTiles s /\ m_cMines s' = m_cMines s
  /\ m_cRevealedTiles s' = m_cRevealedTiles s
  /\ m_cFlaggedTiles s' = m_cFlaggedTiles s
  /\ m_bGameLost s' = m_bGameLost s
  /\ m_bQuestionMarksEnabled s' = m_bQuestionMarksEnabled s
  /\ m_aMineTiles s' = m_aMineTiles s.

(** The five things a mouse message can do to the game, each up to the
    members that follow the mouse: change which tiles show as pressed; step
    the mark of one hidden tile; reveal the block around a revealed tile
    (a chord); reveal a pressed tile; place the mines around a pressed tile
    and reveal it (the first click). *)
Inductive message_effect (s s' : MinefieldWindow) : Prop :=
| effect_preview (tiles' : list MineTile) :
    Forall2 preview_step (m_aMineTiles s) tiles' ->
    same_game (set_aMineTiles tiles' s) s' ->
    message_effect s s'
| effect_mark (x y : Z) (t : MineTile) :
    in_field (m_width s) (m_height s) (x, y) ->
    tile_at (m_aMineTiles s) (tile_index (m_width s) x y) = Some t ->
    GetTileState t = HIDDEN ->
    same_game (cycle_mark (tile_index (m_width s) x y) t s) s' ->
    message_effect s s'
| effect_chord (x y : Z) (centre : MineTile) :
    in_field (m_width s) (m_height s) (x, y) ->
    tile_at (m_aMineTiles s) (tile_index (m_width s) x y) = Some centre ->
    GetTileState centre = REVEALED ->
    same_game (reveal_tiles (GetTileGrid (m_width s) (m_height s) x y 1) s) s' ->
    message_effect s s'
| effect_click (x y : Z) (t : MineTile) :
    in_field (m_width s) (m_height s) (x, y) ->
    tile_at (m_aMineTiles s) (tile_index (m_width s) x y) = Some t ->
    GetTileState t = CLICKED ->
    m_cRevealedTiles s <> 0 ->
    same_game (SetTileRevealed x y s) s' ->
    message_effect s s'
| effect_first_click (rng : Sampler) (x y : Z) (t : MineTile) :
    SampleVector_contract rng ->
    in_field (m_width s) (m_height s) (x, y) ->
    tile_at (m_aMineTiles s) (tile_index (m_width s) x y) = Some t ->
    GetTileState t = CLICKED ->
    m_cRevealedTiles s = 0 ->
    same_game (SetTileRevealed x y (GenerateMines rng x y s)) s' ->
    message_effect s s'.

(** What the sweep of [ToggleQuestionMarkUsage] does to one tile. *)
Definition clear_question_mark (t : MineTile) : MineTile :=
  if decide (GetTileMark t = QUESTION_MARK) then SetTileMark NONE t else t.

(** The messages of a button going up: the only ones that reveal. *)
Definition button_release (e : Event) : bool :=
  match e with
  | WM_LBUTTONUP _ _ _ | WM_RBUTTONUP _ _ | WM_MBUTTONUP _ _ => true
  | _ => false
  end.

(** Content stays, and a tile is revealed after iff it was before. *)
Definition status_step (t t' : MineTile) : Prop :=
  GetTileContent t' = GetTileContent t
  /\ (GetTileState t' = REVEALED <-> GetTileState t = REVEALED).

(** A game that is over: one tile, no mine, and a click that reveals the
    tile. *)
Definition game_over : MinefieldWindow :=
  handle (WM_LBUTTONUP first_k_sampler 0 (0, 0))
    (handle (WM_LBUTTONDOWN MK_LBUTTON (0, 0))
       (MinefieldWindow_new 1 1 0 false false (0, 0))).

(** ** The reach of the flood *)

(** A tile the flood has nothing to do with any more: revealed, or under a
    flag. *)
Definition settled_at (tiles : list MineTile) (index : Z) : Prop :=
  exists t, tile_at tiles index = Some t
            /\ (GetTileState t = REVEALED \/ GetTileMark t = FLAG).

(** Every tile of the block around tile [p] is settled. *)
Definition block_settled (width height : Z) (tiles : list MineTile) (p : Z)
    : Prop :=
  forall j, j ∈ GetTileGrid width height (p mod width) (p / width) 1 ->
            settled_at tiles j.

(** A tile that was not revealed in [tiles0] and is revealed and [EMPTY]
    in [tiles]. *)
Definition opened_empty (tiles0 tiles : list MineTile) (j : Z) : Prop :=
  0 <= j
  /\ exists t0 t, tile_at tiles0 j = Some t0 /\ tile_at tiles j = Some t
                  /\ GetTileState t0 <> REVEALED /\ GetTileState t = REVEALED
                  /\ GetTileContent t = EMPTY.

(** The invariant of the flood that gives its reach: the block of every
    tile that has left the queue is settled, and every [EMPTY] tile
    revealed since [tiles0] has been pushed. *)
Definition flood_closed (width height : Z) (tiles0 : list MineTile) (fl : Flood)
    : Prop :=
  (forall p, p ∈ fl_pushed fl -> p ∉ fl_queue fl ->
             block_settled width height (fl_tiles fl) p)
  /\ (forall j, opened_empty tiles0 (fl_tiles fl) j -> j ∈ fl_pushed fl).

(** Three tiles in a row and no mine, the left button down on the first. *)
Definition game_mineless : MinefieldWindow :=
  handle (WM_LBUTTONDOWN MK_LBUTTON (0, 0))
    (MinefieldWindow_new 3 1 0 false false (0, 0)).

(** * Properties *)

(** Naming the parts of an invariant of the field and of a reveal. *)
Ltac field_ok_names H :=
  destruct H as [ok_width ok_height ok_area ok_cTiles ok_length ok_cMines
                 ok_revealed ok_flagged ok_flag_hidden ok_lost ok_numbers].

Ltac reveal_spec_names H :=
  destruct H as [rs_frame rs_step rs_near rs_lost rs_origin rs_counted].

(** ** Machine integers *)

Lemma UINT_modulus_eq : UINT_modulus = 4294967296.
Proof. reflexivity. Qed.

Lemma wrap_small z : 0 <= z < UINT_modulus -> wrap z = z.
Proof. intros. unfold wrap. apply Z.mod_small. lia. Qed.

Lemma wrap_range z : 0 <= wrap z < UINT_modulus.
Proof. unfold wrap. apply Z.mod_pos_bound. rewrite UINT_modulus_eq. lia. Qed.

Lemma wrap_minus_one : wrap (0 + -1) = UINT_modulus - 1.
Proof. reflexivity. Qed.

Lemma wrap_size_t_small z : 0 <= z < UINT_modulus -> wrap_size_t z = z.
Proof.
  intros. unfold wrap_size_t, size_t_modulus. apply Z.mod_small.
  rewrite UINT_modulus_eq in *. lia.
Qed.

(** The index of a cell of the field, and back. *)
Lemma cell_index_bounds w h x y :
  0 <= x < w -> 0 <= y < h -> 0 <= y * w /\ x + y * w < w * h.
Proof. intros. nia. Qed.

Lemma tile_index_small w h x y :
  w * h < UINT_modulus -> 0 <= x < w -> 0 <= y < h ->
  tile_index w x y = x + y * w.
Proof.
  intros Ha Hx Hy. destruct (cell_index_bounds w h x y Hx Hy).
  unfold tile_index. rewrite (wrap_size_t_small (y * w)) by lia.
  apply wrap_size_t_small. lia.
Qed.

Lemma cell_index_mod w x y : 0 <= x < w -> (x + y * w) mod w = x.
Proof. intros. rewrite Z.mod_add by lia. apply Z.mod_small. lia. Qed.

Lemma cell_index_div w x y : 0 <= x < w -> (x + y * w) / w = y.
Proof. intros. rewrite Z.div_add by lia. rewrite Z.div_small by lia. lia. Qed.

Lemma index_cell w h i :
  0 <= i < w * h -> 0 <= h ->
  0 <= i mod w < w /\ 0 <= i / w < h /\ i = i mod w + i / w * w.
Proof.
  intros Hi Hh. assert (0 < w) by nia.
  pose proof (Z.mod_pos_bound i w ltac:(lia)).
  pose proof (Z.div_mod i w ltac:(lia)).
  assert (0 <= i / w) by (apply Z.div_pos; lia).
  repeat split; try lia. nia.
Qed.

(** ** Counting tiles *)

Lemma count_tiles_bounds P tiles :
  0 <= count_tiles P tiles <= Z.of_nat (length tiles).
Proof. induction tiles as [|t ts IH]; simpl; [lia|]. destruct (P t); lia. Qed.

Lemma count_tiles_alter P f i tiles t :
  tiles !! i = Some t ->
  count_tiles P (alter f i tiles)
  = count_tiles P tiles - (if P t then 1 else 0) + (if P (f t) then 1 else 0).
Proof.
  revert i. induction tiles as [|u ts IH]; intros [|i] H; try discriminate.
  - injection H as ->. simpl. lia.
  - change (alter f (S i) (u :: ts)) with (u :: alter f i ts).
    simpl in *. rewrite (IH i H). lia.
Qed.

Lemma count_tiles_replicate P n t :
  P t = false -> count_tiles P (replicate n t) = 0.
Proof. intros H. induction n; simpl; [done|]. rewrite H. lia. Qed.

Lemma count_tiles_Forall2 (R : relation MineTile) P tiles tiles' :
  (forall t t', R t t' -> P t = P t') ->
  Forall2 R tiles tiles' -> count_tiles P tiles = count_tiles P tiles'.
Proof.
  intros HR. induction 1 as [|t t' ts ts' Ht _ IH]; simpl; [done|].
  rewrite (HR _ _ Ht), IH. done.
Qed.

Lemma count_tiles_pos_Exists P tiles :
  0 < count_tiles P tiles <-> Exists (fun t => P t = true) tiles.
Proof.
  induction tiles as [|t ts IH]; simpl.
  - rewrite Exists_nil. lia.
  - rewrite Exists_cons. pose proof (count_tiles_bounds P ts).
    destruct (P t); [intuition lia|].
    rewrite <- IH. split; [intros; right; lia | intros [?|?]; [done|lia]].
Qed.

(** ** Tile-wise relations *)

#[global] Instance preview_step_preorder : PreOrder preview_step.
Proof.
  split.
  - intros t. unfold preview_step. tauto.
  - intros t1 t2 t3 (?&?&?&?) (?&?&?&?). unfold preview_step.
    repeat split; try congruence; try tauto.
    intros. apply H6; [congruence|]. tauto.
Qed.

#[global] Instance reveal_step_preorder : PreOrder reveal_step.
Proof.
  split.
  - intros t. unfold reveal_step. tauto.
  - intros t1 t2 t3 (Hc1&Hm1&H1) (Hc2&Hm2&H2). unfold reveal_step.
    repeat split; try congruence.
    rewrite Hm1 in H2.
    destruct H1 as [H1|(?&?&?)], H2 as [H2|(?&?&?)];
      [left; congruence | right; rewrite <- H1; done
      | right; split_and!; congruence | congruence].
Qed.

#[global] Instance content_step_preorder : PreOrder content_step.
Proof.
  split.
  - intros t. unfold content_step. tauto.
  - intros t1 t2 t3 (?&?) (?&?). unfold content_step. split; congruence.
Qed.

#[global] Instance sweep_step_preorder : PreOrder sweep_step.
Proof.
  split.
  - intros t. unfold sweep_step. tauto.
  - intros t1 t2 t3 (Hc1&Hs1&H1) (Hc2&Hs2&H2). unfold sweep_step.
    repeat split; try congruence.
    destruct H1 as [H1|(?&?)], H2 as [H2|(?&?)];
      [left; congruence | right; split; congruence
      | right; split; congruence | congruence].
Qed.

(** A write to one tile relates the arrays when it relates the tile. *)
Lemma tile_update_rel (R : relation MineTile) `{!Reflexive R} f index tiles :
  (forall t, tile_at tiles index = Some t -> R t (f t)) ->
  Forall2 R tiles (tile_update f index tiles).
Proof.
  intros H. unfold tile_update. apply Forall2_alter_r; [reflexivity|].
  intros t t' Ht Ht' _. rewrite Ht in Ht'. injection Ht' as <-. by apply H.
Qed.

(** A loop of related steps relates the arrays. *)
Lemma foldl_rel {B} (R : relation MineTile) `{!PreOrder R}
    (step : list MineTile -> B -> list MineTile) (l : list B) tiles :
  (forall ts b, Forall2 R ts (step ts b)) ->
  Forall2 R tiles (foldl step tiles l).
Proof.
  intros H. revert tiles. induction l as [|b l IH]; intros tiles; simpl.
  - reflexivity.
  - etrans; [apply (H tiles b)|apply IH].
Qed.

Lemma for_each_xy_rel (R : relation MineTile) `{!PreOrder R} w h
    (body : Z -> Z -> list MineTile -> list MineTile) tiles :
  (forall x y ts, Forall2 R ts (body x y ts)) ->
  Forall2 R tiles (for_each_xy w h body tiles).
Proof.
  intros H. unfold for_each_xy.
  apply (foldl_rel R (fun a x => foldl (fun a y => body x y a) a (seqZ 0 h))).
  intros ts x. apply (foldl_rel R (fun a y => body x y a)). intros. apply H.
Qed.

Lemma Forall2_tile_at (R : relation MineTile) tiles tiles' i t' :
  Forall2 R tiles tiles' -> tile_at tiles' i = Some t' ->
  exists t, tile_at tiles i = Some t /\ R t t'.
Proof. unfold tile_at. intros H Ht. eapply Forall2_lookup_r; eauto. Qed.

Lemma Forall2_tile_at_l (R : relation MineTile) tiles tiles' i t :
  Forall2 R tiles tiles' -> tile_at tiles i = Some t ->
  exists t', tile_at tiles' i = Some t' /\ R t t'.
Proof. unfold tile_at. intros H Ht. eapply Forall2_lookup_l; eauto. Qed.

(** ** Grid geometry *)

(** Whatever the centre and the radius, every index of a block is the index
    of a cell of the field. *)
Lemma GetTileGrid_cell w h x y r j :
  0 <= w -> 0 <= h -> w * h < UINT_modulus ->
  j ∈ GetTileGrid w h x y r ->
  exists x' y', 0 <= x' < w /\ 0 <= y' < h /\ j = x' + y' * w.
Proof.
  intros Hw Hh Ha. unfold GetTileGrid. destruct (r <? 0); [by intros ?%elem_of_nil|].
  intros (yo & Hj & _)%list_elem_of_bind.
  destruct (0 <=? wrap (y + yo)) eqn:Hy1; simpl in Hj; [|by apply elem_of_nil in Hj].
  destruct (wrap (y + yo) <? h) eqn:Hy2; [|by apply elem_of_nil in Hj].
  apply list_elem_of_bind in Hj as (xo & Hj & _).
  destruct (0 <=? wrap (x + xo)) eqn:Hx1; simpl in Hj; [|by apply elem_of_nil in Hj].
  destruct (wrap (x + xo) <? w) eqn:Hx2; [|by apply elem_of_nil in Hj].
  apply list_elem_of_singleton in Hj.
  exists (wrap (x + xo)), (wrap (y + yo)).
  assert (0 <= wrap (x + xo) < w) as Hx by lia.
  assert (0 <= wrap (y + yo) < h) as Hy by lia.
  destruct (cell_index_bounds w h _ _ Hx Hy).
  split_and!; try lia.
  rewrite (wrap_small (wrap (y + yo) * w)) in Hj by lia.
  rewrite wrap_small in Hj by lia. done.
Qed.

Lemma GetTileGrid_range w h x y r j :
  0 <= w -> 0 <= h -> w * h < UINT_modulus ->
  j ∈ GetTileGrid w h x y r -> 0 <= j < w * h.
Proof.
  intros Hw Hh Ha Hj.
  destruct (GetTileGrid_cell w h x y r j Hw Hh Ha Hj) as (x' & y' & Hx & Hy & ->).
  destruct (cell_index_bounds w h _ _ Hx Hy). lia.
Qed.

Lemma list_bind_nil {A B} (f : A -> list B) : [] ≫= f = [].
Proof. reflexivity. Qed.

Lemma seqZ_block1 : seqZ (- (1)) (2 * 1 + 1) = [-1; 0; 1].
Proof. reflexivity. Qed.

Lemma seqZ_block0 : seqZ (- 0) (2 * 0 + 1) = [0].
Proof. reflexivity. Qed.

Lemma GetTileGrid_1_rows w h x y :
  GetTileGrid w h x y 1
  = grid_row w h x y (-1) ++ grid_row w h x y 0 ++ grid_row w h x y 1.
Proof.
  unfold GetTileGrid. change (1 <? 0) with false. cbv iota.
  rewrite seqZ_block1.
  rewrite !bind_cons, !list_bind_nil, !app_nil_r. reflexivity.
Qed.

Lemma GetTileGrid_1_length w h x y :
  (length (GetTileGrid w h x y 1) <= 9)%nat.
Proof.
  rewrite GetTileGrid_1_rows. unfold grid_row, grid_cell.
  rewrite !length_app.
  destruct (in_grid h y (-1)), (in_grid h y 0), (in_grid h y 1),
    (in_grid w x (-1)), (in_grid w x 0), (in_grid w x 1);
    rewrite ?length_app; simpl; lia.
Qed.

(** Around a coordinate of the field the clipping test is the plain one,
    and the sum does not wrap when it passes. *)
Lemma in_grid_inside n c o :
  0 <= c < n -> n < UINT_modulus -> -1 <= o <= 1 ->
  in_grid n c o = (0 <=? c + o) && (c + o <? n)
  /\ (0 <= c + o -> wrap (c + o) = c + o).
Proof.
  intros Hc Hn Ho. unfold in_grid.
  destruct (Z.eq_dec (c + o) (-1)) as [E|E].
  - assert (c = 0 /\ o = -1) as [-> ->] by lia.
    rewrite wrap_minus_one. split; [|lia].
    replace (UINT_modulus - 1 <? n) with false by (symmetry; apply Z.ltb_ge; lia).
    rewrite andb_false_r. reflexivity.
  - rewrite wrap_small by lia. done.
Qed.

Lemma grid_row_inside w h x y yo :
  w * h < UINT_modulus -> 0 <= x < w -> 0 <= y < h -> -1 <= yo <= 1 ->
  grid_row w h x y yo = field_row w h x (y + yo).
Proof.
  intros Ha Hx Hy Ho. assert (w < UINT_modulus /\ h < UINT_modulus) as [Hw Hh] by nia.
  unfold grid_row, field_row.
  destruct (in_grid_inside h y yo Hy Hh Ho) as [-> Hwy].
  destruct ((0 <=? y + yo) && (y + yo <? h)) eqn:E; [|done].
  apply andb_true_iff in E as [E1%Z.leb_le E2%Z.ltb_lt].
  rewrite (Hwy E1).
  assert (forall xo, -1 <= xo <= 1 ->
            grid_cell w x (y + yo) xo = field_cell w (x + xo) (y + yo)) as Hcell.
  { intros xo Hxo. unfold grid_cell, field_cell.
    destruct (in_grid_inside w x xo Hx Hw Hxo) as [-> Hwx].
    destruct ((0 <=? x + xo) && (x + xo <? w)) eqn:E'; [|done].
    apply andb_true_iff in E' as [E1'%Z.leb_le E2'%Z.ltb_lt].
    rewrite (Hwx E1').
    destruct (cell_index_bounds w h (x + xo) (y + yo)); [lia..|].
    rewrite (wrap_small ((y + yo) * w)) by lia.
    rewrite wrap_small by lia. done. }
  rewrite !Hcell by lia. rewrite Z.add_0_r. done.
Qed.

Lemma GetTileGrid_1_inside w h x y :
  w * h < UINT_modulus -> 0 <= x < w -> 0 <= y < h ->
  GetTileGrid w h x y 1
  = field_row w h x (y - 1) ++ field_row w h x y ++ field_row w h x (y + 1).
Proof.
  intros Ha Hx Hy. rewrite GetTileGrid_1_rows.
  rewrite !grid_row_inside by lia. rewrite Z.add_0_r. done.
Qed.

Lemma GetTileGrid_0_inside w h x y :
  w * h < UINT_modulus -> 0 <= x < w -> 0 <= y < h ->
  GetTileGrid w h x y 0 = [x + y * w].
Proof.
  intros Ha Hx Hy. assert (w < UINT_modulus /\ h < UINT_modulus) as [Hw Hh] by nia.
  unfold GetTileGrid. change (0 <? 0) with false. cbv iota.
  rewrite seqZ_block0, !bind_cons, !list_bind_nil, !app_nil_r.
  destruct (cell_index_bounds w h x y Hx Hy).
  rewrite !Z.add_0_r. rewrite (wrap_small x), (wrap_small y) by lia.
  rewrite (wrap_small (y * w)) by lia. rewrite wrap_small by lia.
  replace (0 <=? y) with true by (symmetry; apply Z.leb_le; lia).
  replace (y <? h) with true by (symmetry; apply Z.ltb_lt; lia).
  replace (0 <=? x) with true by (symmetry; apply Z.leb_le; lia).
  replace (x <? w) with true by (symmetry; apply Z.ltb_lt; lia).
  done.
Qed.

Lemma elem_of_field_cell w x' y' j :
  j ∈ field_cell w x' y' <-> 0 <= x' < w /\ j = x' + y' * w.
Proof.
  unfold field_cell.
  destruct (0 <=? x') eqn:E1; destruct (x' <? w) eqn:E2; simpl;
    rewrite ?list_elem_of_singleton, ?elem_of_nil; lia.
Qed.

Lemma elem_of_field_row w h x y' j :
  j ∈ field_row w h x y' <->
  0 <= y' < h /\ exists x', x - 1 <= x' <= x + 1 /\ 0 <= x' < w /\ j = x' + y' * w.
Proof.
  unfold field_row.
  destruct (0 <=? y') eqn:E1; destruct (y' <? h) eqn:E2; simpl;
    rewrite ?elem_of_nil; try lia.
  rewrite !elem_of_app, !elem_of_field_cell. split.
  - intros [[? ->]|[[? ->]|[? ->]]]; (split; [lia|]).
    + exists (x - 1). lia.
    + exists x. lia.
    + exists (x + 1). lia.
  - intros [_ (x' & Hx' & Hw & ->)].
    assert (x' = x - 1 \/ x' = x \/ x' = x + 1) as [-> | [-> | ->]] by lia; tauto.
Qed.

(** The block of radius 1 around a cell of the field: the cells of the
    field at distance at most 1 in both coordinates. *)
Lemma elem_of_GetTileGrid_1 w h x y j :
  w * h < UINT_modulus -> 0 <= x < w -> 0 <= y < h ->
  j ∈ GetTileGrid w h x y 1 <->
  exists x' y', x - 1 <= x' <= x + 1 /\ y - 1 <= y' <= y + 1
                /\ 0 <= x' < w /\ 0 <= y' < h /\ j = x' + y' * w.
Proof.
  intros Ha Hx Hy. rewrite GetTileGrid_1_inside by done.
  rewrite !elem_of_app, !elem_of_field_row. split.
  - intros [[? (x' & ? & ? & ->)]|[[? (x' & ? & ? & ->)]|[? (x' & ? & ? & ->)]]];
      [exists x', (y - 1)|exists x', y|exists x', (y + 1)]; lia.
  - intros (x' & y' & Hx' & Hy' & ? & ? & ->).
    assert (y' = y - 1 \/ y' = y \/ y' = y + 1) as [-> | [-> | ->]] by lia;
      [left|right; left|right; right]; (split; [lia|exists x'; split_and!; try lia]).
Qed.

Lemma GetTileGrid_1_centre w h x y :
  w * h < UINT_modulus -> 0 <= x < w -> 0 <= y < h ->
  x + y * w ∈ GetTileGrid w h x y 1.
Proof.
  intros. apply elem_of_GetTileGrid_1; [done..|].
  exists x, y. split_and!; lia.
Qed.

Lemma GetTileGrid_increasing w h x y r :
  r = 0 \/ r = 1 ->
  w * h < UINT_modulus -> 0 <= x < w -> 0 <= y < h ->
  increasing_from 0 (GetTileGrid w h x y r).
Proof.
  intros [-> | ->] Ha Hx Hy.
  - rewrite GetTileGrid_0_inside by done. simpl. nia.
  - rewrite GetTileGrid_1_inside by done. unfold field_row, field_cell.
    rewrite Z.mul_sub_distr_r, Z.mul_add_distr_r, Z.mul_1_l.
    assert (0 <= y * w /\ (1 <= y -> w <= y * w)) by nia.
    generalize dependent (y * w). intros p Hp.
    repeat match goal with
           | |- context [?a <=? ?b] => destruct (Z.leb_spec a b); try lia
           | |- context [?a <? ?b] => destruct (Z.ltb_spec a b); try lia
           end; simpl; lia.
Qed.

Lemma increasing_from_lower lo l e :
  increasing_from lo l -> e ∈ l -> lo <= e.
Proof.
  revert lo. induction l as [|a l IH]; intros lo; simpl.
  - by intros _ ?%elem_of_nil.
  - intros [Ha Hl] [->|He]%elem_of_cons; [done|].
    specialize (IH _ Hl He). lia.
Qed.

(** ** The candidates of mine generation *)

(** Against a strictly increasing vector of excluded tiles that lie among
    the walked indices, the walk keeps exactly the indices that are not
    excluded, each once. *)
Lemma tiles_to_toggle_spec count tile excluded :
  0 <= tile -> tile + Z.of_nat count < UINT_modulus ->
  increasing_from tile excluded ->
  Forall (fun e => e < tile + Z.of_nat count) excluded ->
  (forall i, i ∈ tiles_to_toggle count tile excluded
             <-> tile <= i < tile + Z.of_nat count /\ i ∉ excluded)
  /\ NoDup (tiles_to_toggle count tile excluded)
  /\ Z.of_nat (length (tiles_to_toggle count tile excluded))
     = Z.of_nat count - Z.of_nat (length excluded).
Proof.
  revert tile excluded. induction count as [|count IH]; intros tile excluded Ht Hc Hinc Hlt.
  - simpl. destruct excluded as [|e rest].
    + split_and!; [|constructor|simpl; lia].
      intros i. rewrite elem_of_nil. lia.
    + exfalso. simpl in Hinc. apply Forall_cons in Hlt as [? _]. lia.
  - assert (wrap (tile + 1) = tile + 1) as Hw by (apply wrap_small; lia).
    simpl tiles_to_toggle. rewrite Hw.
    destruct excluded as [|e rest].
    + destruct (IH (tile + 1) []) as (IH1 & IH2 & IH3);
        [lia|lia|done|constructor|].
      split_and!.
      * intros i. rewrite elem_of_cons, IH1. rewrite !elem_of_nil. lia.
      * constructor; [|done]. rewrite IH1. lia.
      * simpl length in *. lia.
    + simpl in Hinc. destruct Hinc as [Hle Hinc].
      apply Forall_cons in Hlt as [Hlt1 Hlt].
      destruct (Z.ltb_spec tile e) as [Hlt'|Hge].
      * destruct (IH (tile + 1) (e :: rest)) as (IH1 & IH2 & IH3);
          [lia|lia|simpl; split; [lia|done]
          |constructor; [lia|eapply Forall_impl; [done|simpl; lia]]|].
        split_and!.
        -- intros i. rewrite elem_of_cons, IH1. split.
           ++ intros [->|[? ?]]; [|split; [lia|done]].
              split; [lia|]. intros [->|He]%elem_of_cons; [lia|].
              pose proof (increasing_from_lower _ _ _ Hinc He). lia.
           ++ intros [? ?]. destruct (Z.eq_dec i tile); [by left|right].
              split; [lia|done].
        -- constructor; [|done]. rewrite IH1. lia.
        -- simpl length in *. lia.
      * assert (e = tile) as -> by lia.
        destruct (IH (tile + 1) rest) as (IH1 & IH2 & IH3);
          [lia|lia|done|eapply Forall_impl; [done|simpl; lia]|].
        split_and!.
        -- intros i. rewrite IH1, not_elem_of_cons. intuition lia.
        -- done.
        -- simpl length in *. lia.
Qed.

Lemma GetTileGrid_nonneg w h x y r j : j ∈ GetTileGrid w h x y r -> 0 <= j.
Proof.
  unfold GetTileGrid. destruct (r <? 0); [by intros ?%elem_of_nil|].
  intros (yo & Hj & _)%list_elem_of_bind.
  destruct ((0 <=? wrap (y + yo)) && (wrap (y + yo) <? h));
    [|by apply elem_of_nil in Hj].
  apply list_elem_of_bind in Hj as (xo & Hj & _).
  destruct ((0 <=? wrap (x + xo)) && (wrap (x + xo) <? w));
    [|by apply elem_of_nil in Hj].
  apply list_elem_of_singleton in Hj as ->.
  apply wrap_range.
Qed.

(** ** Mine generation *)

#[global] Instance numbers_step_preorder : PreOrder numbers_step.
Proof.
  split.
  - intros t. unfold numbers_step. tauto.
  - intros t1 t2 t3 (?&?&?) (?&?&?). unfold numbers_step.
    split_and!; try congruence; tauto.
Qed.

Lemma numbers_step_content_step t t' : numbers_step t t' -> content_step t t'.
Proof. unfold numbers_step, content_step. tauto. Qed.

Lemma is_mine_true t : is_mine t = true <-> GetTileContent t = MINE.
Proof. unfold is_mine. apply bool_decide_eq_true. Qed.

Lemma is_mine_false t : is_mine t = false <-> GetTileContent t ≠ MINE.
Proof. unfold is_mine. apply bool_decide_eq_false. Qed.

Lemma numbers_step_is_mine t t' : numbers_step t t' -> is_mine t = is_mine t'.
Proof.
  intros (_&_&H). destruct (is_mine t') eqn:E.
  - apply is_mine_true. apply H. by apply is_mine_true.
  - apply is_mine_false. intros E'. apply is_mine_false in E. tauto.
Qed.

Lemma mine_at_Forall2 tiles tiles' j :
  Forall2 numbers_step tiles tiles' -> mine_at tiles j = mine_at tiles' j.
Proof.
  intros H. unfold mine_at, tile_at.
  destruct (tiles' !! Z.to_nat j) as [t'|] eqn:E.
  - destruct (Forall2_lookup_r _ _ _ _ _ H E) as (t & -> & Ht).
    by apply numbers_step_is_mine.
  - apply Forall2_length in H. apply lookup_ge_None in E.
    rewrite (proj2 (lookup_ge_None tiles _)); [done|lia].
Qed.

(** The count of [GetNumberAdjacentMines] is the number of mines in the
    block: no more than nine, so it does not wrap. *)
Lemma count_mines_foldl tiles grid c0 :
  0 <= c0 -> c0 + Z.of_nat (length grid) < UINT_modulus ->
  foldl (fun c tile =>
           match tile_at tiles tile with
           | Some t => if decide (GetTileContent t = MINE)
                       then wrap (c + 1) else c
           | None => c
           end) c0 grid
  = c0 + Z.of_nat (length (filter (fun j => mine_at tiles j = true) grid)).
Proof.
  revert c0. induction grid as [|j grid IH]; intros c0 H0 Hlen; simpl.
  - lia.
  - simpl length in Hlen. rewrite filter_cons.
    match goal with |- foldl _ ?a grid = _ => set (step := a) end.
    assert (step = if mine_at tiles j then wrap (c0 + 1) else c0) as ->.
    { subst step. unfold mine_at. destruct (tile_at tiles j) as [t|]; [|done].
      destruct (decide (GetTileContent t = MINE)) as [Hm|Hm].
      - apply is_mine_true in Hm. by rewrite Hm.
      - apply is_mine_false in Hm. by rewrite Hm. }
    destruct (mine_at tiles j) eqn:E.
    + rewrite wrap_small by lia. rewrite IH by lia.
      rewrite decide_True by done. simpl. lia.
    + rewrite IH by lia. rewrite decide_False by congruence. done.
Qed.

Lemma GetNumberAdjacentMines_eq w h tiles x y :
  GetNumberAdjacentMines w h tiles x y
  = Z.of_nat (length (filter (fun j => mine_at tiles j = true)
                        (GetTileGrid w h x y 1))).
Proof.
  unfold GetNumberAdjacentMines. rewrite count_mines_foldl; [lia|lia|].
  pose proof (GetTileGrid_1_length w h x y). rewrite UINT_modulus_eq. lia.
Qed.

Lemma GetNumberAdjacentMines_Forall2 w h tiles tiles' x y :
  Forall2 numbers_step tiles tiles' ->
  GetNumberAdjacentMines w h tiles x y = GetNumberAdjacentMines w h tiles' x y.
Proof.
  intros H. rewrite !GetNumberAdjacentMines_eq. do 2 f_equal.
  apply list_filter_iff. intros j. by rewrite (mine_at_Forall2 _ _ j H).
Qed.

Lemma filter_length_lt {A} (P : A -> Prop) `{!forall a, Decision (P a)} l a :
  a ∈ l -> ~ P a -> (length (filter P l) < length l)%nat.
Proof.
  induction l as [|b l IH]; [by intros ?%elem_of_nil|].
  intros [->|Ha]%elem_of_cons Hn; rewrite filter_cons; simpl.
  - rewrite decide_False by done. pose proof (length_filter P l). lia.
  - specialize (IH Ha Hn). destruct (decide (P b)); simpl; lia.
Qed.

(** Around a tile that holds no mine there are at most eight mines, so the
    numeral is [EMPTY] only when there is none. *)
Lemma content_of_count_EMPTY w h tiles x y :
  w * h < UINT_modulus -> 0 <= x < w -> 0 <= y < h ->
  mine_at tiles (x + y * w) = false ->
  content_of_count (GetNumberAdjacentMines w h tiles x y) = EMPTY ->
  forall j, j ∈ GetTileGrid w h x y 1 -> mine_at tiles j = false.
Proof.
  intros Ha Hx Hy Hc. rewrite GetNumberAdjacentMines_eq.
  pose proof (GetTileGrid_1_length w h x y) as Hlen.
  pose proof (GetTileGrid_1_centre w h x y Ha Hx Hy) as Hin.
  pose proof (filter_length_lt (fun j => mine_at tiles j = true) _ _ Hin) as Hlt.
  cbv beta in Hlt. rewrite Hc in Hlt. specialize (Hlt ltac:(done)).
  set (n := length (filter _ _)) in *.
  intros He j Hj. destruct (mine_at tiles j) eqn:E; [|done]. exfalso.
  assert (j ∈ filter (fun j => mine_at tiles j = true) (GetTileGrid w h x y 1)) as Hjf
    by (apply list_elem_of_filter; done).
  assert (n ≠ 0%nat) as Hn.
  { subst n. intros Hz. apply length_zero_iff_nil in Hz. rewrite Hz in Hjf.
    by apply elem_of_nil in Hjf. }
  unfold content_of_count in He.
  repeat match type of He with
         | (if ?a =? ?b then _ else _) = _ =>
             destruct (Z.eqb_spec a b); [discriminate|]
         end.
  lia.
Qed.

Lemma elem_of_cells w h c : c ∈ cells w h <-> in_field w h c.
Proof.
  unfold cells, in_field. rewrite list_elem_of_bind. split.
  - intros (x & (y & Hc%list_elem_of_singleton & Hy%elem_of_seqZ)%list_elem_of_bind
              & Hx%elem_of_seqZ).
    subst c. simpl. lia.
  - intros [Hx Hy]. exists c.1. rewrite elem_of_seqZ. split; [|lia].
    apply list_elem_of_bind. exists c.2. rewrite elem_of_seqZ.
    split; [|lia]. apply list_elem_of_singleton. by destruct c.
Qed.

Lemma for_each_xy_cells {A} w h (body : Z -> Z -> A -> A) a :
  for_each_xy w h body a = foldl (fun a c => body c.1 c.2 a) a (cells w h).
Proof.
  unfold for_each_xy, cells. revert a.
  induction (seqZ 0 w) as [|x xs IHx]; intros a; [done|].
  rewrite bind_cons, foldl_app. simpl foldl at 1. rewrite IHx. f_equal.
  clear. revert a. induction (seqZ 0 h) as [|y ys IHy]; intros a; [done|].
  rewrite bind_cons, foldl_app. simpl. apply IHy.
Qed.

Lemma content_of_count_not_MINE c : content_of_count c ≠ MINE.
Proof.
  unfold content_of_count.
  repeat match goal with |- context [?a =? ?b] => destruct (a =? b) end; done.
Qed.

Lemma number_tile_cases w h x y tiles :
  (number_tile w h x y tiles = tiles
   /\ forall t, tile_at tiles (tile_index w x y) = Some t ->
                GetTileContent t = MINE)
  \/ (exists t, tile_at tiles (tile_index w x y) = Some t
                /\ GetTileContent t ≠ MINE
                /\ number_tile w h x y tiles
                   = tile_update
                       (SetTileContent
                          (content_of_count
                             (GetNumberAdjacentMines w h tiles x y)))
                       (tile_index w x y) tiles).
Proof.
  unfold number_tile. destruct (tile_at tiles (tile_index w x y)) as [t|].
  - destruct (decide (GetTileContent t ≠ MINE)) as [Hm|Hm].
    + right. by exists t.
    + left. split; [done|]. intros ? [= <-]. by apply dec_stable in Hm.
  - left. split; [done|]. intros ? [=].
Qed.

Lemma number_tile_step w h x y tiles :
  Forall2 numbers_step tiles (number_tile w h x y tiles).
Proof.
  destruct (number_tile_cases w h x y tiles) as [[-> _]|(t & E & Hm & ->)];
    [reflexivity|].
  apply tile_update_rel; [apply _|]. intros t' Ht'. rewrite E in Ht'.
  injection Ht' as <-. unfold numbers_step. simpl. split_and!; [done..|].
  split; [intros H; by apply content_of_count_not_MINE in H|done].
Qed.

Lemma number_tile_right w h x y tiles :
  w * h < UINT_modulus -> 0 <= x < w -> 0 <= y < h ->
  number_right w h (number_tile w h x y tiles) (x + y * w)
  /\ forall i, 0 <= i -> number_right w h tiles i ->
               number_right w h (number_tile w h x y tiles) i.
Proof.
  intros Ha Hx Hy. pose proof (number_tile_step w h x y tiles) as Hstep.
  destruct (cell_index_bounds w h x y Hx Hy) as [Hi0 Hi1].
  pose proof (tile_index_small w h x y Ha Hx Hy) as Hidx.
  destruct (number_tile_cases w h x y tiles) as [[E Hmine]|(t & Et & Hm & E)].
  - rewrite E. split; [|done]. intros t Ht Hm. exfalso. apply Hm.
    apply Hmine. by rewrite Hidx.
  - rewrite Hidx in *.
    assert (number_right w h (number_tile w h x y tiles) (x + y * w)) as HA.
    { intros t2 Ht2 _.
      rewrite <- (GetNumberAdjacentMines_Forall2 _ _ _ _ _ _ Hstep).
      rewrite E in Ht2. unfold tile_at, tile_update in *.
      rewrite list_lookup_alter_eq, Et in Ht2. injection Ht2 as <-. simpl.
      by rewrite cell_index_mod, cell_index_div. }
    split; [done|]. intros i Hi Hold.
    destruct (decide (i = x + y * w)) as [->|Hne]; [done|].
    intros t2 Ht2 Hm2.
    rewrite <- (GetNumberAdjacentMines_Forall2 _ _ _ _ _ _ Hstep).
    apply Hold; [|done]. rewrite E in Ht2. unfold tile_at, tile_update in *.
    by rewrite list_lookup_alter_ne in Ht2 by lia.
Qed.

Lemma GenerateNumbers_step w h tiles :
  Forall2 numbers_step tiles (GenerateNumbers w h tiles).
Proof.
  unfold GenerateNumbers. apply for_each_xy_rel; [apply _|].
  intros. apply number_tile_step.
Qed.

Lemma GenerateNumbers_right w h tiles c :
  w * h < UINT_modulus -> in_field w h c ->
  number_right w h (GenerateNumbers w h tiles) (c.1 + c.2 * w).
Proof.
  intros Ha Hc. unfold GenerateNumbers. rewrite for_each_xy_cells.
  apply elem_of_cells in Hc. revert Hc.
  assert (Forall (in_field w h) (cells w h)) as Hall
    by (apply Forall_forall; intros ?; apply elem_of_cells).
  revert Hall. induction (cells w h) as [|d l IH] using rev_ind.
  - by intros _ ?%elem_of_nil.
  - intros [Hl [Hd _]%Forall_cons]%Forall_app Hin. rewrite foldl_snoc.
    destruct Hd as [Hdx Hdy].
    destruct (number_tile_right w h d.1 d.2 (foldl (fun a c => number_tile w h c.1 c.2 a) tiles l) Ha Hdx Hdy)
      as [Hnew Hkeep].
    apply elem_of_app in Hin as [Hin| ->%list_elem_of_singleton]; [|done].
    apply Hkeep; [|by apply IH].
    apply Forall_forall with (x := c) in Hl as [? ?]; [|done]. nia.
Qed.

(** After [GenerateNumbers] no mine lies next to an [EMPTY] tile. *)
Lemma GenerateNumbers_numbers_ok w h tiles :
  0 <= w -> 0 <= h -> w * h < UINT_modulus ->
  Z.of_nat (length tiles) = w * h ->
  numbers_ok w h (GenerateNumbers w h tiles).
Proof.
  intros Hw Hh Ha Hlen i t Hi Ht He j t' Hj Ht'.
  pose proof (GenerateNumbers_step w h tiles) as Hstep.
  assert (i < w * h) as Hi'.
  { apply Forall2_length in Hstep. unfold tile_at in Ht.
    apply lookup_lt_Some in Ht. lia. }
  destruct (index_cell w h i) as (Hx & Hy & Hi''); [lia..|].
  pose proof (GenerateNumbers_right w h tiles (i mod w, i / w) Ha (conj Hx Hy)) as Hr.
  simpl in Hr. rewrite <- Hi'' in Hr.
  assert (GetTileContent t ≠ MINE) as Hnm by congruence.
  specialize (Hr t Ht Hnm). rewrite He in Hr. symmetry in Hr.
  pose proof (content_of_count_EMPTY w h (GenerateNumbers w h tiles) _ _ Ha Hx Hy) as Hgrid.
  rewrite <- Hi'' in Hgrid. unfold mine_at at 1 in Hgrid. rewrite Ht in Hgrid.
  specialize (Hgrid (proj2 (is_mine_false t) Hnm) Hr j Hj).
  unfold mine_at in Hgrid. rewrite Ht' in Hgrid. by apply is_mine_false.
Qed.

Lemma place_mines_step sample tiles :
  Forall2 content_step tiles (place_mines sample tiles).
Proof.
  unfold place_mines. apply foldl_rel; [apply _|].
  intros ts p. apply tile_update_rel; [apply _|]. by intros t _.
Qed.

Lemma place_mines_tile_at sample tiles i :
  0 <= i -> Forall (fun p => 0 <= p) sample ->
  tile_at (place_mines sample tiles) i
  = (fun t => if decide (i ∈ sample) then SetTileContent MINE t else t)
      <$> tile_at tiles i.
Proof.
  intros Hi. unfold place_mines. revert tiles.
  induction sample as [|p sample IH]; intros tiles Hpos; cbn [foldl].
  - destruct (tile_at tiles i); [|done]. cbn [fmap option_fmap option_map].
    case_decide as H; [by apply elem_of_nil in H|done].
  - apply Forall_cons in Hpos as [Hp Hpos]. rewrite IH by done.
    unfold tile_at, tile_update.
    destruct (decide (p = i)) as [->|Hne].
    + rewrite list_lookup_alter_eq. destruct (tiles !! Z.to_nat i) as [t|]; [|done].
      simpl. f_equal. rewrite (decide_True (P := i ∈ i :: sample)) by left.
      by destruct (decide (i ∈ sample)).
    + rewrite list_lookup_alter_ne by lia.
      destruct (tiles !! Z.to_nat i) as [t|]; [|done]. simpl. f_equal.
      destruct (decide (i ∈ sample)) as [Hin|Hin].
      * by rewrite decide_True by (by right).
      * rewrite decide_False; [done|]. by intros [?|?]%elem_of_cons.
Qed.

Lemma mine_at_place_mines sample tiles i :
  0 <= i -> Forall (fun p => 0 <= p) sample ->
  mine_at (place_mines sample tiles) i = true ->
  mine_at tiles i = true \/ i ∈ sample.
Proof.
  intros Hi Hpos. unfold mine_at. rewrite place_mines_tile_at by done.
  destruct (tile_at tiles i) as [t|]; simpl; [|done].
  destruct (decide (i ∈ sample)); [by right|by left].
Qed.

Lemma count_mines_place_mines sample tiles :
  NoDup sample ->
  Forall (fun p => 0 <= p < Z.of_nat (length tiles)) sample ->
  Forall (fun p => mine_at tiles p = false) sample ->
  count_tiles is_mine (place_mines sample tiles)
  = count_tiles is_mine tiles + Z.of_nat (length sample).
Proof.
  unfold place_mines. revert tiles.
  induction sample as [|p sample IH]; intros tiles Hnd Hrange Hfree; simpl.
  - lia.
  - apply NoDup_cons in Hnd as [Hp Hnd].
    apply Forall_cons in Hrange as [Hpr Hrange].
    apply Forall_cons in Hfree as [Hpf Hfree].
    destruct (lookup_lt_is_Some_2 tiles (Z.to_nat p)) as [t Ht]; [lia|].
    rewrite IH.
    + unfold tile_update. rewrite (count_tiles_alter _ _ _ _ t Ht).
      unfold mine_at, tile_at in Hpf. rewrite Ht in Hpf. rewrite Hpf.
      replace (is_mine (SetTileContent MINE t)) with true by done. lia.
    + done.
    + unfold tile_update. rewrite length_alter. done.
    + apply Forall_forall. intros q Hq.
      pose proof (proj1 (Forall_forall _ _) Hfree q Hq) as Hqf.
      pose proof (proj1 (Forall_forall _ _) Hrange q Hq) as Hqr. simpl in *.
      unfold mine_at, tile_at, tile_update in *.
      rewrite list_lookup_alter_ne; [done|]. intros Heq.
      assert (p = q) as -> by lia. done.
Qed.

Lemma unmined_mine_at tiles j : unmined tiles -> mine_at tiles j = false.
Proof.
  intros H. unfold mine_at, tile_at. destruct (tiles !! Z.to_nat j) as [t|] eqn:E; [|done].
  apply is_mine_false. eapply (proj1 (Forall_lookup _ _) H); done.
Qed.

Lemma unmined_count tiles : unmined tiles -> count_tiles is_mine tiles = 0.
Proof.
  induction 1 as [|t ts Ht _ IH]; simpl; [done|].
  apply is_mine_false in Ht. rewrite Ht, IH. done.
Qed.

Lemma unmined_fresh n : unmined (fresh_tiles n).
Proof. unfold unmined, fresh_tiles. apply Forall_replicate. done. Qed.

(** ** The flood *)

Lemma is_revealed_true t : is_revealed t = true <-> GetTileState t = REVEALED.
Proof. unfold is_revealed. apply bool_decide_eq_true. Qed.

Lemma is_revealed_false t : is_revealed t = false <-> GetTileState t ≠ REVEALED.
Proof. unfold is_revealed. apply bool_decide_eq_false. Qed.

(** The three outcomes of a visit. *)
Lemma flood_visit_cases fl tile :
  flood_visit fl tile = fl
  \/ exists t,
       tile_at (fl_tiles fl) tile = Some t
       /\ GetTileState t ≠ REVEALED /\ GetTileMark t ≠ FLAG
       /\ ((GetTileContent t = EMPTY
            /\ flood_visit fl tile
               = mkFlood (tile_update (SetTileState REVEALED) tile (fl_tiles fl))
                   (wrap (fl_cRevealedTiles fl + 1))
                   (fl_queue fl ++ [tile]) (fl_pushed fl ++ [tile]))
           \/ (GetTileContent t ≠ EMPTY
               /\ flood_visit fl tile
                  = mkFlood (tile_update (SetTileState REVEALED) tile (fl_tiles fl))
                      (wrap (fl_cRevealedTiles fl + 1))
                      (fl_queue fl) (fl_pushed fl))).
Proof.
  unfold flood_visit. destruct (tile_at (fl_tiles fl) tile) as [t|]; [|by left].
  destruct (decide (GetTileState t ≠ REVEALED ∧ GetTileMark t ≠ FLAG)) as [[H1 H2]|_];
    [|by left].
  right. exists t. split_and!; [done..|].
  destruct (decide (GetTileContent t = EMPTY)); [left|right]; done.
Qed.

(** Induction over the turns and over the visits of a turn. *)
Lemma flood_turn_ind2 (Q Q' : Flood -> Prop) w h front fl :
  (forall fl tile,
     tile ∈ GetTileGrid w h (front mod w) (front / w) 1 ->
     front ∈ fl_queue fl -> Q fl -> Q (flood_visit fl tile)) ->
  (forall fl, front ∈ fl_queue fl -> Q fl ->
     Q' (mkFlood (fl_tiles fl) (fl_cRevealedTiles fl) (tail (fl_queue fl))
           (fl_pushed fl))) ->
  front ∈ fl_queue fl -> Q fl -> Q' (flood_turn w h front fl).
Proof.
  intros Hvisit Hpop Hfront HQ. unfold flood_turn.
  assert (front ∈ fl_queue (foldl flood_visit fl
                              (GetTileGrid w h (front mod w) (front / w) 1))
          /\ Q (foldl flood_visit fl
                  (GetTileGrid w h (front mod w) (front / w) 1))) as [H1 H2];
    [|by apply Hpop].
  assert (forall tile, tile ∈ GetTileGrid w h (front mod w) (front / w) 1 ->
            tile ∈ GetTileGrid w h (front mod w) (front / w) 1) as Hsub by done.
  revert Hsub. generalize (GetTileGrid w h (front mod w) (front / w) 1) at 1 3 4.
  intros grid. revert fl Hfront HQ.
  induction grid as [|tile grid IH]; intros fl Hfront HQ Hsub; simpl; [done|].
  apply IH.
  - destruct (flood_visit_cases fl tile) as [->|(t & _ & _ & _ & [[_ ->]|[_ ->]])];
      simpl; [done| |done]. apply elem_of_app. by left.
  - apply Hvisit; [|done..]. apply Hsub. by left.
  - intros tile' H. apply Hsub. by right.
Qed.

Lemma flood_turn_ind (Q : Flood -> Prop) w h front fl :
  (forall fl tile,
     tile ∈ GetTileGrid w h (front mod w) (front / w) 1 ->
     front ∈ fl_queue fl -> Q fl -> Q (flood_visit fl tile)) ->
  (forall fl, front ∈ fl_queue fl -> Q fl ->
     Q (mkFlood (fl_tiles fl) (fl_cRevealedTiles fl) (tail (fl_queue fl))
          (fl_pushed fl))) ->
  front ∈ fl_queue fl -> Q fl -> Q (flood_turn w h front fl).
Proof. apply flood_turn_ind2. Qed.

Lemma flood_loop_ind (Q : Flood -> Prop) w h :
  (forall fl front, front ∈ fl_queue fl -> Q fl -> Q (flood_turn w h front fl)) ->
  forall fuel fl fl', Q fl -> flood_loop w h fuel fl = Some fl' -> Q fl'.
Proof.
  intros Hturn. induction fuel as [|fuel IH]; intros fl fl' HQ; simpl.
  - destruct (fl_queue fl); [by intros [= <-]|done].
  - destruct (fl_queue fl) as [|front rest] eqn:E; [by intros [= <-]|].
    apply IH. apply Hturn; [|done]. rewrite E. by left.
Qed.

Lemma flood_loop_done w h fuel fl fl' :
  flood_loop w h fuel fl = Some fl' -> fl_queue fl' = [].
Proof.
  revert fl. induction fuel as [|fuel IH]; intros fl; simpl.
  - destruct (fl_queue fl) eqn:E; [by intros [= <-]|done].
  - destruct (fl_queue fl) eqn:E; [by intros [= <-]|]. apply IH.
Qed.

(** *** Termination *)

Lemma flood_measure_queue fl : Z.of_nat (length (fl_queue fl)) <= flood_measure fl.
Proof.
  unfold flood_measure. pose proof (count_tiles_bounds is_revealed (fl_tiles fl)). lia.
Qed.

Lemma flood_visit_measure fl tile :
  flood_measure (flood_visit fl tile) <= flood_measure fl.
Proof.
  destruct (flood_visit_cases fl tile)
    as [->|(t & Ht & Hs & _ & [[_ ->]|[_ ->]])]; [lia|..];
    unfold flood_measure, tile_update, tile_at in *; simpl;
    rewrite length_alter, (count_tiles_alter _ _ _ _ t Ht);
    apply is_revealed_false in Hs; rewrite Hs;
    replace (is_revealed (SetTileState REVEALED t)) with true by done;
    rewrite ?length_app; simpl; lia.
Qed.

Lemma flood_turn_measure w h front fl :
  front ∈ fl_queue fl ->
  flood_measure (flood_turn w h front fl) <= flood_measure fl - 1.
Proof.
  intros Hfront.
  apply (flood_turn_ind2
           (fun fl' => flood_measure fl' <= flood_measure fl)
           (fun fl' => flood_measure fl' <= flood_measure fl - 1) w h front fl);
    [| |done|lia].
  - intros fl1 tile _ _ H. pose proof (flood_visit_measure fl1 tile). lia.
  - intros fl1 Hin H. unfold flood_measure in *. simpl.
    destruct (fl_queue fl1); [by apply elem_of_nil in Hin|]. simpl in *. lia.
Qed.

(** With as many turns as the measure, the loop comes to its end. *)
Lemma flood_loop_terminates w h fuel fl :
  flood_measure fl <= Z.of_nat fuel ->
  exists fl', flood_loop w h fuel fl = Some fl'.
Proof.
  revert fl. induction fuel as [|fuel IH]; intros fl Hm; simpl.
  - pose proof (flood_measure_queue fl).
    destruct (fl_queue fl); [by eexists|simpl in *; lia].
  - destruct (fl_queue fl) as [|front rest] eqn:E; [by eexists|].
    apply IH. pose proof (flood_turn_measure w h front fl) as H.
    rewrite E in H. specialize (H ltac:(by left)). lia.
Qed.

(** More turns do not change the outcome. *)
Lemma flood_loop_more_fuel w h fuel fuel' fl fl' :
  flood_loop w h fuel fl = Some fl' -> (fuel <= fuel')%nat ->
  flood_loop w h fuel' fl = Some fl'.
Proof.
  revert fuel' fl. induction fuel as [|fuel IH]; intros fuel' fl; simpl.
  - destruct (fl_queue fl) eqn:E; [|done]. intros [= <-] _.
    destruct fuel'; simpl; by rewrite E.
  - destruct (fl_queue fl) eqn:E.
    + intros [= <-] _. destruct fuel'; simpl; by rewrite E.
    + intros H Hle. destruct fuel' as [|fuel']; [lia|]. simpl. rewrite E.
      apply IH; [done|lia].
Qed.

(** *** Each index is pushed once *)

Lemma revealed_at_update tiles tile p :
  revealed_at tiles p ->
  revealed_at (tile_update (SetTileState REVEALED) tile tiles) p.
Proof.
  intros (Hp & t & Ht & Hs). split; [done|].
  unfold tile_at, tile_update in *.
  destruct (decide (Z.to_nat tile = Z.to_nat p)) as [E|E].
  - rewrite E, list_lookup_alter_eq, Ht. simpl. eauto.
  - rewrite list_lookup_alter_ne, Ht by done. eauto.
Qed.

Lemma flood_visit_pushed_once fl tile :
  0 <= tile -> pushed_once fl -> pushed_once (flood_visit fl tile).
Proof.
  intros Htile [Hnd Hrev].
  destruct (flood_visit_cases fl tile)
    as [->|(t & Ht & Hs & _ & [[_ ->]|[_ ->]])]; [done|..];
    unfold pushed_once; simpl.
  - split.
    + apply NoDup_app. split_and!; [done| |apply NoDup_singleton].
      intros p Hp ->%list_elem_of_singleton.
      apply Forall_forall with (x := tile) in Hrev as (_ & t' & Ht' & Hs'); [|done].
      congruence.
    + apply Forall_app. split.
      * eapply Forall_impl; [done|]. intros p. apply revealed_at_update.
      * apply Forall_singleton. split; [done|]. exists (SetTileState REVEALED t).
        unfold tile_at, tile_update in *. by rewrite list_lookup_alter_eq, Ht.
  - split; [done|]. eapply Forall_impl; [done|]. intros p. apply revealed_at_update.
Qed.

Lemma flood_turn_pushed_once w h front fl :
  front ∈ fl_queue fl -> pushed_once fl -> pushed_once (flood_turn w h front fl).
Proof.
  apply flood_turn_ind.
  - intros fl1 tile Htile _. apply flood_visit_pushed_once.
    by eapply GetTileGrid_nonneg.
  - by intros fl1 _ H.
Qed.

Lemma flood_loop_pushed_once w h fuel fl fl' :
  pushed_once fl -> flood_loop w h fuel fl = Some fl' -> pushed_once fl'.
Proof.
  apply (flood_loop_ind pushed_once). intros. by apply flood_turn_pushed_once.
Qed.

(** *** The tiles *)

Lemma flood_visit_rel w h tiles0 front fl tile :
  tile ∈ GetTileGrid w h (front mod w) (front / w) 1 ->
  front ∈ fl_queue fl ->
  flood_rel w h tiles0 fl -> flood_rel w h tiles0 (flood_visit fl tile).
Proof.
  intros Htile Hfront (Hstep & Hq & Hnear).
  pose proof (GetTileGrid_nonneg _ _ _ _ _ _ Htile) as Hpos.
  assert (forall t, tile_at (fl_tiles fl) tile = Some t ->
            GetTileState t ≠ REVEALED -> GetTileMark t ≠ FLAG ->
            Forall2 reveal_step tiles0
              (tile_update (SetTileState REVEALED) tile (fl_tiles fl))
            /\ near_empty w h tiles0
                 (tile_update (SetTileState REVEALED) tile (fl_tiles fl))
            /\ (GetTileContent t = EMPTY -> empty_at tiles0 tile)) as Hreveal.
  { intros t Ht Hs Hm. split_and!.
    - etrans; [done|]. apply tile_update_rel; [apply _|].
      intros t' Ht'. rewrite Ht in Ht'. injection Ht' as <-.
      unfold reveal_step. simpl. split_and!; [done..|]. by right.
    - intros j t0 t' Hj Ht0 Ht' Hs0 Hs'.
      destruct (decide (j = tile)) as [->|Hne].
      + exists front. split; [|done].
        by apply Forall_forall with (x := front) in Hq.
      + apply (Hnear j t0 t'); try done.
        unfold tile_at, tile_update in *.
        by rewrite list_lookup_alter_ne in Ht' by lia.
    - intros He. split; [done|].
      destruct (Forall2_tile_at _ _ _ _ _ Hstep Ht) as (t0 & Ht0 & Hc & _).
      exists t0. split; [done|congruence]. }
  destruct (flood_visit_cases fl tile)
    as [->|(t & Ht & Hs & Hm & [[He ->]|[He ->]])]; [done|..];
    destruct (Hreveal t Ht Hs Hm) as (H1 & H2 & H3);
    unfold flood_rel; simpl; split_and!; try done.
  apply Forall_app. split; [done|]. apply Forall_singleton. by apply H3.
Qed.

Lemma flood_turn_rel w h tiles0 front fl :
  front ∈ fl_queue fl ->
  flood_rel w h tiles0 fl -> flood_rel w h tiles0 (flood_turn w h front fl).
Proof.
  apply flood_turn_ind.
  - intros fl1 tile. apply flood_visit_rel.
  - intros fl1 _ (H1 & H2 & H3). unfold flood_rel. simpl. split_and!; [done| |done].
    destruct (fl_queue fl1); [done|]. by apply Forall_cons in H2 as [_ ?].
Qed.

Lemma flood_loop_rel w h tiles0 fuel fl fl' :
  flood_rel w h tiles0 fl -> flood_loop w h fuel fl = Some fl' ->
  flood_rel w h tiles0 fl'.
Proof.
  apply (flood_loop_ind (flood_rel w h tiles0)). intros. by apply flood_turn_rel.
Qed.

(** *** The counter *)

Lemma flood_visit_counted fl tile :
  flood_counted fl -> flood_counted (flood_visit fl tile).
Proof.
  intros [Hlen Hc].
  destruct (flood_visit_cases fl tile)
    as [->|(t & Ht & Hs & _ & [[_ ->]|[_ ->]])]; [done|..];
    unfold flood_counted, tile_update, tile_at in *; simpl;
    rewrite length_alter, (count_tiles_alter _ _ _ _ t Ht);
    apply is_revealed_false in Hs; rewrite Hs;
    replace (is_revealed (SetTileState REVEALED t)) with true by done;
    pose proof (count_tiles_bounds is_revealed (fl_tiles fl));
    (split; [done|]); rewrite wrap_small;
    try lia;
    pose proof (count_tiles_bounds is_revealed
                  (alter (SetTileState REVEALED) (Z.to_nat tile) (fl_tiles fl))) as Hb;
    rewrite length_alter, (count_tiles_alter _ _ _ _ t Ht), Hs in Hb;
    replace (is_revealed (SetTileState REVEALED t)) with true in Hb by done; lia.
Qed.

Lemma flood_turn_counted w h front fl :
  front ∈ fl_queue fl -> flood_counted fl -> flood_counted (flood_turn w h front fl).
Proof.
  apply flood_turn_ind.
  - intros fl1 tile _ _. apply flood_visit_counted.
  - by intros fl1 _ H.
Qed.

Lemma flood_loop_counted w h fuel fl fl' :
  flood_counted fl -> flood_loop w h fuel fl = Some fl' -> flood_counted fl'.
Proof.
  apply (flood_loop_ind flood_counted). intros. by apply flood_turn_counted.
Qed.

(** *** The record of pushes *)

Lemma flood_turn_history w h front fl :
  front ∈ fl_queue fl -> pushed_history fl ->
  pushed_history (flood_turn w h front fl).
Proof.
  apply flood_turn_ind.
  - intros fl1 tile _ _ [popped Hp].
    destruct (flood_visit_cases fl1 tile)
      as [->|(t & _ & _ & _ & [[_ ->]|[_ ->]])]; exists popped; simpl; [done| |done].
    by rewrite Hp, app_assoc.
  - intros fl1 _ [popped Hp]. unfold pushed_history. simpl.
    destruct (fl_queue fl1) as [|q rest]; [by exists popped|].
    exists (popped ++ [q]). by rewrite Hp, <- app_assoc.
Qed.

Lemma flood_loop_history w h fuel fl fl' :
  pushed_history fl -> flood_loop w h fuel fl = Some fl' -> pushed_history fl'.
Proof.
  apply (flood_loop_ind pushed_history). intros. by apply flood_turn_history.
Qed.

(** ** Reveal *)

Lemma same_frame_refl s : same_frame s s.
Proof. unfold same_frame. tauto. Qed.

Lemma same_frame_trans s1 s2 s3 :
  same_frame s1 s2 -> same_frame s2 s3 -> same_frame s1 s3.
Proof.
  unfold same_frame. intros (?&?&?&?&?&?&?&?&?&?) (?&?&?&?&?&?&?&?&?&?).
  split_and!; congruence.
Qed.

Lemma empty_at_Forall2 (R : relation MineTile) tiles tiles' q :
  (forall t t', R t t' -> GetTileContent t' = GetTileContent t) ->
  Forall2 R tiles tiles' -> empty_at tiles' q -> empty_at tiles q.
Proof.
  intros HR H (Hq & t' & Ht' & He). split; [done|].
  destruct (Forall2_tile_at _ _ _ _ _ H Ht') as (t & Ht & Hr).
  exists t. split; [done|]. rewrite <- (HR _ _ Hr). done.
Qed.

Lemma reveal_step_content t t' : reveal_step t t' -> GetTileContent t' = GetTileContent t.
Proof. by intros (?&_). Qed.

Lemma reveal_step_mark t t' : reveal_step t t' -> GetTileMark t' = GetTileMark t.
Proof. by intros (_&?&_). Qed.

Lemma reveal_step_revealed t t' :
  reveal_step t t' -> GetTileState t = REVEALED -> GetTileState t' = REVEALED.
Proof. intros (_&_&[H|(?&_)]); congruence. Qed.

(** The seed of the flood is the index of the origin. *)
Lemma seed_index w h x y :
  w * h < UINT_modulus -> 0 <= x < w -> 0 <= y < h ->
  wrap (x + wrap (y * w)) = x + y * w.
Proof.
  intros Ha Hx Hy. destruct (cell_index_bounds w h x y Hx Hy).
  rewrite (wrap_small (y * w)) by lia. apply wrap_small. lia.
Qed.

(** The flood that [SetTileRevealed] starts after it has revealed an
    [EMPTY] origin [t] comes to its end, and what it leaves. *)
Lemma flood_from_origin w h tiles c x y t :
  field_shape w h tiles -> 0 <= x < w -> 0 <= y < h ->
  tile_at tiles (x + y * w) = Some t ->
  GetTileState t ≠ REVEALED -> GetTileMark t ≠ FLAG ->
  GetTileContent t = EMPTY ->
  let tiles1 := tile_update (SetTileState REVEALED) (x + y * w) tiles in
  exists fl,
    flood_loop w h (flood_fuel tiles1)
      (mkFlood tiles1 (wrap (c + 1)) [x + y * w] [x + y * w]) = Some fl
    /\ fl_queue fl = []
    /\ NoDup (fl_pushed fl)
    /\ Forall2 reveal_step tiles (fl_tiles fl)
    /\ revealed_at (fl_tiles fl) (x + y * w)
    /\ reveal_near w h (x + y * w) tiles (fl_tiles fl)
    /\ (c = count_tiles is_revealed tiles ->
        fl_cRevealedTiles fl = count_tiles is_revealed (fl_tiles fl)).
Proof.
  intros (Hw & Hh & Ha & Hlen) Hx Hy Ht Hs Hm He tiles1.
  destruct (cell_index_bounds w h x y Hx Hy) as [Hi0 Hi1].
  set (init := mkFlood tiles1 (wrap (c + 1)) [x + y * w] [x + y * w]).
  assert (tile_at tiles1 (x + y * w) = Some (SetTileState REVEALED t)) as Ht1.
  { subst tiles1. unfold tile_at, tile_update in *.
    by rewrite list_lookup_alter_eq, Ht. }
  assert (Forall2 reveal_step tiles tiles1) as Hstep1.
  { apply tile_update_rel; [apply _|]. intros t' Ht'. rewrite Ht in Ht'.
    injection Ht' as <-. unfold reveal_step. simpl. split_and!; [done..|]. by right. }
  destruct (flood_loop_terminates w h (flood_fuel tiles1) init) as [fl Hfl].
  { unfold flood_measure, flood_fuel, init. simpl.
    pose proof (count_tiles_bounds is_revealed tiles1). lia. }
  exists fl. split; [done|]. split; [by eapply flood_loop_done|].
  assert (pushed_once init) as Hpo.
  { split; simpl; [apply NoDup_singleton|]. apply Forall_singleton.
    split; [lia|]. by exists (SetTileState REVEALED t). }
  assert (flood_rel w h tiles1 init) as Hrel.
  { split_and!; simpl; [reflexivity| |].
    - apply Forall_singleton. split; [lia|]. by exists (SetTileState REVEALED t).
    - intros j t0 t' _ Ht0 Ht'. rewrite Ht0 in Ht'. by injection Ht' as <-. }
  pose proof (flood_loop_pushed_once _ _ _ _ _ Hpo Hfl) as Hpo'.
  destruct (flood_loop_rel _ _ _ _ _ _ Hrel Hfl) as (Hstep & _ & Hnear).
  split; [apply Hpo'|]. split; [by etrans|]. split; [|split].
  - split; [lia|].
    destruct (Forall2_tile_at_l _ _ _ _ _ Hstep Ht1) as (t' & Ht' & Hr).
    exists t'. split; [done|]. by apply (reveal_step_revealed _ _ Hr).
  - intros j t0 t' Hj Ht0 Ht' Hs0 Hs'.
    destruct (decide (j = x + y * w)) as [->|Hne]; [by left|right].
    assert (tile_at tiles1 j = Some t0) as Ht0'.
    { subst tiles1. unfold tile_at, tile_update in *.
      by rewrite list_lookup_alter_ne by lia. }
    destruct (Hnear j t0 t' Hj Ht0' Ht' Hs0 Hs') as (q & Hq & Hin).
    exists q. split; [|done].
    eapply empty_at_Forall2; [apply reveal_step_content|done..].
  - intros Hc. assert (flood_counted init) as Hcnt.
    { unfold flood_counted, init, tiles1, tile_update. simpl.
      rewrite length_alter. split; [lia|].
      unfold tile_at in Ht. rewrite (count_tiles_alter _ _ _ _ t Ht).
      apply is_revealed_false in Hs. rewrite Hs.
      replace (is_revealed (SetTileState REVEALED t)) with true by done.
      pose proof (count_tiles_bounds is_revealed tiles).
      pose proof (count_tiles_bounds is_revealed
                    (alter (SetTileState REVEALED) (Z.to_nat (x + y * w)) tiles)) as Hb.
      rewrite length_alter, (count_tiles_alter _ _ _ _ t Ht), Hs in Hb.
      replace (is_revealed (SetTileState REVEALED t)) with true in Hb by done.
      rewrite wrap_small; lia. }
    by destruct (flood_loop_counted _ _ _ _ _ Hcnt Hfl).
Qed.

Lemma reveal_one_step tiles index t :
  tile_at tiles index = Some t ->
  GetTileState t ≠ REVEALED -> GetTileMark t ≠ FLAG ->
  Forall2 reveal_step tiles (tile_update (SetTileState REVEALED) index tiles).
Proof.
  intros Ht Hs Hm. apply tile_update_rel; [apply _|]. intros t' Ht'.
  rewrite Ht in Ht'. injection Ht' as <-. unfold reveal_step. simpl.
  split_and!; [done..|]. by right.
Qed.

Lemma reveal_one_counted tiles index t c :
  Z.of_nat (length tiles) < UINT_modulus ->
  tile_at tiles index = Some t -> GetTileState t ≠ REVEALED ->
  c = count_tiles is_revealed tiles ->
  wrap (c + 1)
  = count_tiles is_revealed (tile_update (SetTileState REVEALED) index tiles).
Proof.
  intros Hlen Ht Hs ->. unfold tile_at, tile_update in *.
  pose proof (count_tiles_bounds is_revealed tiles).
  pose proof (count_tiles_bounds is_revealed
                (alter (SetTileState REVEALED) (Z.to_nat index) tiles)) as Hb.
  rewrite length_alter in Hb. rewrite (count_tiles_alter _ _ _ _ t Ht) in *.
  apply is_revealed_false in Hs. rewrite Hs in *.
  replace (is_revealed (SetTileState REVEALED t)) with true in * by done.
  rewrite wrap_small; lia.
Qed.

Lemma reveal_one_near w h tiles index :
  0 <= index ->
  reveal_near w h index tiles (tile_update (SetTileState REVEALED) index tiles).
Proof.
  intros Hi j t0 t' Hj Ht0 Ht' Hs0 Hs'.
  destruct (decide (j = index)) as [->|Hne]; [by left|].
  unfold tile_at, tile_update in *.
  rewrite list_lookup_alter_ne in Ht' by lia. congruence.
Qed.

(** What [SetTileRevealed(x, y)] does, at a cell of the field. *)
Lemma SetTileRevealed_spec x y s :
  field_shape (m_width s) (m_height s) (m_aMineTiles s) ->
  in_field (m_width s) (m_height s) (x, y) ->
  reveal_spec x y s (SetTileRevealed x y s).
Proof.
  intros Hshape [Hx Hy]. simpl in Hx, Hy.
  pose proof Hshape as (Hw & Hh & Ha & Hlen).
  destruct (cell_index_bounds _ _ x y Hx Hy) as [Hi0 Hi1].
  unfold SetTileRevealed. rewrite (tile_index_small _ _ x y Ha Hx Hy).
  rewrite (seed_index _ _ x y Ha Hx Hy).
  destruct (lookup_lt_is_Some_2 (m_aMineTiles s) (Z.to_nat (x + y * m_width s)))
    as [t Ht]; [lia|].
  change (tile_at (m_aMineTiles s) (x + y * m_width s) = Some t) in Ht.
  rewrite Ht.
  destruct (decide (GetTileState t ≠ REVEALED ∧ GetTileMark t ≠ FLAG)) as [[Hs Hm]|Hno].
  - destruct (decide (GetTileContent t = MINE)) as [Hmine|Hnomine];
      [|destruct (decide (GetTileContent t = EMPTY)) as [Hempty|Hnum]].
    + split; simpl.
      * by unfold same_frame.
      * by eapply reveal_one_step.
      * apply reveal_one_near. lia.
      * split; [|done]. intros _. right. by exists t.
      * exists (SetTileState REVEALED t). split; [|by left].
        unfold tile_at, tile_update in *. by rewrite list_lookup_alter_eq, Ht.
      * intros Hc. by apply (reveal_one_counted _ _ t); [lia|..].
    + destruct (flood_from_origin _ _ _ (m_cRevealedTiles s) x y t
                  Hshape Hx Hy Ht Hs Hm Hempty)
        as (fl & Hfl & _ & _ & Hstep & Horigin & Hnear & Hcnt).
      rewrite Hfl. split; simpl.
      * by unfold same_frame.
      * done.
      * done.
      * split; [tauto|]. intros [?|(t' & Ht' & _ & _ & Hmine)]; [done|].
        rewrite Ht in Ht'. injection Ht' as <-. congruence.
      * destruct Horigin as (_ & t' & Ht' & Hs'). exists t'. split; [done|by left].
      * done.
    + split; simpl.
      * by unfold same_frame.
      * by eapply reveal_one_step.
      * apply reveal_one_near. lia.
      * split; [tauto|]. intros [?|(t' & Ht' & _ & _ & Hmine)]; [done|].
        rewrite Ht in Ht'. injection Ht' as <-. congruence.
      * exists (SetTileState REVEALED t). split; [|by left].
        unfold tile_at, tile_update in *. by rewrite list_lookup_alter_eq, Ht.
      * intros Hc. by apply (reveal_one_counted _ _ t); [lia|..].
  - split.
    + by unfold same_frame.
    + reflexivity.
    + intros j t0 t' _ Ht0 Ht'. rewrite Ht0 in Ht'. by injection Ht' as <-.
    + split; [tauto|]. intros [?|(t' & Ht' & Hs & Hm & _)]; [done|].
      rewrite Ht in Ht'. injection Ht' as <-. tauto.
    + exists t. split; [done|].
      destruct (decide (GetTileState t = REVEALED)); [by left|].
      destruct (decide (GetTileMark t = FLAG)); [by right|]. tauto.
    + done.
Qed.

(** ** The invariant is kept *)

Lemma is_flagged_true t : is_flagged t = true <-> GetTileMark t = FLAG.
Proof. unfold is_flagged. apply bool_decide_eq_true. Qed.

Lemma is_flagged_false t : is_flagged t = false <-> GetTileMark t ≠ FLAG.
Proof. unfold is_flagged. apply bool_decide_eq_false. Qed.

Lemma is_revealed_state t t' :
  (GetTileState t' = REVEALED <-> GetTileState t = REVEALED) ->
  is_revealed t = is_revealed t'.
Proof.
  intros H. destruct (is_revealed t') eqn:E.
  - apply is_revealed_true. apply H. by apply is_revealed_true.
  - apply is_revealed_false. apply is_revealed_false in E. tauto.
Qed.

Lemma is_flagged_mark t t' :
  (GetTileMark t' = FLAG <-> GetTileMark t = FLAG) -> is_flagged t = is_flagged t'.
Proof.
  intros H. destruct (is_flagged t') eqn:E.
  - apply is_flagged_true. apply H. by apply is_flagged_true.
  - apply is_flagged_false. apply is_flagged_false in E. tauto.
Qed.

Lemma count_tiles_mono (R : relation MineTile) P tiles tiles' :
  (forall t t', R t t' -> P t = true -> P t' = true) ->
  Forall2 R tiles tiles' -> count_tiles P tiles <= count_tiles P tiles'.
Proof.
  intros HR. induction 1 as [|t t' ts ts' Ht _ IH]; simpl; [done|].
  specialize (HR _ _ Ht). destruct (P t); [rewrite HR by done|destruct (P t')]; lia.
Qed.

(** Properties of the whole array that follow tile by tile. *)
Lemma Forall_Forall2 (R : relation MineTile) (Q : MineTile -> Prop) tiles tiles' :
  (forall t t', R t t' -> Q t -> Q t') ->
  Forall2 R tiles tiles' -> Forall Q tiles -> Forall Q tiles'.
Proof.
  intros HR. induction 1 as [|t t' ts ts' Ht _ IH]; [done|].
  intros [? ?]%Forall_cons. constructor; eauto.
Qed.

Lemma Exists_Forall2 (R : relation MineTile) (Q : MineTile -> Prop) tiles tiles' :
  (forall t t', R t t' -> Q t -> Q t') ->
  Forall2 R tiles tiles' -> Exists Q tiles -> Exists Q tiles'.
Proof.
  intros HR. induction 1 as [|t t' ts ts' Ht _ IH]; [done|].
  intros [?|?]%Exists_cons; [left|right]; eauto.
Qed.

Lemma Exists_Forall2_r (R : relation MineTile) (Q : MineTile -> Prop) tiles tiles' :
  (forall t t', R t t' -> Q t' -> Q t) ->
  Forall2 R tiles tiles' -> Exists Q tiles' -> Exists Q tiles.
Proof.
  intros HR. induction 1 as [|t t' ts ts' Ht _ IH]; [done|].
  intros [?|?]%Exists_cons; [left|right]; eauto.
Qed.

Lemma numbers_ok_Forall2 (R : relation MineTile) w h tiles tiles' :
  (forall t t', R t t' -> GetTileContent t' = GetTileContent t) ->
  Forall2 R tiles tiles' -> numbers_ok w h tiles -> numbers_ok w h tiles'.
Proof.
  intros HR H Hok i t' Hi Ht' He j u' Hj Hu'.
  destruct (Forall2_tile_at _ _ _ _ _ H Ht') as (t & Ht & Hr).
  destruct (Forall2_tile_at _ _ _ _ _ H Hu') as (u & Hu & Hru).
  rewrite (HR _ _ Hru). rewrite (HR _ _ Hr) in He. by eapply Hok.
Qed.

Lemma unmined_Forall2 (R : relation MineTile) tiles tiles' :
  (forall t t', R t t' -> GetTileContent t' = GetTileContent t) ->
  Forall2 R tiles tiles' -> unmined tiles -> unmined tiles'.
Proof.
  intros HR. apply Forall_Forall2. intros t t' Hr. by rewrite (HR _ _ Hr).
Qed.

Lemma count_mines_Forall2 (R : relation MineTile) tiles tiles' :
  (forall t t', R t t' -> GetTileContent t' = GetTileContent t) ->
  Forall2 R tiles tiles' ->
  count_tiles is_mine tiles' = count_tiles is_mine tiles.
Proof.
  intros HR H. symmetry. apply (count_tiles_Forall2 R); [|done].
  intros t t' Hr. unfold is_mine. by rewrite (HR _ _ Hr).
Qed.

(** *** Previews *)

Lemma field_ok_preview w h n m c f lost tiles tiles' :
  Forall2 preview_step tiles tiles' ->
  field_ok w h n m c f lost tiles -> field_ok w h n m c f lost tiles'.
Proof.
  intros H Hok. field_ok_names Hok.
  split; try done.
  - by rewrite <- (Forall2_length _ _ _ H).
  - rewrite ok_revealed. apply (count_tiles_Forall2 preview_step); [|done].
    intros t t' (_&_&Hs&_). by apply is_revealed_state.
  - rewrite ok_flagged. apply (count_tiles_Forall2 preview_step); [|done].
    intros t t' (_&Hm&_). apply is_flagged_mark. by rewrite Hm.
  - eapply Forall_Forall2; [|exact H|done].
    intros t t' (_&Hm&_&Hh) Hf. unfold flag_hidden in *. rewrite Hm.
    intros Hflag. by apply Hh; [|apply Hf].
  - rewrite ok_lost. split.
    + apply (Exists_Forall2 preview_step); [|done].
      intros t t' (Hc&_&Hs&_) [? ?]. split; [tauto|congruence].
    + apply (Exists_Forall2_r preview_step); [|done].
      intros t t' (Hc&_&Hs&_) [? ?]. split; [tauto|congruence].
  - eapply numbers_ok_Forall2; [|done..]. by intros t t' (?&_).
Qed.

Lemma unmined_preview tiles tiles' :
  Forall2 preview_step tiles tiles' -> unmined tiles -> unmined tiles'.
Proof. apply unmined_Forall2. by intros t t' (?&_). Qed.

Lemma press_tiles_step grid tiles :
  Forall2 preview_step tiles (press_tiles grid tiles).
Proof.
  unfold press_tiles. apply foldl_rel; [apply _|]. intros ts tile.
  destruct (tile_at ts tile) as [t|] eqn:E; [|reflexivity].
  destruct (decide (GetTileState t = HIDDEN ∧ GetTileMark t ≠ FLAG)) as [[Hs Hm]|_];
    [|reflexivity].
  apply tile_update_rel; [apply _|]. intros t' Ht'. rewrite E in Ht'.
  injection Ht' as <-. unfold preview_step. simpl. rewrite Hs.
  split_and!; try done.
Qed.

Lemma release_tiles_step grid tiles :
  Forall2 preview_step tiles (release_tiles grid tiles).
Proof.
  unfold release_tiles. apply foldl_rel; [apply _|]. intros ts tile.
  destruct (tile_at ts tile) as [t|] eqn:E; [|reflexivity].
  destruct (decide (GetTileState t = CLICKED)) as [Hs|_]; [|reflexivity].
  apply tile_update_rel; [apply _|]. intros t' Ht'. rewrite E in Ht'.
  injection Ht' as <-. unfold preview_step. simpl. rewrite Hs.
  split_and!; try done.
Qed.

Lemma press_one_step index tiles t :
  tile_at tiles index = Some t ->
  GetTileState t = HIDDEN -> GetTileMark t ≠ FLAG ->
  Forall2 preview_step tiles (tile_update (SetTileState CLICKED) index tiles).
Proof.
  intros E Hs Hm. apply tile_update_rel; [apply _|]. intros t' Ht'.
  rewrite E in Ht'. injection Ht' as <-. unfold preview_step. simpl. rewrite Hs.
  split_and!; try done.
Qed.

(** *** Reveal *)

Lemma field_ok_shape w h n m c f lost tiles :
  field_ok w h n m c f lost tiles -> field_shape w h tiles.
Proof. intros Hok. field_ok_names Hok. by split_and!. Qed.

Lemma revealed_mine_persists tiles tiles' :
  Forall2 reveal_step tiles tiles' ->
  Exists revealed_mine tiles -> Exists revealed_mine tiles'.
Proof.
  apply Exists_Forall2. intros t t' Hr [Hs Hc]. split.
  - by apply (reveal_step_revealed _ _ Hr).
  - by rewrite (reveal_step_content _ _ Hr).
Qed.

Lemma field_ok_reveal x y s s' :
  field_ok (m_width s) (m_height s) (m_cTiles s) (m_cMines s)
    (m_cRevealedTiles s) (m_cFlaggedTiles s) (m_bGameLost s) (m_aMineTiles s) ->
  in_field (m_width s) (m_height s) (x, y) ->
  reveal_spec x y s s' ->
  field_ok (m_width s') (m_height s') (m_cTiles s') (m_cMines s')
    (m_cRevealedTiles s') (m_cFlaggedTiles s') (m_bGameLost s') (m_aMineTiles s').
Proof.
  intros Hok [Hx Hy] Hspec. reveal_spec_names Hspec. simpl in Hx, Hy.
  pose proof Hok as Hok'. field_ok_names Hok'.
  destruct rs_frame as (->&->&->&->&->&_).
  destruct (cell_index_bounds _ _ x y Hx Hy) as [Hi0 Hi1].
  split; try done.
  - by rewrite <- (Forall2_length _ _ _ rs_step).
  - by apply rs_counted.
  - rewrite ok_flagged. apply (count_tiles_Forall2 reveal_step); [|done].
    intros t t' Hr. apply is_flagged_mark. by rewrite (reveal_step_mark _ _ Hr).
  - eapply Forall_Forall2; [|exact rs_step|done].
    intros t t' (_&Hm&Hs) Hf. unfold flag_hidden in *. rewrite Hm. intros Hflag.
    destruct Hs as [->|(_&?&_)]; [by apply Hf|done].
  - rewrite rs_lost, ok_lost. split.
    + intros [Hex|(t & Ht & Hs & Hm & Hmine)].
      * by eapply revealed_mine_persists.
      * destruct rs_origin as (t' & Ht' & Hor).
        apply Exists_exists. exists t'. split.
        { unfold tile_at in Ht'. by eapply list_elem_of_lookup_2. }
        destruct (Forall2_tile_at _ _ _ _ _ rs_step Ht') as (t0 & Ht0 & Hr).
        rewrite Ht in Ht0. injection Ht0 as <-.
        split; [|by rewrite (reveal_step_content _ _ Hr)].
        destruct Hor as [?|Hflag]; [done|].
        by rewrite (reveal_step_mark _ _ Hr) in Hflag.
    + intros (t' & (j & Ht')%list_elem_of_lookup_1 & [Hs' Hmine'])%Exists_exists.
      assert (tile_at (m_aMineTiles s') (Z.of_nat j) = Some t') as Hat'
        by (unfold tile_at; by rewrite Nat2Z.id).
      destruct (Forall2_tile_at _ _ _ _ _ rs_step Hat') as (t0 & Ht0 & Hr).
      destruct (decide (GetTileState t0 = REVEALED)) as [Hs0|Hs0].
      * left. apply Exists_exists. exists t0. split.
        { unfold tile_at in Ht0. by eapply list_elem_of_lookup_2. }
        split; [done|]. by rewrite <- (reveal_step_content _ _ Hr).
      * destruct (rs_near (Z.of_nat j) t0 t' ltac:(lia) Ht0 Hat' Hs0 Hs')
          as [Hj|(q & (Hq & tq & Htq & Heq) & Hin)].
        -- right. exists t0. rewrite <- Hj. split_and!; [done..| |].
           ++ destruct Hr as (_&_&[Hsame|(_&?&_)]); [congruence|done].
           ++ by rewrite <- (reveal_step_content _ _ Hr).
        -- exfalso. apply (ok_numbers q tq Hq Htq Heq (Z.of_nat j) t0 Hin Ht0).
           by rewrite <- (reveal_step_content _ _ Hr).
  - eapply numbers_ok_Forall2; [|done..]. apply reveal_step_content.
Qed.

Lemma revealed_count_mono x y s s' :
  reveal_spec x y s s' ->
  m_cRevealedTiles s = count_tiles is_revealed (m_aMineTiles s) ->
  m_cRevealedTiles s <= m_cRevealedTiles s'.
Proof.
  intros Hspec Hc. reveal_spec_names Hspec. rewrite (rs_counted Hc), Hc.
  apply (count_tiles_mono reveal_step); [|done].
  intros t t' Hr Ht. apply is_revealed_true. apply is_revealed_true in Ht.
  by apply (reveal_step_revealed _ _ Hr).
Qed.

(** A reveal on a field that already has a revealed tile. *)
Lemma Inv_SetTileRevealed x y s :
  Inv s -> 0 < m_cRevealedTiles s ->
  in_field (m_width s) (m_height s) (x, y) ->
  Inv (SetTileRevealed x y s) /\ 0 < m_cRevealedTiles (SetTileRevealed x y s).
Proof.
  intros (Hok & Hun & Hmines) Hpos Hin.
  pose proof (SetTileRevealed_spec x y s (field_ok_shape _ _ _ _ _ _ _ _ Hok) Hin)
    as Hspec.
  pose proof Hok as Hok'. field_ok_names Hok'.
  pose proof (revealed_count_mono x y s _ Hspec ok_revealed) as Hmono.
  split; [|lia]. split_and!.
  - by eapply field_ok_reveal.
  - intros Hz. lia.
  - reveal_spec_names Hspec. destruct rs_frame as (_ & _ & En & Em & _).
    rewrite En, Em. intros _ Hlt.
    rewrite (count_mines_Forall2 reveal_step _ _ reveal_step_content rs_step).
    by apply Hmines.
Qed.

Lemma SetTileRevealed_frame x y s :
  field_shape (m_width s) (m_height s) (m_aMineTiles s) ->
  in_field (m_width s) (m_height s) (x, y) ->
  same_frame s (SetTileRevealed x y s).
Proof. intros H1 H2. by destruct (SetTileRevealed_spec x y s H1 H2). Qed.

(** The block of [EndChord], revealed tile by tile. *)
Lemma Inv_reveal_tiles grid s :
  Inv s -> 0 < m_cRevealedTiles s ->
  (forall tile, tile ∈ grid -> 0 <= tile < m_width s * m_height s) ->
  Inv (reveal_tiles grid s) /\ same_frame s (reveal_tiles grid s).
Proof.
  unfold reveal_tiles. revert s.
  induction grid as [|tile grid IH]; intros s Hinv Hpos Hgrid; simpl.
  - split; [done|apply same_frame_refl].
  - pose proof Hinv as [Hok _]. pose proof Hok as Hok'. field_ok_names Hok'.
    destruct (index_cell (m_width s) (m_height s) tile) as (Hx & Hy & _);
      [apply Hgrid; by left|done|].
    assert (in_field (m_width s) (m_height s)
              (tile mod m_width s, tile / m_width s)) as Hin by done.
    pose proof (SetTileRevealed_frame _ _ s
                  (field_ok_shape _ _ _ _ _ _ _ _ Hok) Hin) as Hfr.
    destruct (Inv_SetTileRevealed _ _ s Hinv Hpos Hin) as [Hinv1 Hpos1].
    destruct (IH (SetTileRevealed (tile mod m_width s) (tile / m_width s) s))
      as [H1 H2]; [done|done| |].
    + destruct Hfr as (->&->&_). intros t Ht. apply Hgrid. by right.
    + split; [done|]. by eapply same_frame_trans.
Qed.

(** *** Mine generation *)

Lemma no_revealed_tile tiles :
  count_tiles is_revealed tiles = 0 ->
  Forall (fun t => GetTileState t ≠ REVEALED) tiles.
Proof.
  intros Hz. apply Forall_forall. intros t Ht Hs.
  assert (Exists (fun t => is_revealed t = true) tiles) as Hex.
  { apply Exists_exists. exists t. split; [done|]. by apply is_revealed_true. }
  apply count_tiles_pos_Exists in Hex. lia.
Qed.

Lemma GenerateMines_step rng x y s :
  Forall2 content_step (m_aMineTiles s) (m_aMineTiles (GenerateMines rng x y s)).
Proof.
  unfold GenerateMines. simpl. etrans; [apply place_mines_step|].
  eapply Forall2_impl; [apply GenerateNumbers_step|].
  apply numbers_step_content_step.
Qed.

Lemma field_ok_GenerateMines rng x y s :
  field_ok (m_width s) (m_height s) (m_cTiles s) (m_cMines s)
    (m_cRevealedTiles s) (m_cFlaggedTiles s) (m_bGameLost s) (m_aMineTiles s) ->
  m_cRevealedTiles s = 0 ->
  field_ok (m_width s) (m_height s) (m_cTiles s) (m_cMines s)
    (m_cRevealedTiles s) (m_cFlaggedTiles s) (m_bGameLost s)
    (m_aMineTiles (GenerateMines rng x y s)).
Proof.
  intros Hok Hz. pose proof Hok as Hok'. field_ok_names Hok'.
  pose proof (GenerateMines_step rng x y s) as Hstep.
  assert (Forall (fun t => GetTileState t ≠ REVEALED) (m_aMineTiles s)) as Hnone
    by (apply no_revealed_tile; congruence).
  split; try done.
  - by rewrite <- (Forall2_length _ _ _ Hstep).
  - rewrite ok_revealed. apply (count_tiles_Forall2 content_step); [|done].
    intros t t' [Hs _]. apply is_revealed_state. by rewrite Hs.
  - rewrite ok_flagged. apply (count_tiles_Forall2 content_step); [|done].
    intros t t' [_ Hm]. apply is_flagged_mark. by rewrite Hm.
  - eapply Forall_Forall2; [|exact Hstep|done].
    intros t t' [Hs Hm]. unfold flag_hidden. by rewrite Hs, Hm.
  - split.
    + intros Hl. apply ok_lost in Hl. exfalso.
      apply Exists_exists in Hl as (t & Ht & Hs & _).
      by apply (proj1 (Forall_forall _ _) Hnone t Ht).
    + intros Hex. exfalso.
      assert (Forall (fun t => GetTileState t ≠ REVEALED)
                (m_aMineTiles (GenerateMines rng x y s))) as Hnone'.
      { eapply Forall_Forall2; [|exact Hstep|done].
        intros t t' [Hs _]. by rewrite Hs. }
      apply Exists_exists in Hex as (t & Ht & Hs & _).
      by apply (proj1 (Forall_forall _ _) Hnone' t Ht).
  - unfold GenerateMines. simpl. apply GenerateNumbers_numbers_ok; try done.
    by rewrite <- (Forall2_length _ _ _ (place_mines_step _ _)).
Qed.

(** *** Marks *)

Lemma field_ok_mark w h n m c f lost tiles index t mark :
  field_ok w h n m c f lost tiles ->
  tile_at tiles index = Some t -> GetTileState t = HIDDEN ->
  field_ok w h n m c
    (f - (if is_flagged t then 1 else 0)
       + (if bool_decide (mark = FLAG) then 1 else 0))
    lost (tile_update (SetTileMark mark) index tiles).
Proof.
  intros Hok Ht Hs. field_ok_names Hok.
  assert (Forall2 mark_step tiles (tile_update (SetTileMark mark) index tiles)) as Hstep.
  { apply tile_update_rel; [by intros ?|]. by intros u _. }
  split; try done.
  - by rewrite <- (Forall2_length _ _ _ Hstep).
  - rewrite ok_revealed. apply (count_tiles_Forall2 mark_step); [|done].
    intros u u' [_ Hu]. apply is_revealed_state. by rewrite Hu.
  - unfold tile_update, tile_at in *. rewrite (count_tiles_alter _ _ _ _ t Ht).
    by rewrite ok_flagged.
  - unfold tile_update. apply Forall_alter; [done|].
    intros u Hu _. unfold tile_at in Ht. rewrite Ht in Hu. injection Hu as <-.
    by intros _.
  - rewrite ok_lost. split.
    + apply (Exists_Forall2 mark_step); [|done].
      intros u u' [Hc Hu] [? ?]. split; congruence.
    + apply (Exists_Forall2_r mark_step); [|done].
      intros u u' [Hc Hu] [? ?]. split; congruence.
  - eapply numbers_ok_Forall2; [|done..]. by intros u u' [? _].
Qed.

Lemma unmined_mark tiles index mark :
  unmined tiles -> unmined (tile_update (SetTileMark mark) index tiles).
Proof. intros H. apply Forall_alter; [done|]. by intros u _ Hu. Qed.

Lemma flagged_count_pos tiles index t :
  tile_at tiles index = Some t -> GetTileMark t = FLAG ->
  0 < count_tiles is_flagged tiles.
Proof.
  intros Ht Hm. apply count_tiles_pos_Exists, Exists_exists. exists t.
  split; [by eapply list_elem_of_lookup_2|]. by apply is_flagged_true.
Qed.

Lemma Inv_cycle_mark index t s :
  Inv s -> tile_at (m_aMineTiles s) index = Some t -> GetTileState t = HIDDEN ->
  Inv (cycle_mark index t s).
Proof.
  intros (Hok & Hun & Hmines) Ht Hs. pose proof Hok as Hok'. field_ok_names Hok'.
  pose proof (count_tiles_bounds is_flagged (m_aMineTiles s)) as Hb.
  assert (forall mark,
            mines_counted (m_cTiles s) (m_cMines s) (m_cRevealedTiles s)
              (tile_update (SetTileMark mark) index (m_aMineTiles s))) as Hkeep.
  { intros mark Hpos Hlt.
    rewrite (count_mines_Forall2 mark_step (m_aMineTiles s)); [by apply Hmines| |].
    - by intros u u' [? _].
    - apply tile_update_rel; [by intros ?|]. by intros u _. }
  unfold cycle_mark, Inv.
  destruct (GetTileMark t) eqn:Hm; simpl;
    (split; [|split; [intros; by apply unmined_mark, Hun|by apply Hkeep]]).
  - pose proof (field_ok_mark _ _ _ _ _ _ _ _ _ _ FLAG Hok Ht Hs) as H.
    rewrite (proj2 (is_flagged_false t)) in H by congruence. simpl in H.
    pose proof H as [_ _ _ _ _ _ _ Hf _ _ _].
    pose proof (count_tiles_bounds is_flagged
                  (tile_update (SetTileMark FLAG) index (m_aMineTiles s))) as Hb'.
    unfold tile_update in Hb', Hf. rewrite length_alter in Hb'.
    rewrite wrap_small by lia.
    replace (m_cFlaggedTiles s + 1) with (m_cFlaggedTiles s - 0 + 1) by lia. done.
  - pose proof (flagged_count_pos _ _ _ Ht Hm).
    rewrite wrap_small by lia.
    destruct (m_bQuestionMarksEnabled s).
    + pose proof (field_ok_mark _ _ _ _ _ _ _ _ _ _ QUESTION_MARK Hok Ht Hs) as H'.
      rewrite (proj2 (is_flagged_true t)) in H' by done. simpl in H'.
      by rewrite Z.add_0_r in H'.
    + pose proof (field_ok_mark _ _ _ _ _ _ _ _ _ _ NONE Hok Ht Hs) as H'.
      rewrite (proj2 (is_flagged_true t)) in H' by done. simpl in H'.
      by rewrite Z.add_0_r in H'.
  - pose proof (field_ok_mark _ _ _ _ _ _ _ _ _ _ NONE Hok Ht Hs) as H'.
    rewrite (proj2 (is_flagged_false t)) in H' by congruence. simpl in H'.
    by rewrite Z.add_0_r, Z.sub_0_r in H'.
Qed.

(** *** The question-mark sweep *)

Lemma field_ok_sweep w h n m c f lost tiles tiles' :
  Forall2 sweep_step tiles tiles' ->
  field_ok w h n m c f lost tiles -> field_ok w h n m c f lost tiles'.
Proof.
  intros H Hok. field_ok_names Hok. split; try done.
  - by rewrite <- (Forall2_length _ _ _ H).
  - rewrite ok_revealed. apply (count_tiles_Forall2 sweep_step); [|done].
    intros t t' (_&Hs&_). apply is_revealed_state. by rewrite Hs.
  - rewrite ok_flagged. apply (count_tiles_Forall2 sweep_step); [|done].
    intros t t' (_&_&[Hm|[Hm Hm']]); apply is_flagged_mark; rewrite ?Hm, ?Hm'; done.
  - eapply Forall_Forall2; [|exact H|done].
    intros t t' (_&Hs&Hm) Hf. unfold flag_hidden in *. rewrite Hs.
    intros Hflag. apply Hf. destruct Hm as [<-|[_ ?]]; congruence.
  - rewrite ok_lost. split.
    + apply (Exists_Forall2 sweep_step); [|done].
      intros t t' (Hc&Hs&_) [? ?]. split; congruence.
    + apply (Exists_Forall2_r sweep_step); [|done].
      intros t t' (Hc&Hs&_) [? ?]. split; congruence.
  - eapply numbers_ok_Forall2; [|done..]. by intros t t' (?&_).
Qed.

Lemma Inv_ToggleQuestionMarkUsage s : Inv s -> Inv (ToggleQuestionMarkUsage s).
Proof.
  intros (Hok & Hun & Hmines). unfold ToggleQuestionMarkUsage. simpl.
  destruct (negb (negb (m_bQuestionMarksEnabled s))); [|done].
  match goal with
  | |- Inv (set_aMineTiles ?ts _) =>
      assert (Forall2 sweep_step (m_aMineTiles s) ts) as Hstep
  end.
  { apply for_each_xy_rel; [apply _|]. intros x y ts.
    destruct (tile_at ts (tile_index (m_width s) x y)) as [t|] eqn:E; [|reflexivity].
    destruct (decide (GetTileMark t = QUESTION_MARK)) as [Hm|_]; [|reflexivity].
    apply tile_update_rel; [apply _|]. intros t' Ht'. rewrite E in Ht'.
    injection Ht' as <-. unfold sweep_step. simpl. split_and!; [done..|]. by right. }
  split_and!; simpl.
  - by eapply field_ok_sweep.
  - intros Hz. eapply unmined_Forall2; [|done|by apply Hun]. by intros t t' (?&_).
  - intros Hpos Hlt.
    rewrite (count_mines_Forall2 sweep_step (m_aMineTiles s)); [by apply Hmines| |done].
    by intros t t' (?&_).
Qed.

(** *** A fresh field *)

Lemma field_ok_fresh w h m :
  0 <= w -> 0 <= h -> w * h < UINT_modulus -> 0 <= m <= w * h ->
  field_ok w h (w * h) m 0 0 false (fresh_tiles (w * h)).
Proof.
  intros Hw Hh Ha Hm. unfold fresh_tiles. split; try done.
  - rewrite length_replicate. nia.
  - by rewrite count_tiles_replicate.
  - by rewrite count_tiles_replicate.
  - by apply Forall_replicate.
  - split; [done|]. intros (t & Ht%elem_of_replicate & Hs & _)%Exists_exists.
    destruct Ht as [-> _]. done.
  - intros i t _ _ _ j t' _ Ht'. unfold tile_at in Ht'.
    apply lookup_replicate in Ht' as [-> _]. done.
Qed.

Lemma Inv_fresh w h m s :
  0 <= w -> 0 <= h -> w * h < UINT_modulus -> 0 <= m <= w * h ->
  m_width s = w -> m_height s = h -> m_cTiles s = w * h -> m_cMines s = m ->
  m_cRevealedTiles s = 0 -> m_cFlaggedTiles s = 0 -> m_bGameLost s = false ->
  m_aMineTiles s = fresh_tiles (w * h) ->
  Inv s.
Proof.
  unfold Inv. intros Hw Hh Ha Hm -> -> E1 E2 E3 E4 E5 E6.
  rewrite E1, E2, E3, E4, E5, E6. split_and!; [by apply field_ok_fresh| |].
  - intros _. apply unmined_fresh.
  - intros Hpos. lia.
Qed.

Lemma clamp_mines cTiles cMines :
  0 <= cTiles -> 0 <= cMines ->
  0 <= (if cTiles <? cMines then cTiles else cMines) <= cTiles.
Proof. intros. destruct (Z.ltb_spec cTiles cMines); lia. Qed.

Lemma Inv_new w h m b1 b2 pos :
  valid_configuration w h m -> Inv (MinefieldWindow_new w h m b1 b2 pos).
Proof.
  intros ([Hw _] & [Hh _] & [Hm _] & Ha). unfold MinefieldWindow_new.
  assert (wrap (w * h) = w * h) as -> by (apply wrap_small; nia).
  apply (Inv_fresh w h (if w * h <? m then w * h else m)); try done.
  apply clamp_mines; nia.
Qed.

Lemma Inv_ResetGame s : Inv s -> Inv (ResetGame s).
Proof.
  intros [Hok _]. field_ok_names Hok. apply (Inv_fresh (m_width s) (m_height s) (m_cMines s));
    try done; simpl; [lia|by rewrite ok_cTiles].
Qed.

Lemma Inv_Resize w h m s :
  valid_configuration w h m -> Inv s -> Inv (Resize w h m s).2.
Proof.
  intros ([Hw _] & [Hh _] & [Hm _] & Ha) Hinv. unfold Resize.
  destruct (negb (m_width s =? w) || negb (m_height s =? h)
            || negb (m_cMines s =? m)); [|done].
  simpl. assert (wrap (w * h) = w * h) as -> by (apply wrap_small; nia).
  apply (Inv_fresh w h (if w * h <? m then w * h else m)); try done.
  apply clamp_mines; nia.
Qed.

(** *** The mines of [GenerateMines] *)

Lemma exclusion_radius_cases n m :
  0 <= m <= n -> n < UINT_modulus ->
  (exclusion_radius n m = 0 <-> n - m < 9)
  /\ (exclusion_radius n m = 1 <-> 9 <= n - m).
Proof.
  intros Hm Hn. unfold exclusion_radius. rewrite wrap_small by lia.
  destruct (Z.ltb_spec (n - m) 9); lia.
Qed.

(** The candidates of [GenerateMines] at a cell of the field: the indices
    of the field outside the excluded block, each once. *)
Lemma GenerateMines_candidates w h n m tiles x y :
  field_shape w h tiles -> n = w * h -> 0 <= m <= n ->
  0 <= x < w -> 0 <= y < h ->
  let excluded := GetTileGrid w h x y (exclusion_radius n m) in
  let candidates := tiles_to_toggle (length tiles) 0 excluded in
  (forall i, i ∈ candidates <-> 0 <= i < w * h /\ i ∉ excluded)
  /\ NoDup candidates
  /\ Z.of_nat (length candidates) = w * h - Z.of_nat (length excluded)
  /\ (m < n -> m <= Z.of_nat (length candidates)).
Proof.
  intros (Hw & Hh & Ha & Hlen) -> Hm Hx Hy. cbv zeta.
  set (excluded := GetTileGrid w h x y (exclusion_radius (w * h) m)).
  destruct (exclusion_radius_cases (w * h) m Hm Ha) as [H0 H1].
  assert (exclusion_radius (w * h) m = 0 \/ exclusion_radius (w * h) m = 1) as Hr.
  { unfold exclusion_radius. destruct (_ <? _); [by left|by right]. }
  destruct (tiles_to_toggle_spec (length tiles) 0 excluded) as (Hin & Hnd & Hl).
  - done.
  - lia.
  - by apply GetTileGrid_increasing.
  - apply Forall_forall. intros e He.
    pose proof (GetTileGrid_range _ _ _ _ _ _ Hw Hh Ha He). lia.
  - split_and!; [|done|lia|].
    + intros i. rewrite Hin. intuition lia.
    + intros Hlt. rewrite Hl, Hlen. subst excluded. destruct Hr as [Hr|Hr]; rewrite Hr.
      * rewrite GetTileGrid_0_inside by done. simpl. lia.
      * pose proof (GetTileGrid_1_length w h x y). lia.
Qed.

(** On a field without mines, the mines after [GenerateMines] are the
    sampled candidates. *)
Lemma GenerateMines_mines rng x y s :
  Inv s -> m_cRevealedTiles s = 0 ->
  in_field (m_width s) (m_height s) (x, y) ->
  SampleVector_contract rng ->
  let excluded :=
    GetTileGrid (m_width s) (m_height s) x y
      (exclusion_radius (m_cTiles s) (m_cMines s)) in
  let sample :=
    rng (tiles_to_toggle (length (m_aMineTiles s)) 0 excluded) (m_cMines s) in
  (forall j, 0 <= j ->
     mine_at (m_aMineTiles (GenerateMines rng x y s)) j = true ->
     j ∈ sample /\ j ∉ excluded)
  /\ (m_cMines s < m_cTiles s ->
      count_tiles is_mine (m_aMineTiles (GenerateMines rng x y s))
      = Z.of_nat (length sample))
  /\ (m_cMines s < m_cTiles s -> Z.of_nat (length sample) = m_cMines s).
Proof.
  intros (Hok & Hun & _) Hz [Hx Hy] Hrng. cbv zeta. simpl in Hx, Hy.
  specialize (Hun Hz). pose proof Hok as Hok'. field_ok_names Hok'.
  destruct (GenerateMines_candidates _ _ _ _ _ x y
              (field_ok_shape _ _ _ _ _ _ _ _ Hok) ok_cTiles ok_cMines Hx Hy)
    as (Hcand & Hnd & Hlen & Hmany).
  set (excluded := GetTileGrid (m_width s) (m_height s) x y
                     (exclusion_radius (m_cTiles s) (m_cMines s))) in *.
  set (candidates := tiles_to_toggle (length (m_aMineTiles s)) 0 excluded) in *.
  destruct (Hrng candidates (m_cMines s)) as (Hsub & Hk).
  set (sample := rng candidates (m_cMines s)) in *.
  assert (Forall (fun p => 0 <= p < Z.of_nat (length (m_aMineTiles s))) sample) as Hrange.
  { apply Forall_forall. intros p Hp. apply Hsub, Hcand in Hp. lia. }
  assert (m_aMineTiles (GenerateMines rng x y s)
          = GenerateNumbers (m_width s) (m_height s)
              (place_mines sample (m_aMineTiles s))) as -> by done.
  split_and!.
  - intros j Hj.
    rewrite <- (mine_at_Forall2 _ _ j (GenerateNumbers_step _ _ _)).
    intros Hmine. apply mine_at_place_mines in Hmine as [Hmine|Hin]; [| |done|].
    + by rewrite unmined_mine_at in Hmine.
    + split; [done|]. by apply Hsub, Hcand in Hin as [_ ?].
    + eapply Forall_impl; [done|]. simpl. lia.
  - intros Hlt. destruct Hk as [Hnd' _]; [lia|].
    rewrite <- (count_tiles_Forall2 numbers_step is_mine _ _
                  numbers_step_is_mine (GenerateNumbers_step _ _ _)).
    rewrite count_mines_place_mines; [|by apply Hnd'|done|].
    + by rewrite unmined_count.
    + apply Forall_forall. intros p _. by apply unmined_mine_at.
  - intros Hlt. apply Hk. lia.
Qed.

(** *** The handlers *)

Lemma Inv_set_bChording b s : Inv s -> Inv (set_bChording b s).
Proof. done. Qed.

Lemma Inv_set_bLRHeldAfterChord b s : Inv s -> Inv (set_bLRHeldAfterChord b s).
Proof. done. Qed.

Lemma Inv_set_bMouseTracking b s : Inv s -> Inv (set_bMouseTracking b s).
Proof. done. Qed.

Lemma Inv_set_lastGridPos pos s : Inv s -> Inv (set_lastGridPos pos s).
Proof. done. Qed.

Lemma Inv_preview tiles' s :
  Inv s -> Forall2 preview_step (m_aMineTiles s) tiles' ->
  Inv (set_aMineTiles tiles' s).
Proof.
  intros (Hok & Hun & Hmines) H. split_and!; simpl.
  - by eapply field_ok_preview.
  - intros Hz. eapply unmined_preview; [done|]. by apply Hun.
  - intros Hpos Hlt.
    rewrite (count_mines_Forall2 preview_step (m_aMineTiles s)); [by apply Hmines| |done].
    by intros t t' (?&_).
Qed.

Lemma Inv_BeginChord x y s : Inv s -> Inv (BeginChord x y s).
Proof.
  intros H. unfold BeginChord. apply Inv_set_bChording, Inv_preview; [done|].
  apply press_tiles_step.
Qed.

Lemma Inv_EndChord x y s : Inv s -> Inv (EndChord x y s).
Proof.
  intros H. unfold EndChord. apply Inv_set_bChording.
  assert (Inv (set_aMineTiles
                 (release_tiles (GetTileGrid (m_width s) (m_height s) x y 1)
                    (m_aMineTiles s)) s)) as Hrelease
    by (apply Inv_preview; [done|apply release_tiles_step]).
  destruct (tile_at (m_aMineTiles s) (tile_index (m_width s) x y)) as [c|] eqn:Hc;
    [|done].
  destruct (decide (GetTileState c = REVEALED)) as [Hs|]; [|done].
  destruct (decide _); [|done].
  destruct H as [Hok ?]. pose proof Hok as Hok'. field_ok_names Hok'.
  apply Inv_reveal_tiles; [done| |].
  - rewrite ok_revealed. apply count_tiles_pos_Exists, Exists_exists. exists c.
    split; [by eapply list_elem_of_lookup_2|]. by apply is_revealed_true.
  - intros tile Ht. by eapply GetTileGrid_range.
Qed.

Lemma Inv_MovePos oldPos newPos r force s : Inv s -> Inv (MovePos oldPos newPos r force s).
Proof.
  intros H. unfold MovePos. destruct (_ || _); [|done].
  apply Inv_preview; [done|]. etrans; [apply release_tiles_step|apply press_tiles_step].
Qed.

Lemma Inv_OnLButtonDown wParam pos s : Inv s -> Inv (OnLButtonDown wParam pos s).
Proof.
  intros H. unfold OnLButtonDown. destruct (_ && _); [|done].
  destruct (held wParam MK_RBUTTON); [by apply Inv_BeginChord|].
  destruct (tile_at _ _) as [t|] eqn:E; [|done].
  destruct (decide _) as [[Hs Hm]|_]; [|done].
  apply Inv_preview; [done|]. by eapply press_one_step.
Qed.

(** Revealing a tile that shows as pressed reveals at least that tile. *)
Lemma field_ok_reveal_clicked x y s t :
  field_ok (m_width s) (m_height s) (m_cTiles s) (m_cMines s)
    (m_cRevealedTiles s) (m_cFlaggedTiles s) (m_bGameLost s) (m_aMineTiles s) ->
  (m_cMines s < m_cTiles s -> count_tiles is_mine (m_aMineTiles s) = m_cMines s) ->
  in_field (m_width s) (m_height s) (x, y) ->
  tile_at (m_aMineTiles s) (x + y * m_width s) = Some t ->
  GetTileState t = CLICKED ->
  Inv (SetTileRevealed x y s).
Proof.
  intros Hok Hmines Hin Ht Hs.
  pose proof (SetTileRevealed_spec x y s
                (field_ok_shape _ _ _ _ _ _ _ _ Hok) Hin) as Hspec.
  pose proof (field_ok_reveal x y s _ Hok Hin Hspec) as Hok2.
  split; [done|]. reveal_spec_names Hspec. split.
  2:{ destruct rs_frame as (_ & _ & En & Em & _). rewrite En, Em. intros _ Hlt.
      rewrite (count_mines_Forall2 reveal_step _ _ reveal_step_content rs_step).
      by apply Hmines. }
  intros Hz. exfalso.
  destruct rs_origin as (t2 & Ht2 & Hor).
  destruct (Forall2_tile_at _ _ _ _ _ rs_step Ht2) as (t1 & Ht1 & Hr).
  rewrite Ht in Ht1. injection Ht1 as <-.
  assert (GetTileState t2 = REVEALED) as Hrev.
  { destruct Hor as [?|Hflag]; [done|].
    rewrite (reveal_step_mark _ _ Hr) in Hflag.
    field_ok_names Hok. apply (proj1 (Forall_forall _ _) ok_flag_hidden t) in Hflag;
      [congruence|]. by eapply list_elem_of_lookup_2. }
  field_ok_names Hok2. rewrite ok_revealed in Hz.
  assert (0 < count_tiles is_revealed (m_aMineTiles (SetTileRevealed x y s))); [|lia].
  apply count_tiles_pos_Exists, Exists_exists. exists t2.
  split; [by eapply list_elem_of_lookup_2|]. by apply is_revealed_true.
Qed.

Lemma Inv_OnLButtonUp rng wParam pos s :
  Inv s -> SampleVector_contract rng ->
  in_field (m_width s) (m_height s) pos ->
  Inv (OnLButtonUp rng wParam pos s).
Proof.
  intros H Hrng Hin. unfold OnLButtonUp. destruct (_ && _ && _).
  - destruct (m_bChording s).
    + by apply Inv_set_bLRHeldAfterChord, Inv_EndChord.
    + destruct (tile_at _ _) as [t|] eqn:E; [|done].
      destruct (decide _) as [Hs|_]; [|done].
      destruct pos as [x y]. simpl in *.
      pose proof H as [Hok _]. pose proof Hok as Hok'. field_ok_names Hok'.
      destruct Hin as [Hx Hy]. simpl in Hx, Hy.
      rewrite (tile_index_small _ _ x y ok_area Hx Hy) in E.
      destruct (Z.eqb_spec (m_cRevealedTiles s) 0) as [Hz|Hnz].
      * destruct (Forall2_tile_at_l _ _ _ _ _ (GenerateMines_step rng x y s) E)
          as (t1 & Ht1 & Hs1 & _).
        destruct (GenerateMines_mines rng x y s H Hz (conj Hx Hy) Hrng)
          as (_ & Hcount & Hlen).
        apply (field_ok_reveal_clicked x y (GenerateMines rng x y s) t1);
          [exact (field_ok_GenerateMines rng x y s Hok Hz)| |done|done|congruence].
        intros Hlt. rewrite Hcount by done. by apply Hlen.
      * apply Inv_SetTileRevealed; [done| |done].
        pose proof (count_tiles_bounds is_revealed (m_aMineTiles s)). lia.
  - destruct (_ && _); [by apply Inv_set_bLRHeldAfterChord|done].
Qed.

Lemma Inv_OnRButtonDown wParam pos s : Inv s -> Inv (OnRButtonDown wParam pos s).
Proof.
  intros H. unfold OnRButtonDown. destruct (_ && _ && _); [|done].
  destruct (held wParam MK_LBUTTON); [by apply Inv_BeginChord|].
  destruct (tile_at _ _) as [t|] eqn:E; [|done].
  destruct (decide _) as [Hs|_]; [|done].
  by apply Inv_cycle_mark.
Qed.

Lemma Inv_OnRButtonUp wParam pos s : Inv s -> Inv (OnRButtonUp wParam pos s).
Proof.
  intros H. unfold OnRButtonUp. destruct (_ && _ && _).
  - destruct (m_bChording s); [|done].
    by apply Inv_set_bLRHeldAfterChord, Inv_EndChord.
  - destruct (_ && _); [by apply Inv_set_bLRHeldAfterChord|done].
Qed.

Lemma Inv_OnMButtonDown wParam pos s : Inv s -> Inv (OnMButtonDown wParam pos s).
Proof.
  intros H. unfold OnMButtonDown. destruct (_ && _); [|done].
  destruct (negb _); [by apply Inv_BeginChord|done].
Qed.

Lemma Inv_OnMButtonUp wParam pos s : Inv s -> Inv (OnMButtonUp wParam pos s).
Proof.
  intros H. unfold OnMButtonUp. destruct (IsGameActive s); [|done].
  destruct (m_bChording s); [|done]. apply Inv_EndChord.
  destruct (_ || _); [by apply Inv_set_bLRHeldAfterChord|done].
Qed.

Lemma Inv_OnMouseMove tracked wParam pos s :
  Inv s -> Inv (OnMouseMove tracked wParam pos s).
Proof.
  intros H. unfold OnMouseMove. destruct (negb (m_bMouseTracking s)).
  - assert (Inv (if tracked then set_bMouseTracking true s else s)) as H'
      by (destruct tracked; done).
    destruct (IsGameActive _); [|done]. apply Inv_set_lastGridPos.
    destruct (_ || _); [|done]. apply Inv_set_bChording.
    destruct (_ || _); by apply Inv_MovePos.
  - destruct (IsGameActive s); [|done]. apply Inv_set_lastGridPos.
    destruct (_ || _); [|done].
    destruct (m_bChording s); [by apply Inv_MovePos|].
    destruct (negb _); [by apply Inv_MovePos|done].
Qed.

Lemma Inv_OnMouseLeave s : Inv s -> Inv (OnMouseLeave s).
Proof.
  intros H. unfold OnMouseLeave.
  apply Inv_set_bMouseTracking, Inv_set_bLRHeldAfterChord.
  destruct (IsGameActive s); [|done].
  apply Inv_preview; [done|apply release_tiles_step].
Qed.

(** Every state of a run satisfies the invariant. *)
Lemma Reachable_Inv s : Reachable s -> Inv s.
Proof.
  induction 1 as [w h m b1 b2 pos Hv|s e _ IH Hok].
  - by apply Inv_new.
  - destruct e; simpl in *.
    + by apply Inv_OnLButtonDown.
    + apply Inv_OnLButtonUp; tauto.
    + by apply Inv_OnRButtonDown.
    + by apply Inv_OnRButtonUp.
    + by apply Inv_OnMButtonDown.
    + by apply Inv_OnMButtonUp.
    + by apply Inv_OnMouseMove.
    + by apply Inv_OnMouseLeave.
    + by apply Inv_Resize.
    + by apply Inv_ToggleQuestionMarkUsage.
    + by apply Inv_ResetGame.
Qed.

(** ** The sample game *)

Lemma first_k_sampler_contract : SampleVector_contract first_k_sampler.
Proof.
  intros candidates k. unfold first_k_sampler. split; [apply subseteq_take|].
  intros Hk. split.
  - intros H. eapply sublist_NoDup; [done|apply sublist_take].
  - rewrite length_take. lia.
Qed.

Lemma game_new_reachable : Reachable game_new.
Proof.
  apply Reachable_new. unfold valid_configuration, is_UINT.
  rewrite UINT_modulus_eq. lia.
Qed.

Lemma game_pressed_reachable : Reachable game_pressed.
Proof.
  apply Reachable_handle; [apply game_new_reachable|].
  simpl. unfold in_field. simpl. lia.
Qed.

Lemma game_opened_reachable : Reachable game_opened.
Proof.
  apply Reachable_handle; [apply game_pressed_reachable|].
  split; [apply first_k_sampler_contract|]. vm_compute. intuition discriminate.
Qed.

Lemma game_flagged_reachable : Reachable game_flagged.
Proof.
  apply Reachable_handle; [apply game_opened_reachable|].
  vm_compute. intuition discriminate.
Qed.

Lemma game_chording_reachable : Reachable game_chording.
Proof.
  apply Reachable_handle; [apply game_flagged_reachable|].
  vm_compute. intuition discriminate.
Qed.

(** ** Game status *)

Lemma Exists_lookup {A} (Q : A -> Prop) (l : list A) :
  Exists Q l <-> exists (i : nat) (a : A), l !! i = Some a /\ Q a.
Proof.
  rewrite Exists_exists. split.
  - intros (a & (i & Hi)%list_elem_of_lookup_1 & Ha). eauto.
  - intros (i & a & Hi & Ha). exists a. split; [|done].
    by eapply list_elem_of_lookup_2.
Qed.

Lemma count_tiles_disjoint (P Q : MineTile -> bool) (tiles : list MineTile) :
  Forall (fun t => ~ (P t = true /\ Q t = true)) tiles ->
  count_tiles P tiles + count_tiles Q tiles <= Z.of_nat (length tiles).
Proof.
  induction 1 as [|t ts Ht _ IH]; simpl; [lia|].
  destruct (P t), (Q t); try lia; by destruct Ht.
Qed.

(** While no mine is revealed the revealed tiles are among the tiles
    without a mine, of which there are [m_cTiles - m_cMines] once the mines
    are placed. *)
Lemma revealed_below_safe (s : MinefieldWindow) :
  Reachable s -> m_cMines s < m_cTiles s -> m_bGameLost s = false ->
  m_cRevealedTiles s <= m_cTiles s - m_cMines s.
Proof.
  intros (Hok & _ & Hmines)%Reachable_Inv Hlt Hlost. field_ok_names Hok.
  pose proof (count_tiles_bounds is_revealed (m_aMineTiles s)) as Hb.
  destruct (decide (m_cRevealedTiles s = 0)) as [->|Hpos]; [lia|].
  pose proof (count_tiles_disjoint is_revealed is_mine (m_aMineTiles s)) as Hd.
  rewrite <- ok_revealed, Hmines in Hd by lia.
  rewrite ok_cTiles, <- ok_length. cut (m_cRevealedTiles s + m_cMines s
    <= Z.of_nat (length (m_aMineTiles s))); [lia|].
  apply Hd. apply Forall_forall. intros t Ht [Hr Hm].
  apply is_revealed_true in Hr. apply is_mine_true in Hm.
  assert (m_bGameLost s = true) as Hl; [|congruence].
  apply ok_lost, Exists_exists. by exists t.
Qed.

(** The sum of [IsGameWon] wraps in no state that the comparison reads:
    not on a field with a tile to spare for the first click, and not on a
    field below 2^31 tiles. *)
Lemma won_sum_small (s : MinefieldWindow) :
  Reachable s ->
  m_bGameLost s = false /\ m_cMines s < m_cTiles s
  \/ 2 * m_cTiles s < UINT_modulus ->
  m_cMines s + m_cRevealedTiles s < UINT_modulus.
Proof.
  intros Hs Hcase. pose proof Hs as [Hok _]%Reachable_Inv. field_ok_names Hok.
  pose proof (count_tiles_bounds is_revealed (m_aMineTiles s)).
  destruct Hcase as [[Hlost Hlt]|Hn]; [|lia].
  pose proof (revealed_below_safe s Hs Hlt Hlost). lia.
Qed.

(** C1, as the engine has it: in every reachable state [IsGameLost] holds
    iff some revealed tile holds a mine, and [IsGameWon] and [IsGameLost]
    never hold together; [IsGameWon] holds iff the game is not lost, a tile
    is revealed and [tileCount - mineCount <= revealedCount], in every
    reachable state where the sum [m_cMines + m_cRevealedTiles], which
    [IsGameWon] adds in [UINT], does not wrap: on every field with fewer
    mines than tiles, and wherever the sum is a [UINT]; and with fewer
    mines than tiles [IsGameWon] holds iff the game is not lost and
    [revealedCount = tileCount - mineCount]. *)
Theorem game_status_reachable (s : MinefieldWindow) :
  Reachable s ->
  (IsGameLost s = true <->
   exists (i : nat) (t : MineTile),
     m_aMineTiles s !! i = Some t
     /\ GetTileState t = REVEALED /\ GetTileContent t = MINE)
  /\ (m_cMines s < m_cTiles s
      \/ m_cMines s + m_cRevealedTiles s < UINT_modulus ->
      (IsGameWon s = true <->
       IsGameLost s = false /\ 0 < m_cRevealedTiles s
       /\ m_cTiles s - m_cMines s <= m_cRevealedTiles s))
  /\ ~ (IsGameWon s = true /\ IsGameLost s = true)
  /\ (m_cMines s < m_cTiles s ->
      (IsGameWon s = true <->
       IsGameLost s = false
       /\ m_cRevealedTiles s = m_cTiles s - m_cMines s)).
Proof.
  intros Hs. pose proof Hs as [Hok _]%Reachable_Inv. field_ok_names Hok.
  pose proof (count_tiles_bounds is_revealed (m_aMineTiles s)) as Hb.
  pose proof (revealed_below_safe s Hs) as Hsafe.
  unfold IsGameLost, IsGameWon. split_and!.
  - rewrite ok_lost. apply Exists_lookup.
  - intros Hcase. destruct (m_bGameLost s); simpl; [intuition discriminate|].
    rewrite wrap_small by (destruct Hcase; [specialize (Hsafe ltac:(done) eq_refl)|]; lia).
    rewrite andb_true_iff, Z.leb_le, Z.ltb_lt. intuition lia.
  - destruct (m_bGameLost s); simpl; intuition discriminate.
  - intros Hlt. destruct (m_bGameLost s); simpl; [intuition discriminate|].
    specialize (Hsafe Hlt eq_refl). rewrite wrap_small by lia.
    rewrite andb_true_iff, Z.leb_le, Z.ltb_lt. intuition lia.
Qed.

Lemma game_status_witness :
  (IsGameLost game_opened = true <->
   exists (i : nat) (t : MineTile),
     m_aMineTiles game_opened !! i = Some t
     /\ GetTileState t = REVEALED /\ GetTileContent t = MINE)
  /\ (IsGameWon game_opened = true <->
      IsGameLost game_opened = false /\ 0 < m_cRevealedTiles game_opened
      /\ m_cTiles game_opened - m_cMines game_opened
         <= m_cRevealedTiles game_opened)
  /\ ~ (IsGameWon game_opened = true /\ IsGameLost game_opened = true)
  /\ (IsGameWon game_opened = true <->
      IsGameLost game_opened = false
      /\ m_cRevealedTiles game_opened
         = m_cTiles game_opened - m_cMines game_opened).
Proof.
  destruct (game_status_reachable game_opened game_opened_reachable)
    as (Hlost & Hwon & Hnot & Heq).
  split; [exact Hlost|]. split; [|split; [exact Hnot|]].
  - apply Hwon. left. vm_compute. reflexivity.
  - apply Heq. vm_compute. reflexivity.
Defined.

(** C1, as the claim words it, fails in the equality form of section 8.
    The freshly constructed 1 x 1 field with one mine is a reachable state:
    no tile is revealed, hence no mine is, and [revealedCount] is 0, which
    is [tileCount - mineCount]; the game is not lost, and it is not won,
    for [IsGameWon] asks for a revealed tile. *)
Lemma fresh_full_field_not_won :
  Reachable (MinefieldWindow_new 1 1 1 false false (0, 0))
  /\ m_cMines (MinefieldWindow_new 1 1 1 false false (0, 0)) = 1
  /\ m_cTiles (MinefieldWindow_new 1 1 1 false false (0, 0)) = 1
  /\ m_cRevealedTiles (MinefieldWindow_new 1 1 1 false false (0, 0))
     = m_cTiles (MinefieldWindow_new 1 1 1 false false (0, 0))
       - m_cMines (MinefieldWindow_new 1 1 1 false false (0, 0))
  /\ IsGameLost (MinefieldWindow_new 1 1 1 false false (0, 0)) = false
  /\ Forall (fun t => GetTileState t <> REVEALED)
       (m_aMineTiles (MinefieldWindow_new 1 1 1 false false (0, 0)))
  /\ IsGameWon (MinefieldWindow_new 1 1 1 false false (0, 0)) = false
  /\ ~ (IsGameWon (MinefieldWindow_new 1 1 1 false false (0, 0)) = true
        <-> IsGameLost (MinefieldWindow_new 1 1 1 false false (0, 0)) = false
            /\ m_cRevealedTiles (MinefieldWindow_new 1 1 1 false false (0, 0))
               = m_cTiles (MinefieldWindow_new 1 1 1 false false (0, 0))
                 - m_cMines (MinefieldWindow_new 1 1 1 false false (0, 0))).
Proof.
  split_and!; try reflexivity.
  - apply Reachable_new. unfold valid_configuration, is_UINT.
    rewrite UINT_modulus_eq. lia.
  - repeat constructor. discriminate.
  - intros [_ Hwon]. discriminate Hwon. by split.
Qed.

(** ** Counters *)

(** C7: in every reachable state [m_cRevealedTiles] is the number of
    revealed tiles and [m_cFlaggedTiles] the number of flagged tiles, and
    both still are after any further event (a button or pointer message,
    a resize, a reset, the question-mark toggle). *)
Theorem counters_exact (s : MinefieldWindow) :
  Reachable s ->
  (m_cRevealedTiles s = count_tiles is_revealed (m_aMineTiles s)
   /\ m_cFlaggedTiles s = count_tiles is_flagged (m_aMineTiles s))
  /\ forall e : Event,
       event_ok s e ->
       m_cRevealedTiles (handle e s)
       = count_tiles is_revealed (m_aMineTiles (handle e s))
       /\ m_cFlaggedTiles (handle e s)
          = count_tiles is_flagged (m_aMineTiles (handle e s)).
Proof.
  intros Hs. split.
  - destruct (Reachable_Inv s Hs) as [Hok _]. by field_ok_names Hok.
  - intros e He.
    destruct (Reachable_Inv _ (Reachable_handle s e Hs He)) as [Hok _].
    by field_ok_names Hok.
Qed.

Lemma counters_exact_witness :
  (m_cRevealedTiles game_flagged
   = count_tiles is_revealed (m_aMineTiles game_flagged)
   /\ m_cFlaggedTiles game_flagged
      = count_tiles is_flagged (m_aMineTiles game_flagged))
  /\ forall e : Event,
       event_ok game_flagged e ->
       m_cRevealedTiles (handle e game_flagged)
       = count_tiles is_revealed (m_aMineTiles (handle e game_flagged))
       /\ m_cFlaggedTiles (handle e game_flagged)
          = count_tiles is_flagged (m_aMineTiles (handle e game_flagged)).
Proof. apply (counters_exact game_flagged). apply game_flagged_reachable. Defined.

(** ** Flags *)

(** C10: in every reachable state a tile that carries a flag is hidden, and
    it still is so after any further event: no preview, chord or reveal
    presses or reveals a flagged tile. *)
Theorem flagged_tiles_hidden (s : MinefieldWindow) :
  Reachable s ->
  (forall (i : nat) (t : MineTile),
     m_aMineTiles s !! i = Some t ->
     GetTileMark t = FLAG -> GetTileState t = HIDDEN)
  /\ forall (e : Event) (i : nat) (t : MineTile),
       event_ok s e ->
       m_aMineTiles (handle e s) !! i = Some t ->
       GetTileMark t = FLAG -> GetTileState t = HIDDEN.
Proof.
  assert (forall s', Reachable s' ->
            forall (i : nat) (t : MineTile),
              m_aMineTiles s' !! i = Some t ->
              GetTileMark t = FLAG -> GetTileState t = HIDDEN) as H.
  { intros s' [Hok _]%Reachable_Inv i t Ht. field_ok_names Hok.
    by apply (proj1 (Forall_lookup _ _) ok_flag_hidden i t). }
  intros Hs. split; [by apply H|].
  intros e i t He. apply H. by apply Reachable_handle.
Qed.

Lemma flagged_tiles_hidden_witness :
  (forall (i : nat) (t : MineTile),
     m_aMineTiles game_chording !! i = Some t ->
     GetTileMark t = FLAG -> GetTileState t = HIDDEN)
  /\ forall (e : Event) (i : nat) (t : MineTile),
       event_ok game_chording e ->
       m_aMineTiles (handle e game_chording) !! i = Some t ->
       GetTileMark t = FLAG -> GetTileState t = HIDDEN.
Proof.
  apply (flagged_tiles_hidden game_chording). apply game_chording_reachable.
Defined.

(** ** The flood terminates *)

(** C8: for every field and every cell [(x, y)] of it, the loop that
    [SetTileRevealed(x, y)] runs from the revealed origin comes to its end
    (within the turns [SetTileRevealed] allows, and with the same outcome
    for any larger number of turns): the queue is empty, and no index was
    pushed twice. *)
Theorem flood_terminates_pushed_once (s : MinefieldWindow) (x y : Z) :
  field_shape (m_width s) (m_height s) (m_aMineTiles s) ->
  in_field (m_width s) (m_height s) (x, y) ->
  let tiles :=
    tile_update (SetTileState REVEALED) (tile_index (m_width s) x y)
      (m_aMineTiles s) in
  let seed := wrap (x + wrap (y * m_width s)) in
  let start := mkFlood tiles (wrap (m_cRevealedTiles s + 1)) [seed] [seed] in
  exists fl : Flood,
    (forall fuel : nat,
       (flood_fuel tiles <= fuel)%nat ->
       flood_loop (m_width s) (m_height s) fuel start = Some fl)
    /\ fl_queue fl = []
    /\ NoDup (fl_pushed fl).
Proof.
  intros (Hw & Hh & Ha & Hlen) [Hx Hy]. simpl in Hx, Hy. intros tiles seed start.
  destruct (cell_index_bounds _ _ x y Hx Hy) as [Hi0 Hi1].
  assert (seed = x + y * m_width s) as Hseed by (by apply (seed_index _ (m_height s))).
  assert (tile_index (m_width s) x y = x + y * m_width s) as Hidx
    by (by apply (tile_index_small _ (m_height s))).
  destruct (flood_loop_terminates (m_width s) (m_height s) (flood_fuel tiles) start)
    as [fl Hfl].
  { unfold flood_measure, flood_fuel, start. simpl.
    pose proof (count_tiles_bounds is_revealed tiles). lia. }
  exists fl. split_and!.
  - intros fuel Hfuel. by eapply flood_loop_more_fuel.
  - by eapply flood_loop_done.
  - refine (proj1 (flood_loop_pushed_once _ _ _ start fl _ Hfl)).
    split; simpl; [apply NoDup_singleton|]. apply Forall_singleton.
    rewrite Hseed. split; [lia|].
    destruct (lookup_lt_is_Some_2 (m_aMineTiles s) (Z.to_nat (x + y * m_width s)))
      as [t Ht]; [lia|].
    exists (SetTileState REVEALED t). split; [|done].
    subst tiles. rewrite Hidx. unfold tile_at, tile_update.
    by rewrite list_lookup_alter_eq, Ht.
Qed.

Lemma flood_terminates_pushed_once_witness :
  exists fl : Flood,
    (forall fuel : nat,
       (4 <= fuel)%nat ->
       flood_loop 3 1 fuel
         (mkFlood
            (tile_update (SetTileState REVEALED) 0 (m_aMineTiles game_pressed))
            1 [0] [0])
       = Some fl)
    /\ fl_queue fl = []
    /\ NoDup (fl_pushed fl).
Proof.
  apply (flood_terminates_pushed_once game_pressed 0 0).
  - vm_compute. intuition discriminate.
  - vm_compute. intuition discriminate.
Defined.

(** ** Reveal on a revealed or flagged tile *)

(** C9: when the tile at [(x, y)] is revealed or carries a flag,
    [SetTileRevealed(x, y)] changes nothing at all; and a second call on
    the same cell changes nothing after the first. *)
Theorem reveal_idempotent (s : MinefieldWindow) (x y : Z) :
  field_shape (m_width s) (m_height s) (m_aMineTiles s) ->
  in_field (m_width s) (m_height s) (x, y) ->
  (forall t : MineTile,
     tile_at (m_aMineTiles s) (tile_index (m_width s) x y) = Some t ->
     GetTileState t = REVEALED \/ GetTileMark t = FLAG ->
     SetTileRevealed x y s = s)
  /\ SetTileRevealed x y (SetTileRevealed x y s) = SetTileRevealed x y s
  /\ m_cRevealedTiles (SetTileRevealed x y (SetTileRevealed x y s))
     = m_cRevealedTiles (SetTileRevealed x y s).
Proof.
  intros Hshape Hin.
  assert (forall s' (t : MineTile),
            tile_at (m_aMineTiles s') (tile_index (m_width s') x y) = Some t ->
            GetTileState t = REVEALED \/ GetTileMark t = FLAG ->
            SetTileRevealed x y s' = s') as Hnoop.
  { intros s' t Ht Hor. unfold SetTileRevealed. rewrite Ht.
    destruct (decide _) as [[? ?]|]; [|done]. by destruct Hor. }
  assert (SetTileRevealed x y (SetTileRevealed x y s) = SetTileRevealed x y s) as Htwice.
  { destruct (SetTileRevealed_spec x y s Hshape Hin) as [rs_frame _ _ _ rs_origin _].
    destruct rs_frame as (Ew & _). destruct rs_origin as (t' & Ht' & Hor).
    apply (Hnoop _ t'); [|done]. rewrite Ew.
    destruct Hshape as (_ & _ & Ha & _). destruct Hin as [Hx Hy].
    by rewrite (tile_index_small _ (m_height s)). }
  split_and!; [apply Hnoop|done|by rewrite Htwice].
Qed.

Lemma reveal_idempotent_witness :
  (forall t : MineTile,
     tile_at (m_aMineTiles game_flagged) (tile_index (m_width game_flagged) 1 0)
     = Some t ->
     GetTileState t = REVEALED \/ GetTileMark t = FLAG ->
     SetTileRevealed 1 0 game_flagged = game_flagged)
  /\ SetTileRevealed 1 0 (SetTileRevealed 1 0 game_flagged)
     = SetTileRevealed 1 0 game_flagged
  /\ m_cRevealedTiles (SetTileRevealed 1 0 (SetTileRevealed 1 0 game_flagged))
     = m_cRevealedTiles (SetTileRevealed 1 0 game_flagged).
Proof.
  apply (reveal_idempotent game_flagged 1 0).
  - vm_compute. intuition discriminate.
  - vm_compute. intuition discriminate.
Defined.

(** ** Chords *)

Lemma release_tiles_at grid tiles j :
  0 <= j -> Forall (fun p => 0 <= p) grid ->
  tile_at (release_tiles grid tiles) j
  = (fun t => if decide (j ∈ grid /\ GetTileState t = CLICKED)
              then SetTileState HIDDEN t else t)
      <$> tile_at tiles j.
Proof.
  intros Hj. unfold release_tiles. revert tiles.
  induction grid as [|p grid IH]; intros tiles Hpos; cbn [foldl].
  - destruct (tile_at tiles j); [|done]. cbn [fmap option_fmap option_map].
    case_decide as H; [|done]. destruct H as [H _]. by apply elem_of_nil in H.
  - apply Forall_cons in Hpos as [Hp Hpos]. rewrite IH by done. clear IH.
    destruct (decide (p = j)) as [->|Hne].
    + destruct (tile_at tiles j) as [t|] eqn:E; [|by rewrite E].
      destruct (decide (GetTileState t = CLICKED)) as [Hs|Hs].
      * unfold tile_at, tile_update in *. rewrite list_lookup_alter_eq, E. simpl.
        f_equal. rewrite decide_False by (intros [_ ?]; done).
        rewrite decide_True; [done|]. split; [by left|done].
      * rewrite E. simpl. f_equal.
        rewrite !decide_False; [done|by intros [_ ?]..].
    + assert (tile_at
                match tile_at tiles p with
                | Some t => if decide (GetTileState t = CLICKED)
                            then tile_update (SetTileState HIDDEN) p tiles
                            else tiles
                | None => tiles
                end j = tile_at tiles j) as ->.
      { destruct (tile_at tiles p) as [t|]; [|done].
        destruct (decide _); [|done]. unfold tile_at, tile_update.
        by rewrite list_lookup_alter_ne by lia. }
      destruct (tile_at tiles j) as [t|]; [|done]. simpl. f_equal.
      destruct (decide (j ∈ grid /\ GetTileState t = CLICKED)) as [[H1 H2]|Hno].
      * rewrite decide_True; [done|]. split; [by right|done].
      * rewrite decide_False; [done|]. intros [[?|?]%elem_of_cons ?]; [done|].
        by apply Hno.
Qed.

(** After the loop of [EndChord] every tile of the block is revealed or
    carries a flag. *)
Lemma reveal_tiles_spec grid s :
  field_shape (m_width s) (m_height s) (m_aMineTiles s) ->
  (forall j, j ∈ grid -> 0 <= j < m_width s * m_height s) ->
  same_frame s (reveal_tiles grid s)
  /\ Forall2 reveal_step (m_aMineTiles s) (m_aMineTiles (reveal_tiles grid s))
  /\ forall j, j ∈ grid ->
       exists t', tile_at (m_aMineTiles (reveal_tiles grid s)) j = Some t'
                  /\ (GetTileState t' = REVEALED \/ GetTileMark t' = FLAG).
Proof.
  unfold reveal_tiles. revert s.
  induction grid as [|p grid IH]; intros s Hshape Hgrid; simpl.
  - split_and!; [apply same_frame_refl|reflexivity|by intros j ?%elem_of_nil].
  - pose proof Hshape as (Hw & Hh & Ha & Hlen).
    destruct (index_cell (m_width s) (m_height s) p) as (Hx & Hy & Hp);
      [apply Hgrid; by left|done|].
    destruct (SetTileRevealed_spec (p mod m_width s) (p / m_width s) s Hshape)
      as [Hfr Hstep _ _ Hor _]; [done|].
    rewrite <- Hp in Hor.
    set (s1 := SetTileRevealed (p mod m_width s) (p / m_width s) s) in *.
    pose proof Hfr as (Ew & Eh & _).
    destruct (IH s1) as (Hfr' & Hstep' & Hdone).
    + unfold field_shape. rewrite Ew, Eh.
      by rewrite <- (Forall2_length _ _ _ Hstep).
    + rewrite Ew, Eh. intros j Hj. apply Hgrid. by right.
    + split_and!; [by eapply same_frame_trans|by etrans|].
      intros j [->|Hj]%elem_of_cons; [|by apply Hdone].
      destruct Hor as (t1 & Ht1 & Hor).
      destruct (Forall2_tile_at_l _ _ _ _ _ Hstep' Ht1) as (t' & Ht' & Hr).
      exists t'. split; [done|]. destruct Hor as [Hs|Hm].
      * left. by apply (reveal_step_revealed _ _ Hr).
      * right. by rewrite (reveal_step_mark _ _ Hr).
Qed.

(** C2, as the engine has it: at a cell of the field, when the centre is
    revealed and the flags of its block number its mines, [EndChord] calls
    [SetTileRevealed] on every tile of the block, so that every neighbour
    without a flag ends revealed and every neighbour with a flag stays as
    it is; otherwise no tile becomes revealed, [m_cRevealedTiles] is
    unchanged, and every neighbour that showed as pressed is hidden
    again. *)
Theorem chord_consistency (s : MinefieldWindow) (x y : Z) :
  field_shape (m_width s) (m_height s) (m_aMineTiles s) ->
  in_field (m_width s) (m_height s) (x, y) ->
  (chord_matches x y s ->
   unflagged_neighbours_revealed x y (EndChord x y s)
   /\ forall j t,
        tile_at (m_aMineTiles s) j = Some t -> GetTileMark t = FLAG ->
        tile_at (m_aMineTiles (EndChord x y s)) j = Some t)
  /\ (~ chord_matches x y s ->
      nothing_revealed s (EndChord x y s)
      /\ m_cRevealedTiles (EndChord x y s) = m_cRevealedTiles s
      /\ previews_reverted x y s (EndChord x y s)).
Proof.
  intros Hshape [Hx Hy]. simpl in Hx, Hy. pose proof Hshape as (Hw & Hh & Ha & Hlen).
  destruct (cell_index_bounds _ _ x y Hx Hy) as [Hi0 Hi1].
  destruct (lookup_lt_is_Some_2 (m_aMineTiles s) (Z.to_nat (x + y * m_width s)))
    as [c Hc]; [lia|].
  assert (tile_at (m_aMineTiles s) (tile_index (m_width s) x y) = Some c) as Hc'
    by (by rewrite (tile_index_small _ (m_height s))).
  set (grid := GetTileGrid (m_width s) (m_height s) x y 1).
  assert (forall j, j ∈ grid -> 0 <= j < m_width s * m_height s) as Hgrid
    by (intros j Hj; by eapply GetTileGrid_range).
  split.
  - intros (c0 & Hc0 & Hs & Hflags). rewrite Hc' in Hc0. injection Hc0 as <-.
    unfold EndChord. rewrite Hc'. rewrite decide_True by done.
    rewrite decide_True by done. fold grid.
    destruct (reveal_tiles_spec grid s Hshape Hgrid) as ((Ew & Eh & _) & Hstep & Hdone).
    split.
    + intros j t. simpl. rewrite Ew, Eh. fold grid. intros Hj Ht Hm.
      destruct (Hdone j Hj) as (t' & Ht' & Hor). rewrite Ht in Ht'.
      injection Ht' as <-. by destruct Hor.
    + intros j t Ht Hm. simpl.
      destruct (Forall2_tile_at_l _ _ _ _ _ Hstep Ht) as (t' & Ht' & Hr).
      rewrite Ht'. f_equal. destruct Hr as (Hc1 & Hm1 & [Hs1|(_&?&_)]); [|done].
      destruct t, t'. simpl in *. congruence.
  - intros Hno.
    assert (EndChord x y s
            = set_bChording false
                (set_aMineTiles (release_tiles grid (m_aMineTiles s)) s)) as ->.
    { unfold EndChord. rewrite Hc'. fold grid.
      destruct (decide (GetTileState c = REVEALED)) as [Hs|]; [|done].
      destruct (decide _) as [Hflags|]; [|done].
      exfalso. apply Hno. by exists c. }
    simpl. split_and!; [|done|].
    + intros j t t' Ht Ht' Hs'. simpl in Ht'.
      destruct (Forall2_tile_at _ _ _ _ _ (release_tiles_step grid (m_aMineTiles s)) Ht')
        as (t0 & Ht0 & (_ & _ & Hiff & _)).
      rewrite Ht in Ht0. injection Ht0 as <-. tauto.
    + intros j t Hj Ht Hs. simpl. fold grid in Hj.
      rewrite release_tiles_at.
      * rewrite Ht. simpl. rewrite decide_True by done. by eexists.
      * by apply Hgrid.
      * apply Forall_forall. intros p Hp. by apply Hgrid.
Qed.

Lemma chord_consistency_witness :
  (chord_matches 0 0 game_chording ->
   unflagged_neighbours_revealed 0 0 (EndChord 0 0 game_chording)
   /\ forall j t,
        tile_at (m_aMineTiles game_chording) j = Some t -> GetTileMark t = FLAG ->
        tile_at (m_aMineTiles (EndChord 0 0 game_chording)) j = Some t)
  /\ (~ chord_matches 0 0 game_chording ->
      nothing_revealed game_chording (EndChord 0 0 game_chording)
      /\ m_cRevealedTiles (EndChord 0 0 game_chording)
         = m_cRevealedTiles game_chording
      /\ previews_reverted 0 0 game_chording (EndChord 0 0 game_chording)).
Proof.
  apply (chord_consistency game_chording 0 0).
  - vm_compute. intuition discriminate.
  - vm_compute. intuition discriminate.
Defined.

(** C2, as the claim words it, fails: in the sample game the centre is
    revealed and its one flag matches its one mine, yet after [EndChord] the
    flagged neighbour is still hidden. *)
Lemma chord_leaves_flagged_hidden :
  Reachable game_chording
  /\ in_field (m_width game_chording) (m_height game_chording) (0, 0)
  /\ chord_matches 0 0 game_chording
  /\ ~ neighbours_revealed 0 0 (EndChord 0 0 game_chording).
Proof.
  split_and!.
  - apply game_chording_reachable.
  - vm_compute. intuition discriminate.
  - exists (mkMineTile ONE REVEALED NONE). vm_compute. done.
  - intros H. specialize (H 1 (mkMineTile MINE HIDDEN FLAG)).
    assert (GetTileGrid (m_width (EndChord 0 0 game_chording))
              (m_height (EndChord 0 0 game_chording)) 0 0 1 = [0; 1]) as E
      by (vm_compute; reflexivity).
    rewrite E in H. discriminate H; [by right; left|by vm_compute].
Qed.

(** ** Mine generation *)

(** C3, as the engine has it: on a field where nothing is revealed yet, at
    a cell of the field and with fewer mines than tiles, [GenerateMines]
    leaves exactly [m_cMines] tiles with a mine. *)
Theorem mines_placed_exactly (s : MinefieldWindow) (rng : Sampler) (x y : Z) :
  Reachable s -> m_cRevealedTiles s = 0 ->
  in_field (m_width s) (m_height s) (x, y) ->
  SampleVector_contract rng ->
  m_cMines s < m_cTiles s ->
  count_tiles is_mine (m_aMineTiles (GenerateMines rng x y s)) = m_cMines s.
Proof.
  intros Hs Hz Hin Hrng Hlt.
  destruct (GenerateMines_mines rng x y s (Reachable_Inv s Hs) Hz Hin Hrng)
    as (_ & Hcount & Hlen).
  rewrite Hcount by done. by apply Hlen.
Qed.

Lemma mines_placed_exactly_witness :
  count_tiles is_mine (m_aMineTiles (GenerateMines first_k_sampler 0 0 game_pressed))
  = m_cMines game_pressed.
Proof.
  apply (mines_placed_exactly game_pressed first_k_sampler 0 0).
  - apply game_pressed_reachable.
  - reflexivity.
  - vm_compute. intuition discriminate.
  - apply first_k_sampler_contract.
  - vm_compute. reflexivity.
Defined.

(** C3, as the claim words it, fails when every tile is to hold a mine: the
    clicked cell is always excluded, so on a 2 x 2 field with 4 mines no
    sampler places more than 3. *)
Lemma all_mines_not_placed :
  Reachable (MinefieldWindow_new 2 2 4 false false (0, 0))
  /\ in_field 2 2 (0, 0)
  /\ m_cMines (MinefieldWindow_new 2 2 4 false false (0, 0)) = 4
  /\ forall rng : Sampler,
       SampleVector_contract rng ->
       count_tiles is_mine
         (m_aMineTiles
            (GenerateMines rng 0 0 (MinefieldWindow_new 2 2 4 false false (0, 0))))
       ≠ 4.
Proof.
  assert (Reachable (MinefieldWindow_new 2 2 4 false false (0, 0))) as Hs.
  { apply Reachable_new. unfold valid_configuration, is_UINT. rewrite UINT_modulus_eq. lia. }
  split_and!; [done|by vm_compute; intuition discriminate|done|].
  intros rng Hrng.
  destruct (GenerateMines_mines rng 0 0 _ (Reachable_Inv _ Hs) eq_refl
              ltac:(vm_compute; intuition discriminate) Hrng)
    as (Hmines & _).
  pose proof (Forall2_length _ _ _
                (GenerateMines_step rng 0 0
                   (MinefieldWindow_new 2 2 4 false false (0, 0)))) as Hlen.
  specialize (Hmines 0 ltac:(lia)).
  destruct (m_aMineTiles (GenerateMines rng 0 0 _))
    as [|t0 [|t1 [|t2 [|t3 [|t4 rest]]]]]; try discriminate Hlen.
  unfold mine_at, tile_at in Hmines. simpl in Hmines. simpl.
  destruct (is_mine t0); [|destruct (is_mine t1), (is_mine t2), (is_mine t3); lia].
  destruct (Hmines eq_refl) as [_ Hout]. exfalso. apply Hout.
  vm_compute. by left.
Qed.

(** C5: the exclusion radius is 0 exactly when fewer than nine tiles are
    free of mines and 1 otherwise; and when at least nine are, after
    [GenerateMines(x, y)] on a field where nothing is revealed yet no cell
    of the field within distance 1 of [(x, y)] holds a mine. *)
Theorem first_click_block_safe (s : MinefieldWindow) (rng : Sampler) (x y : Z) :
  Reachable s -> m_cRevealedTiles s = 0 ->
  in_field (m_width s) (m_height s) (x, y) ->
  SampleVector_contract rng ->
  (exclusion_radius (m_cTiles s) (m_cMines s) = 0
   <-> m_cTiles s - m_cMines s < 9)
  /\ (exclusion_radius (m_cTiles s) (m_cMines s) = 1
      <-> 9 <= m_cTiles s - m_cMines s)
  /\ (9 <= m_cTiles s - m_cMines s ->
      forall x' y' : Z,
        x - 1 <= x' <= x + 1 -> y - 1 <= y' <= y + 1 ->
        in_field (m_width s) (m_height s) (x', y') ->
        exists t : MineTile,
          tile_at (m_aMineTiles (GenerateMines rng x y s))
            (tile_index (m_width s) x' y') = Some t
          /\ GetTileContent t ≠ MINE).
Proof.
  intros Hs Hz Hin Hrng. pose proof (Reachable_Inv s Hs) as Hinv.
  pose proof Hinv as [Hok _]. field_ok_names Hok.
  destruct (exclusion_radius_cases (m_cTiles s) (m_cMines s)) as [H0 H1];
    [done|lia|].
  split_and!; [done..|]. intros Hnine x' y' Hx' Hy' [Hfx Hfy]. simpl in Hfx, Hfy.
  destruct (GenerateMines_mines rng x y s Hinv Hz Hin Hrng) as (Hmine & _).
  rewrite (proj2 H1 Hnine) in Hmine.
  destruct Hin as [Hx Hy]. simpl in Hx, Hy.
  rewrite (tile_index_small _ (m_height s)) by done.
  destruct (cell_index_bounds _ _ x' y' Hfx Hfy) as [Hi0 Hi1].
  pose proof (Forall2_length _ _ _ (GenerateMines_step rng x y s)) as Hlen.
  destruct (lookup_lt_is_Some_2 (m_aMineTiles (GenerateMines rng x y s))
              (Z.to_nat (x' + y' * m_width s))) as [t Ht]; [lia|].
  exists t. split; [done|]. intros Hc.
  destruct (Hmine (x' + y' * m_width s)) as [_ Hout]; [lia| |].
  - unfold mine_at, tile_at. rewrite Ht. by apply is_mine_true.
  - apply Hout. apply elem_of_GetTileGrid_1; [done..|].
    exists x', y'. split_and!; lia.
Qed.

Lemma first_click_block_safe_witness :
  (exclusion_radius (m_cTiles (MinefieldWindow_new 4 4 3 false false (0, 0)))
     (m_cMines (MinefieldWindow_new 4 4 3 false false (0, 0))) = 0
   <-> m_cTiles (MinefieldWindow_new 4 4 3 false false (0, 0))
       - m_cMines (MinefieldWindow_new 4 4 3 false false (0, 0)) < 9)
  /\ (exclusion_radius (m_cTiles (MinefieldWindow_new 4 4 3 false false (0, 0)))
        (m_cMines (MinefieldWindow_new 4 4 3 false false (0, 0))) = 1
      <-> 9 <= m_cTiles (MinefieldWindow_new 4 4 3 false false (0, 0))
               - m_cMines (MinefieldWindow_new 4 4 3 false false (0, 0)))
  /\ (9 <= m_cTiles (MinefieldWindow_new 4 4 3 false false (0, 0))
           - m_cMines (MinefieldWindow_new 4 4 3 false false (0, 0)) ->
      forall x' y' : Z,
        1 - 1 <= x' <= 1 + 1 -> 2 - 1 <= y' <= 2 + 1 ->
        in_field (m_width (MinefieldWindow_new 4 4 3 false false (0, 0)))
          (m_height (MinefieldWindow_new 4 4 3 false false (0, 0))) (x', y') ->
        exists t : MineTile,
          tile_at
            (m_aMineTiles
               (GenerateMines first_k_sampler 1 2
                  (MinefieldWindow_new 4 4 3 false false (0, 0))))
            (tile_index (m_width (MinefieldWindow_new 4 4 3 false false (0, 0)))
               x' y') = Some t
          /\ GetTileContent t ≠ MINE).
Proof.
  apply (first_click_block_safe (MinefieldWindow_new 4 4 3 false false (0, 0))
           first_k_sampler 1 2).
  - apply Reachable_new. unfold valid_configuration, is_UINT. rewrite UINT_modulus_eq. lia.
  - reflexivity.
  - vm_compute. intuition discriminate.
  - apply first_k_sampler_contract.
Defined.

(** The loop of [GenerateMines] on a field of one tile: the tile gets a
    mine iff tile 0 is among the sampled tiles. *)
Lemma place_mines_single (sample : list Z) (t : MineTile) :
  Forall (fun p => 0 <= p) sample ->
  place_mines sample [t]
  = [if bool_decide (0 ∈ sample) then SetTileContent MINE t else t].
Proof.
  intros Hpos. revert t.
  induction Hpos as [|p sample Hp _ IH]; intros t; [done|].
  change (place_mines (p :: sample) [t])
    with (place_mines sample (tile_update (SetTileContent MINE) p [t])).
  destruct (decide (p = 0)) as [->|Hne].
  - change (tile_update (SetTileContent MINE) 0 [t])
      with [SetTileContent MINE t].
    rewrite IH, (bool_decide_eq_true_2 (0 ∈ 0 :: sample)) by by left.
    by case_bool_decide.
  - assert (tile_update (SetTileContent MINE) p [t] = [t]) as ->.
    { unfold tile_update. destruct (Z.to_nat p) as [|n] eqn:E; [lia|done]. }
    rewrite IH. f_equal.
    rewrite (bool_decide_ext (0 ∈ p :: sample) (0 ∈ sample)); [done|].
    rewrite elem_of_cons. intuition congruence.
Qed.

(** C4, as the engine has it: on a 1 x 1 field with one mine asked for,
    [m_cMines] is 1 and the exclusion radius is 0; the excluded block is the
    clicked cell itself, so the sampler is handed no candidate and asked
    for one.  What it returns is not settled by section 4.1; whatever tiles
    it returns, the cell holds a mine after [GenerateMines(0, 0)] iff the
    cell is among them, and revealing the cell loses the game iff the cell
    holds a mine. *)
Theorem single_cell_field (rng : Sampler) (bChording bLRHeld : bool)
    (lastGridPos : Z * Z) :
  Forall (fun p => 0 <= p) (rng [] 1) ->
  let s := MinefieldWindow_new 1 1 1 bChording bLRHeld lastGridPos in
  m_cMines s = 1
  /\ exclusion_radius (m_cTiles s) (m_cMines s) = 0
  /\ tiles_to_toggle (length (m_aMineTiles s)) 0
       (GetTileGrid (m_width s) (m_height s) 0 0
          (exclusion_radius (m_cTiles s) (m_cMines s))) = []
  /\ (mine_at (m_aMineTiles (GenerateMines rng 0 0 s)) 0 = true
      <-> 0 ∈ rng [] 1)
  /\ (IsGameLost (SetTileRevealed 0 0 (GenerateMines rng 0 0 s)) = true
      <-> mine_at (m_aMineTiles (GenerateMines rng 0 0 s)) 0 = true).
Proof.
  intros Hpos s.
  assert (GenerateMines rng 0 0 s
          = set_aMineTiles
              (GenerateNumbers 1 1
                 [if bool_decide (0 ∈ rng [] 1)
                  then SetTileContent MINE MineTile_default
                  else MineTile_default]) s) as ->.
  { unfold GenerateMines.
    change (tiles_to_toggle _ 0 _) with (@nil Z). change (m_cMines s) with 1.
    change (m_aMineTiles s) with [MineTile_default].
    by rewrite (place_mines_single _ _ Hpos). }
  split_and!; [reflexivity..| |].
  - case_bool_decide as Hin; vm_compute; intuition discriminate.
  - case_bool_decide as Hin; vm_compute; intuition discriminate.
Qed.

Lemma single_cell_field_witness :
  m_cMines (MinefieldWindow_new 1 1 1 false false (0, 0)) = 1
  /\ exclusion_radius (m_cTiles (MinefieldWindow_new 1 1 1 false false (0, 0)))
       (m_cMines (MinefieldWindow_new 1 1 1 false false (0, 0))) = 0
  /\ tiles_to_toggle
       (length (m_aMineTiles (MinefieldWindow_new 1 1 1 false false (0, 0)))) 0
       (GetTileGrid (m_width (MinefieldWindow_new 1 1 1 false false (0, 0)))
          (m_height (MinefieldWindow_new 1 1 1 false false (0, 0))) 0 0
          (exclusion_radius
             (m_cTiles (MinefieldWindow_new 1 1 1 false false (0, 0)))
             (m_cMines (MinefieldWindow_new 1 1 1 false false (0, 0))))) = []
  /\ (mine_at
        (m_aMineTiles
           (GenerateMines first_k_sampler 0 0
              (MinefieldWindow_new 1 1 1 false false (0, 0)))) 0 = true
      <-> 0 ∈ first_k_sampler [] 1)
  /\ (IsGameLost
        (SetTileRevealed 0 0
           (GenerateMines first_k_sampler 0 0
              (MinefieldWindow_new 1 1 1 false false (0, 0)))) = true
      <-> mine_at
            (m_aMineTiles
               (GenerateMines first_k_sampler 0 0
                  (MinefieldWindow_new 1 1 1 false false (0, 0)))) 0 = true).
Proof.
  apply (single_cell_field first_k_sampler false false (0, 0)).
  vm_compute. constructor.
Defined.

(** C4, as the claim words it, fails: whatever the sampler returns within
    its contract, the single cell does not become a mine and revealing it
    does not lose the game. *)
Lemma single_cell_not_mined :
  ~ exists rng : Sampler,
      SampleVector_contract rng
      /\ (mine_at
            (m_aMineTiles
               (GenerateMines rng 0 0
                  (MinefieldWindow_new 1 1 1 false false (0, 0)))) 0 = true
          \/ IsGameLost
               (SetTileRevealed 0 0
                  (GenerateMines rng 0 0
                     (MinefieldWindow_new 1 1 1 false false (0, 0)))) = true).
Proof.
  intros (rng & Hrng & H).
  assert (rng [] 1 = []) as Hnil.
  { destruct (Hrng [] 1) as (Hsub & _). destruct (rng [] 1) as [|p l]; [done|].
    exfalso. eapply elem_of_nil, Hsub. by left. }
  assert (GenerateMines rng 0 0 (MinefieldWindow_new 1 1 1 false false (0, 0))
          = set_aMineTiles [MineTile_default]
              (MinefieldWindow_new 1 1 1 false false (0, 0))) as E.
  { unfold GenerateMines.
    change (tiles_to_toggle _ 0 _) with (@nil Z).
    change (m_cMines (MinefieldWindow_new 1 1 1 false false (0, 0))) with 1.
    rewrite Hnil. reflexivity. }
  rewrite E in H. destruct H as [H|H]; discriminate H.
Qed.

(** ** Resize *)

(** C6, as the engine has it: for a valid configuration with no more mines
    than tiles and any current state, [Resize] answers [FALSE] and changes
    nothing iff the three arguments are the stored values; when one of them
    differs it answers [TRUE], and afterwards no tile is counted revealed or
    flagged and the game is active. *)
Theorem resize_resets (s : MinefieldWindow) (width height cMines : Z) :
  valid_configuration width height cMines ->
  cMines <= width * height ->
  let stored :=
    m_width s = width /\ m_height s = height /\ m_cMines s = cMines in
  ((Resize width height cMines s).1 = false
   /\ (Resize width height cMines s).2 = s
   <-> stored)
  /\ (~ stored ->
      (Resize width height cMines s).1 = true
      /\ m_cRevealedTiles (Resize width height cMines s).2 = 0
      /\ m_cFlaggedTiles (Resize width height cMines s).2 = 0
      /\ IsGameActive (Resize width height cMines s).2 = true
      /\ m_width (Resize width height cMines s).2 = width
      /\ m_height (Resize width height cMines s).2 = height
      /\ m_cMines (Resize width height cMines s).2 = cMines).
Proof.
  intros ([Hw _] & [Hh _] & [Hm _] & Ha) Hle stored. unfold Resize.
  assert ((if wrap (width * height) <? cMines
           then wrap (width * height) else cMines) = cMines) as Hclamp.
  { rewrite wrap_small by nia. destruct (Z.ltb_spec (width * height) cMines); lia. }
  destruct (Z.eqb_spec (m_width s) width) as [Ew|Ew];
    destruct (Z.eqb_spec (m_height s) height) as [Eh|Eh];
    destruct (Z.eqb_spec (m_cMines s) cMines) as [Em|Em]; simpl;
    rewrite ?Hclamp; subst stored;
    try (split; [split; [by intros [? ?]|tauto]
                |intros _; unfold IsGameActive, IsGameLost, IsGameWon; simpl;
                 rewrite ?andb_false_r; done]).
  split; [tauto|]. intros Hno. exfalso. tauto.
Qed.

Lemma resize_resets_witness :
  ((Resize 3 1 1 game_opened).1 = false /\ (Resize 3 1 1 game_opened).2 = game_opened
   <-> m_width game_opened = 3 /\ m_height game_opened = 1
       /\ m_cMines game_opened = 1)
  /\ (~ (m_width game_opened = 3 /\ m_height game_opened = 1
         /\ m_cMines game_opened = 1) ->
      (Resize 3 1 1 game_opened).1 = true
      /\ m_cRevealedTiles (Resize 3 1 1 game_opened).2 = 0
      /\ m_cFlaggedTiles (Resize 3 1 1 game_opened).2 = 0
      /\ IsGameActive (Resize 3 1 1 game_opened).2 = true
      /\ m_width (Resize 3 1 1 game_opened).2 = 3
      /\ m_height (Resize 3 1 1 game_opened).2 = 1
      /\ m_cMines (Resize 3 1 1 game_opened).2 = 1).
Proof.
  apply (resize_resets game_opened 3 1 1).
  - unfold valid_configuration, is_UINT. rewrite UINT_modulus_eq. lia.
  - lia.
Defined.

(** C6, as the claim words it, fails: a [Resize] with the stored values
    leaves a game in progress as it is, with its revealed tile counted. *)
Lemma resize_same_keeps_game :
  Reachable game_opened
  /\ valid_configuration 3 1 1
  /\ 1 <= 3 * 1
  /\ (Resize 3 1 1 game_opened).2 = game_opened
  /\ m_cRevealedTiles (Resize 3 1 1 game_opened).2 = 1
  /\ m_cRevealedTiles (Resize 3 1 1 game_opened).2 ≠ 0.
Proof.
  split_and!;
    [apply game_opened_reachable
    |unfold valid_configuration, is_UINT; rewrite UINT_modulus_eq; lia
    |lia|reflexivity|reflexivity|by vm_compute].
Qed.

(** ** A field without mines *)

(** On a 9 x 9 field with no mine, pressing and releasing the left button
    on any cell reveals all 81 tiles and wins the game. *)
Example nine_by_nine_without_mines :
  Forall
    (fun pos : Z * Z =>
       let s :=
         handle (WM_LBUTTONUP first_k_sampler 0 pos)
           (handle (WM_LBUTTONDOWN MK_LBUTTON pos)
              (MinefieldWindow_new 9 9 0 false false (0, 0))) in
       m_cRevealedTiles s = 81
       /\ Forall (fun t => GetTileState t = REVEALED) (m_aMineTiles s)
       /\ IsGameWon s = true)
    (cells 9 9).
Proof. cbv zeta. apply (bool_decide_unpack _). by vm_compute. Qed.

(** * Further properties of the engine *)

(** ** The block of [GetTileGrid] at any radius *)

(** The test of one coordinate, when no cell of the far side can pass it:
    an offset that leads below zero wraps to a value no smaller than the
    extent. *)
Lemma grid_test_inside n c o r :
  0 <= c < n -> n + r <= UINT_modulus -> - r <= o <= r ->
  ((0 <=? wrap (c + o)) && (wrap (c + o) <? n) = true <-> 0 <= c + o < n)
  /\ (0 <= c + o -> wrap (c + o) = c + o).
Proof.
  intros Hc Hn Ho. rewrite andb_true_iff, Z.leb_le, Z.ltb_lt.
  destruct (Z.lt_ge_cases (c + o) 0) as [Hneg|Hpos].
  - split; [|lia]. unfold wrap.
    replace (c + o) with (c + o + UINT_modulus + (-1) * UINT_modulus) by lia.
    rewrite Z.mod_add by (rewrite UINT_modulus_eq; lia).
    rewrite Z.mod_small by lia. lia.
  - rewrite wrap_small by lia. lia.
Qed.

(** A cell of the block, by its offsets. *)
Lemma grid_cell_elem w h x y r xo yo u :
  w + r <= UINT_modulus -> h + r <= UINT_modulus ->
  w * h < UINT_modulus -> 0 <= x < w -> 0 <= y < h ->
  - r <= xo <= r -> - r <= yo <= r ->
  (0 <=? wrap (y + yo)) && (wrap (y + yo) <? h) = true ->
  u ∈ (if (0 <=? wrap (x + xo)) && (wrap (x + xo) <? w)
       then [wrap (wrap (x + xo) + wrap (wrap (y + yo) * w))] else []) <->
  0 <= x + xo < w /\ u = x + xo + (y + yo) * w.
Proof.
  intros Hwr Hhr Ha Hx Hy Hxo Hyo Ey.
  destruct (grid_test_inside h y yo r) as [Hty Hwy]; [lia..|].
  destruct (grid_test_inside w x xo r) as [Htx Hwx]; [lia..|].
  apply Hty in Ey. rewrite Hwy by lia.
  destruct ((0 <=? wrap (x + xo)) && (wrap (x + xo) <? w)) eqn:Ex.
  - assert (0 <= x + xo < w) as Hin by (by apply Htx). rewrite Hwx by lia.
    destruct (cell_index_bounds w h (x + xo) (y + yo)) as [? ?]; [lia..|].
    rewrite (wrap_small ((y + yo) * w)) by lia. rewrite wrap_small by lia.
    rewrite list_elem_of_singleton. tauto.
  - split; [by intros ?%elem_of_nil|]. intros [Hin _]. by apply Htx in Hin.
Qed.

(** A row of the block, by its offset. *)
Lemma grid_row_elem w h x y r yo u :
  0 <= r -> w + r <= UINT_modulus -> h + r <= UINT_modulus ->
  w * h < UINT_modulus -> 0 <= x < w -> 0 <= y < h -> - r <= yo <= r ->
  u ∈ (if (0 <=? wrap (y + yo)) && (wrap (y + yo) <? h)
       then xo ← seqZ (- r) (2 * r + 1);
            if (0 <=? wrap (x + xo)) && (wrap (x + xo) <? w)
            then [wrap (wrap (x + xo) + wrap (wrap (y + yo) * w))] else []
       else []) <->
  0 <= y + yo < h
  /\ exists xo, - r <= xo <= r /\ 0 <= x + xo < w /\ u = x + xo + (y + yo) * w.
Proof.
  intros Hr Hwr Hhr Ha Hx Hy Hyo.
  destruct (grid_test_inside h y yo r) as [Hty _]; [lia..|].
  destruct ((0 <=? wrap (y + yo)) && (wrap (y + yo) <? h)) eqn:Ey.
  - rewrite list_elem_of_bind. split.
    + intros (xo & Hu & Hxo%elem_of_seqZ).
      apply (grid_cell_elem w h x y r) in Hu; [|lia..|done].
      split; [by apply Hty|]. exists xo. split; [lia|done].
    + intros (_ & xo & Hxo & Hin). exists xo. split; [|apply elem_of_seqZ; lia].
      apply (grid_cell_elem w h x y r); [lia..|done|done].
  - split; [by intros ?%elem_of_nil|]. intros [Hin _]. by apply Hty in Hin.
Qed.

Lemma elem_of_GetTileGrid w h x y r j :
  0 <= r -> w + r <= UINT_modulus -> h + r <= UINT_modulus ->
  w * h < UINT_modulus -> 0 <= x < w -> 0 <= y < h ->
  j ∈ GetTileGrid w h x y r <->
  exists x' y', x - r <= x' <= x + r /\ y - r <= y' <= y + r
                /\ 0 <= x' < w /\ 0 <= y' < h /\ j = x' + y' * w.
Proof.
  intros Hr Hwr Hhr Ha Hx Hy. unfold GetTileGrid.
  replace (r <? 0) with false by (symmetry; apply Z.ltb_ge; lia).
  rewrite list_elem_of_bind. split.
  - intros (yo & Hj & Hyo%elem_of_seqZ).
    apply grid_row_elem in Hj as (Hin & xo & Hxo & Hxin & ->); [|lia..].
    exists (x + xo), (y + yo). lia.
  - intros (x' & y' & Hx' & Hy' & Hxw & Hyh & ->).
    exists (y' - y). split; [|apply elem_of_seqZ; lia].
    apply grid_row_elem; [lia..|]. split; [lia|].
    exists (x' - x). split_and!; [lia..|f_equal; [lia|f_equal; lia]].
Qed.

Lemma StronglySorted_seqZ m n : StronglySorted Z.lt (seqZ m n).
Proof.
  destruct (Z.le_gt_cases n 0) as [Hn|Hn]; [rewrite seqZ_nil by done; constructor|].
  rewrite <- (Z2Nat.id n) by lia. generalize (Z.to_nat n) as k. clear.
  induction k as [|k IH]; [constructor|].
  rewrite seqZ_S. apply StronglySorted_app_2; [|done|repeat constructor].
  intros a b Ha%elem_of_seqZ ->%list_elem_of_singleton. lia.
Qed.

Lemma StronglySorted_bind {A B} (RA : relation A) (RB : relation B)
    (f : A -> list B) (l : list A) :
  StronglySorted RA l ->
  (forall a, a ∈ l -> StronglySorted RB (f a)) ->
  (forall a b u v, a ∈ l -> b ∈ l -> RA a b -> u ∈ f a -> v ∈ f b -> RB u v) ->
  StronglySorted RB (l ≫= f).
Proof.
  induction 1 as [|a l Hl IH Ha]; intros Hf Hab; [constructor|].
  rewrite bind_cons. apply StronglySorted_app_2.
  - intros u v Hu (b & Hv & Hb)%list_elem_of_bind.
    apply (Hab a b); [by left|by right| |done|done].
    rewrite Forall_forall in Ha. by apply Ha.
  - apply Hf. by left.
  - apply IH.
    + intros b Hb. apply Hf. by right.
    + intros b c u v Hb Hc. apply Hab; by right.
Qed.

Lemma GetTileGrid_sorted w h x y r :
  0 <= r -> w + r <= UINT_modulus -> h + r <= UINT_modulus ->
  w * h < UINT_modulus -> 0 <= x < w -> 0 <= y < h ->
  StronglySorted Z.lt (GetTileGrid w h x y r).
Proof.
  intros Hr Hwr Hhr Ha Hx Hy. unfold GetTileGrid.
  replace (r <? 0) with false by (symmetry; apply Z.ltb_ge; lia).
  apply (StronglySorted_bind Z.lt); [apply StronglySorted_seqZ| |].
  - intros yo Hyo%elem_of_seqZ.
    destruct ((0 <=? wrap (y + yo)) && (wrap (y + yo) <? h)) eqn:Ey; [|constructor].
    apply (StronglySorted_bind Z.lt); [apply StronglySorted_seqZ| |].
    + intros xo _.
      destruct ((0 <=? wrap (x + xo)) && (wrap (x + xo) <? w)); repeat constructor.
    + intros xo1 xo2 u v Hxo1%elem_of_seqZ Hxo2%elem_of_seqZ Hlt Hu Hv.
      apply (grid_cell_elem w h x y r) in Hu as [_ ->]; [|lia..|done].
      apply (grid_cell_elem w h x y r) in Hv as [_ ->]; [|lia..|done]. lia.
  - intros yo1 yo2 u v Hyo1%elem_of_seqZ Hyo2%elem_of_seqZ Hlt Hu Hv.
    apply grid_row_elem in Hu as (? & xo1 & ? & ? & ->); [|lia..].
    apply grid_row_elem in Hv as (? & xo2 & ? & ? & ->); [|lia..]. nia.
Qed.

(** The block of [GetTileGrid(x, y, radius)] around a cell of the field, for
    a radius below the largest [INT] that cannot reach across the wrap of
    [UINT] (the callers pass 0 and 1): its tiles are exactly the cells of
    the field within [radius] columns and rows of [(x, y)], each by its
    index [x' + y' * m_width]. *)
Theorem tile_grid_members (w h x y r j : Z) :
  0 <= r < 2 ^ 31 - 1 -> w + r <= UINT_modulus -> h + r <= UINT_modulus ->
  w * h < UINT_modulus -> 0 <= x < w -> 0 <= y < h ->
  j ∈ GetTileGrid w h x y r <->
  exists x' y', x - r <= x' <= x + r /\ y - r <= y' <= y + r
                /\ 0 <= x' < w /\ 0 <= y' < h /\ j = x' + y' * w.
Proof. intros [Hr _]. by apply elem_of_GetTileGrid. Qed.

Lemma tile_grid_members_witness :
  4 ∈ GetTileGrid 3 2 2 0 1 <->
  exists x' y', 2 - 1 <= x' <= 2 + 1 /\ 0 - 1 <= y' <= 0 + 1
                /\ 0 <= x' < 3 /\ 0 <= y' < 2 /\ 4 = x' + y' * 3.
Proof.
  apply (tile_grid_members 3 2 2 0 1 4); rewrite ?UINT_modulus_eq; lia.
Defined.

(** The vector that [GetTileGrid] returns is sorted: the indices increase
    strictly, so none comes twice, and each is the index of a tile.  This
    is what the merge loop of [GenerateMines] relies on. *)
Theorem tile_grid_sorted (w h x y r : Z) :
  0 <= r < 2 ^ 31 - 1 -> w + r <= UINT_modulus -> h + r <= UINT_modulus ->
  w * h < UINT_modulus -> 0 <= x < w -> 0 <= y < h ->
  StronglySorted Z.lt (GetTileGrid w h x y r)
  /\ NoDup (GetTileGrid w h x y r)
  /\ Forall (fun j => 0 <= j < w * h) (GetTileGrid w h x y r).
Proof.
  intros [Hr _] Hwr Hhr Ha Hx Hy.
  pose proof (GetTileGrid_sorted w h x y r Hr Hwr Hhr Ha Hx Hy) as Hs.
  split_and!; [done| |].
  - induction Hs as [|a l _ IH Hal]; constructor; [|done].
    intros Hin. rewrite Forall_forall in Hal. specialize (Hal _ Hin). lia.
  - apply Forall_forall. intros j Hj.
    apply (GetTileGrid_range w h x y r); [lia..|done].
Qed.

Lemma tile_grid_sorted_witness :
  StronglySorted Z.lt (GetTileGrid 4 4 0 3 1)
  /\ NoDup (GetTileGrid 4 4 0 3 1)
  /\ Forall (fun j => 0 <= j < 4 * 4) (GetTileGrid 4 4 0 3 1).
Proof.
  apply (tile_grid_sorted 4 4 0 3 1); rewrite ?UINT_modulus_eq; lia.
Defined.

(** Being in each other's block is symmetric: tile [(x2, y2)] is in the
    block around [(x1, y1)] iff [(x1, y1)] is in the block around
    [(x2, y2)]. *)
Theorem tile_grid_symmetric (w h x1 y1 x2 y2 r : Z) :
  0 <= r < 2 ^ 31 - 1 -> w + r <= UINT_modulus -> h + r <= UINT_modulus ->
  w * h < UINT_modulus ->
  0 <= x1 < w -> 0 <= y1 < h -> 0 <= x2 < w -> 0 <= y2 < h ->
  x2 + y2 * w ∈ GetTileGrid w h x1 y1 r
  <-> x1 + y1 * w ∈ GetTileGrid w h x2 y2 r.
Proof.
  intros [Hr _] Hwr Hhr Ha Hx1 Hy1 Hx2 Hy2.
  rewrite !elem_of_GetTileGrid by done.
  assert (forall a b a' b', 0 <= a < w -> 0 <= a' < w ->
            a + b * w = a' + b' * w -> a = a' /\ b = b') as Huniq.
  { intros a b a' b' Ha1 Ha2 E. split.
    - rewrite <- (cell_index_mod w a b), <- (cell_index_mod w a' b') by done.
      by rewrite E.
    - rewrite <- (cell_index_div w a b), <- (cell_index_div w a' b') by done.
      by rewrite E. }
  split; intros (x' & y' & ? & ? & ? & ? & E);
    apply Huniq in E as [-> ->]; try done.
  - exists x1, y1. lia.
  - exists x2, y2. lia.
Qed.

Lemma tile_grid_symmetric_witness :
  2 + 1 * 3 ∈ GetTileGrid 3 3 1 0 1 <-> 1 + 0 * 3 ∈ GetTileGrid 3 3 2 1 1.
Proof.
  apply (tile_grid_symmetric 3 3 1 0 2 1 1); rewrite ?UINT_modulus_eq; lia.
Defined.

(** The size of the block of radius 1 around a cell of the field: one
    column for the cell, one more for each side on which the field goes on,
    and the same for the rows: 9 tiles inside the field, 6 along an edge, 4
    in a corner, fewer on a field less than three cells wide or high. *)
Theorem tile_grid_size (w h x y : Z) :
  w * h < UINT_modulus -> 0 <= x < w -> 0 <= y < h ->
  Z.of_nat (length (GetTileGrid w h x y 1))
  = (1 + (if 0 <? x then 1 else 0) + (if x + 1 <? w then 1 else 0))
    * (1 + (if 0 <? y then 1 else 0) + (if y + 1 <? h then 1 else 0)).
Proof.
  intros Ha Hx Hy. rewrite GetTileGrid_1_inside by done.
  unfold field_row, field_cell.
  repeat match goal with
         | |- context [?a <=? ?b] => destruct (Z.leb_spec a b)
         | |- context [?a <? ?b] => destruct (Z.ltb_spec a b)
         end; simpl; lia.
Qed.

Lemma tile_grid_size_witness :
  Z.of_nat (length (GetTileGrid 5 4 4 2 1))
  = (1 + (if 0 <? 4 then 1 else 0) + (if 4 + 1 <? 5 then 1 else 0))
    * (1 + (if 0 <? 2 then 1 else 0) + (if 2 + 1 <? 4 then 1 else 0)).
Proof.
  apply (tile_grid_size 5 4 4 2); rewrite ?UINT_modulus_eq; lia.
Defined.

(** ** The count of adjacent mines *)

(** [GetNumberAdjacentMines(x, y)] is the number of tiles of the block
    around [(x, y)] that hold a mine, the tile itself included; it is 9 at
    most, and 8 at most for a tile of the field that holds no mine itself,
    so that the [default] of the switch in [GenerateNumbers] is only taken
    for the count 0. *)
Theorem adjacent_mines_count (w h : Z) (tiles : list MineTile) (x y : Z) :
  GetNumberAdjacentMines w h tiles x y
  = Z.of_nat (length (filter (fun j => mine_at tiles j = true)
                        (GetTileGrid w h x y 1)))
  /\ 0 <= GetNumberAdjacentMines w h tiles x y <= 9
  /\ (w * h < UINT_modulus -> 0 <= x < w -> 0 <= y < h ->
      mine_at tiles (x + y * w) = false ->
      GetNumberAdjacentMines w h tiles x y <= 8
      /\ (content_of_count (GetNumberAdjacentMines w h tiles x y) = EMPTY
          <-> GetNumberAdjacentMines w h tiles x y = 0)).
Proof.
  rewrite GetNumberAdjacentMines_eq.
  pose proof (GetTileGrid_1_length w h x y) as Hlen.
  pose proof (length_filter (fun j => mine_at tiles j = true)
                (GetTileGrid w h x y 1)) as Hf.
  split_and!; [done|lia|lia|].
  intros Ha Hx Hy Hmine.
  assert (length (filter (fun j => mine_at tiles j = true)
                    (GetTileGrid w h x y 1))
          < length (GetTileGrid w h x y 1))%nat as Hlt.
  { apply (filter_length_lt _ _ (x + y * w)); [|congruence].
    by apply GetTileGrid_1_centre. }
  split; [lia|]. split; [|by intros ->].
  set (c := Z.of_nat _) in *. assert (0 <= c <= 8) as Hc by lia.
  unfold content_of_count.
  repeat match goal with
         | |- context [?a =? ?b] => destruct (Z.eqb_spec a b)
         end; try discriminate. lia.
Qed.

Lemma adjacent_mines_count_witness :
  GetNumberAdjacentMines 3 1 (m_aMineTiles game_opened) 0 0
  = Z.of_nat (length (filter (fun j => mine_at (m_aMineTiles game_opened) j = true)
                        (GetTileGrid 3 1 0 0 1)))
  /\ 0 <= GetNumberAdjacentMines 3 1 (m_aMineTiles game_opened) 0 0 <= 9
  /\ GetNumberAdjacentMines 3 1 (m_aMineTiles game_opened) 0 0 <= 8
  /\ (content_of_count
        (GetNumberAdjacentMines 3 1 (m_aMineTiles game_opened) 0 0) = EMPTY
      <-> GetNumberAdjacentMines 3 1 (m_aMineTiles game_opened) 0 0 = 0).
Proof.
  destruct (adjacent_mines_count 3 1 (m_aMineTiles game_opened) 0 0)
    as (H1 & H2 & H3).
  split; [exact H1|]. split; [exact H2|].
  apply H3; [rewrite UINT_modulus_eq; lia|lia|lia|reflexivity].
Defined.

(** ** The position under the mouse *)

Lemma clamp_to_field_spec quotient extent :
  is_LONG quotient -> 0 < extent < UINT_modulus ->
  0 <= clamp_to_field quotient extent < extent
  /\ (0 <= quotient < extent -> clamp_to_field quotient extent = quotient)
  /\ (quotient < 0 -> clamp_to_field quotient extent = 0)
  /\ (extent <= quotient -> clamp_to_field quotient extent = extent - 1).
Proof.
  unfold is_LONG, clamp_to_field, to_LONG. rewrite UINT_modulus_eq.
  intros Hq He. cbv zeta.
  assert (2 ^ 31 = 2147483648) as -> by reflexivity.
  rewrite (wrap_small (extent - 1)) by (rewrite UINT_modulus_eq; lia).
  destruct (Z.gtb_spec quotient 0) as [Hpos|Hneg].
  - rewrite (wrap_small quotient) by (rewrite UINT_modulus_eq; lia).
    destruct (Z.ltb_spec quotient (extent - 1)).
    + replace ((quotient + 2147483648) mod 4294967296)
        with (quotient + 2147483648) by (symmetry; apply Z.mod_small; lia).
      lia.
    + replace ((extent - 1 + 2147483648) mod 4294967296)
        with (extent - 1 + 2147483648) by (symmetry; apply Z.mod_small; lia).
      lia.
  - rewrite (wrap_small 0) by (rewrite UINT_modulus_eq; lia).
    destruct (Z.ltb_spec 0 (extent - 1)).
    + change ((0 + 2147483648) mod 4294967296 - 2147483648) with 0. lia.
    + assert (extent = 1) as -> by lia.
      change ((1 - 1 + 2147483648) mod 4294967296 - 2147483648) with 0. lia.
Qed.

(** [MouseToTilePos] returns a position of the field whenever the field has
    a cell: whatever the two quotients are, each coordinate is cut to
    [0 .. m_width - 1] or [0 .. m_height - 1]; a quotient inside that range
    is returned as it is, one below gives 0, one above the last column or
    row. *)
Theorem mouse_position_in_field (quotientX quotientY : Z) (s : MinefieldWindow) :
  is_LONG quotientX -> is_LONG quotientY ->
  0 < m_width s < UINT_modulus -> 0 < m_height s < UINT_modulus ->
  let pos := MouseToTilePos quotientX quotientY s in
  in_field (m_width s) (m_height s) pos
  /\ (0 <= quotientX < m_width s -> pos.1 = quotientX)
  /\ (quotientX < 0 -> pos.1 = 0)
  /\ (m_width s <= quotientX -> pos.1 = m_width s - 1)
  /\ (0 <= quotientY < m_height s -> pos.2 = quotientY)
  /\ (quotientY < 0 -> pos.2 = 0)
  /\ (m_height s <= quotientY -> pos.2 = m_height s - 1).
Proof.
  intros Hx Hy Hw Hh pos. unfold in_field. subst pos.
  unfold MouseToTilePos. cbn [fst snd].
  destruct (clamp_to_field_spec quotientX (m_width s) Hx Hw) as (?&?&?&?).
  destruct (clamp_to_field_spec quotientY (m_height s) Hy Hh) as (?&?&?&?).
  split_and!; first [assumption|lia].
Qed.

Lemma mouse_position_in_field_witness :
  in_field (m_width game_new) (m_height game_new) (MouseToTilePos 7 (-2) game_new)
  /\ (MouseToTilePos 7 (-2) game_new).1 = m_width game_new - 1
  /\ (MouseToTilePos 7 (-2) game_new).2 = 0.
Proof.
  destruct (mouse_position_in_field 7 (-2) game_new) as (H1 & _ & _ & H2 & _ & H3 & _).
  - unfold is_LONG. lia.
  - unfold is_LONG. lia.
  - rewrite UINT_modulus_eq. simpl. lia.
  - rewrite UINT_modulus_eq. simpl. lia.
  - split; [exact H1|]. split; [apply H2; simpl; lia|apply H3; lia].
Defined.

(** ** What a message does *)

Lemma same_game_refl s : same_game s s.
Proof. by unfold same_game. Qed.

Lemma same_game_trans s1 s2 s3 :
  same_game s1 s2 -> same_game s2 s3 -> same_game s1 s3.
Proof.
  unfold same_game. intros (?&?&?&?&?&?&?&?&?) (?&?&?&?&?&?&?&?&?).
  split_and!; congruence.
Qed.

Lemma same_game_sym s1 s2 : same_game s1 s2 -> same_game s2 s1.
Proof. unfold same_game. intros (?&?&?&?&?&?&?&?&?). split_and!; congruence. Qed.

(** The game functions read and write game members only. *)
Lemma same_game_IsGameActive s s' :
  same_game s s' -> IsGameActive s' = IsGameActive s.
Proof.
  intros (?&?&En&Em&Ec&?&El&?&?). unfold IsGameActive, IsGameLost, IsGameWon.
  by rewrite En, Em, Ec, El.
Qed.

Lemma message_effect_nothing s s' : same_game s s' -> message_effect s s'.
Proof.
  intros H. apply (effect_preview s s' (m_aMineTiles s)); [reflexivity|].
  by destruct s.
Qed.

Lemma message_effect_preview tiles' s s' :
  Forall2 preview_step (m_aMineTiles s) tiles' ->
  same_game (set_aMineTiles tiles' s) s' -> message_effect s s'.
Proof. apply effect_preview. Qed.

Lemma same_game_SetTileRevealed x y s s' :
  same_game s s' -> same_game (SetTileRevealed x y s) (SetTileRevealed x y s').
Proof.
  intros (Ew&Eh&En&Em&Ec&Ef&El&Eq&Et). unfold SetTileRevealed.
  rewrite Ew, Et, Ec. cbv zeta.
  destruct (tile_at _ _); [|by unfold same_game].
  destruct (decide _); [|by unfold same_game].
  destruct (decide _); [by unfold same_game|].
  destruct (decide _); [|by unfold same_game].
  rewrite Eh. destruct (flood_loop _ _ _ _); by unfold same_game.
Qed.

Lemma same_game_reveal_tiles grid s s' :
  same_game s s' -> same_game (reveal_tiles grid s) (reveal_tiles grid s').
Proof.
  unfold reveal_tiles. revert s s'.
  induction grid as [|p grid IH]; intros s s' H; simpl; [done|].
  apply IH. pose proof H as (Ew&_). rewrite Ew.
  by apply same_game_SetTileRevealed.
Qed.

Lemma message_effect_after s s1 s' :
  message_effect s s1 -> same_game s1 s' -> message_effect s s'.
Proof.
  intros [tiles' H H1|x y t Hin Ht Hs H1|x y c Hin Ht Hs H1|x y t Hin Ht Hs Hc H1
         |rng x y t Hrng Hin Ht Hs Hc H1] H2.
  - eapply effect_preview; [done|]. by eapply same_game_trans.
  - eapply effect_mark; [done..|]. by eapply same_game_trans.
  - eapply effect_chord; [done..|]. by eapply same_game_trans.
  - eapply effect_click; [done..|]. by eapply same_game_trans.
  - eapply effect_first_click; [done..|]. by eapply same_game_trans.
Qed.

Lemma same_game_cycle_mark index t s s' :
  same_game s s' -> same_game (cycle_mark index t s) (cycle_mark index t s').
Proof.
  intros (Ew&Eh&En&Em&Ec&Ef&El&Eq&Et). unfold cycle_mark.
  destruct (GetTileMark t); unfold same_game; simpl; rewrite ?Ef, ?Eq, ?Et;
    by split_and!.
Qed.

Lemma same_game_GenerateMines rng x y s s' :
  same_game s s' ->
  same_game (GenerateMines rng x y s) (GenerateMines rng x y s').
Proof.
  intros (Ew&Eh&En&Em&Ec&Ef&El&Eq&Et). unfold GenerateMines, same_game. simpl.
  rewrite Ew, Eh, En, Em, Et. by split_and!.
Qed.

Lemma message_effect_before s0 s s' :
  same_game s0 s -> message_effect s s' -> message_effect s0 s'.
Proof.
  intros H0. pose proof H0 as (Ew&Eh&En&Em&Ec&Ef&El&Eq&Et).
  intros [tiles' H H1|x y t Hin Ht Hs H1|x y c Hin Ht Hs H1|x y t Hin Ht Hs Hc H1
         |rng x y t Hrng Hin Ht Hs Hc H1];
    rewrite ?Ew, ?Eh, ?Et, ?Ec in *.
  - eapply effect_preview; [done|]. eapply same_game_trans; [|done].
    unfold same_game in *. simpl. by split_and!.
  - eapply (effect_mark _ _ x y t); [done..|].
    eapply same_game_trans; [|done]. rewrite <- Ew. by apply same_game_cycle_mark.
  - eapply (effect_chord _ _ x y c); [done..|].
    eapply same_game_trans; [|done]. rewrite <- Ew, <- Eh.
    by apply same_game_reveal_tiles.
  - eapply (effect_click _ _ x y t); [done..|].
    eapply same_game_trans; [|done]. by apply same_game_SetTileRevealed.
  - eapply (effect_first_click _ _ rng x y t); [done..|].
    eapply same_game_trans; [|done].
    by apply same_game_SetTileRevealed, same_game_GenerateMines.
Qed.

Lemma BeginChord_effect x y s : message_effect s (BeginChord x y s).
Proof.
  unfold BeginChord. eapply effect_preview; [apply press_tiles_step|].
  by unfold same_game.
Qed.

Lemma EndChord_effect x y s :
  in_field (m_width s) (m_height s) (x, y) -> message_effect s (EndChord x y s).
Proof.
  intros Hin. unfold EndChord. cbv zeta.
  assert (message_effect s
            (set_bChording false
               (set_aMineTiles
                  (release_tiles (GetTileGrid (m_width s) (m_height s) x y 1)
                     (m_aMineTiles s)) s))) as Hrevert.
  { eapply effect_preview; [apply release_tiles_step|]. by unfold same_game. }
  destruct (tile_at (m_aMineTiles s) (tile_index (m_width s) x y)) as [c|] eqn:Hc.
  - destruct (decide (GetTileState c = REVEALED)) as [Hs|]; [|done].
    destruct (decide _); [|done].
    eapply (effect_chord _ _ x y c); [done..|]. by unfold same_game.
  - apply message_effect_nothing. by unfold same_game.
Qed.

Lemma MovePos_effect oldPos newPos r force s :
  message_effect s (MovePos oldPos newPos r force s).
Proof.
  unfold MovePos. destruct (_ || _); [|apply message_effect_nothing, same_game_refl].
  eapply effect_preview; [|apply same_game_refl].
  etrans; [apply release_tiles_step|apply press_tiles_step].
Qed.

Lemma OnLButtonDown_effect wParam pos s :
  message_effect s (OnLButtonDown wParam pos s).
Proof.
  unfold OnLButtonDown.
  destruct (_ && _); [|apply message_effect_nothing, same_game_refl].
  destruct (held wParam MK_RBUTTON); [apply BeginChord_effect|].
  destruct (tile_at _ _) as [t|] eqn:E;
    [|apply message_effect_nothing, same_game_refl].
  destruct (decide _) as [[Hs Hm]|_];
    [|apply message_effect_nothing, same_game_refl].
  eapply effect_preview; [by eapply press_one_step|apply same_game_refl].
Qed.

Lemma OnLButtonUp_effect rng wParam pos s :
  SampleVector_contract rng -> in_field (m_width s) (m_height s) pos ->
  message_effect s (OnLButtonUp rng wParam pos s).
Proof.
  intros Hrng Hin. destruct pos as [x y]. unfold OnLButtonUp. cbn [fst snd].
  destruct (_ && _ && _).
  - destruct (m_bChording s).
    + eapply message_effect_after; [by apply EndChord_effect|]. by unfold same_game.
    + destruct (tile_at _ _) as [t|] eqn:E;
        [|apply message_effect_nothing, same_game_refl].
      destruct (decide _) as [Hs|_];
        [|apply message_effect_nothing, same_game_refl].
      destruct (Z.eqb_spec (m_cRevealedTiles s) 0) as [Hz|Hnz].
      * eapply (effect_first_click _ _ rng x y t); [done..|apply same_game_refl].
      * eapply (effect_click _ _ x y t); [done..|apply same_game_refl].
  - destruct (_ && _); apply message_effect_nothing; by unfold same_game.
Qed.

Lemma OnRButtonDown_effect wParam pos s :
  in_field (m_width s) (m_height s) pos ->
  message_effect s (OnRButtonDown wParam pos s).
Proof.
  intros Hin. destruct pos as [x y]. unfold OnRButtonDown. cbn [fst snd].
  destruct (_ && _ && _); [|apply message_effect_nothing, same_game_refl].
  destruct (held wParam MK_LBUTTON); [apply BeginChord_effect|].
  destruct (tile_at _ _) as [t|] eqn:E;
    [|apply message_effect_nothing, same_game_refl].
  destruct (decide _) as [Hs|_];
    [|apply message_effect_nothing, same_game_refl].
  eapply (effect_mark _ _ x y t); [done..|apply same_game_refl].
Qed.

Lemma OnRButtonUp_effect wParam pos s :
  in_field (m_width s) (m_height s) pos ->
  message_effect s (OnRButtonUp wParam pos s).
Proof.
  intros Hin. destruct pos as [x y]. unfold OnRButtonUp. cbn [fst snd].
  destruct (_ && _ && _).
  - destruct (m_bChording s); [|apply message_effect_nothing, same_game_refl].
    eapply message_effect_after; [by apply EndChord_effect|]. by unfold same_game.
  - destruct (_ && _); apply message_effect_nothing; by unfold same_game.
Qed.

Lemma OnMButtonDown_effect wParam pos s :
  message_effect s (OnMButtonDown wParam pos s).
Proof.
  unfold OnMButtonDown.
  destruct (_ && _); [|apply message_effect_nothing, same_game_refl].
  destruct (negb _); [apply BeginChord_effect|].
  apply message_effect_nothing, same_game_refl.
Qed.

Lemma OnMButtonUp_effect wParam pos s :
  in_field (m_width s) (m_height s) pos ->
  message_effect s (OnMButtonUp wParam pos s).
Proof.
  intros Hin. destruct pos as [x y]. unfold OnMButtonUp. cbn [fst snd].
  destruct (IsGameActive s); [|apply message_effect_nothing, same_game_refl].
  destruct (m_bChording s); [|apply message_effect_nothing, same_game_refl].
  destruct (_ || _); [|by apply EndChord_effect].
  eapply (message_effect_before _ (set_bLRHeldAfterChord true s));
    [by unfold same_game|by apply EndChord_effect].
Qed.

Lemma OnMouseMove_effect tracked wParam pos s :
  message_effect s (OnMouseMove tracked wParam pos s).
Proof.
  unfold OnMouseMove. destruct (negb (m_bMouseTracking s)).
  - set (s0 := if tracked then set_bMouseTracking true s else s).
    assert (same_game s s0) as H0 by (subst s0; by destruct tracked).
    apply (message_effect_before _ s0); [done|].
    destruct (IsGameActive s0); [|apply message_effect_nothing, same_game_refl].
    destruct (held wParam MK_LBUTTON || held wParam MK_MBUTTON);
      [|apply message_effect_nothing; by unfold same_game].
    destruct (held wParam MK_RBUTTON || held wParam MK_MBUTTON);
      (eapply message_effect_after; [apply MovePos_effect|by unfold same_game]).
  - destruct (IsGameActive s); [|apply message_effect_nothing, same_game_refl].
    destruct (_ || _); [|apply message_effect_nothing; by unfold same_game].
    destruct (m_bChording s);
      [eapply message_effect_after; [apply MovePos_effect|by unfold same_game]|].
    destruct (negb _);
      [eapply message_effect_after; [apply MovePos_effect|by unfold same_game]|].
    apply message_effect_nothing; by unfold same_game.
Qed.

Lemma OnMouseLeave_effect s : message_effect s (OnMouseLeave s).
Proof.
  unfold OnMouseLeave. cbv zeta.
  destruct (IsGameActive s); [|apply message_effect_nothing; by unfold same_game].
  eapply effect_preview; [apply release_tiles_step|]. by unfold same_game.
Qed.

Lemma handle_effect s e :
  input_message e = true -> event_ok s e -> message_effect s (handle e s).
Proof.
  intros He Hok. destruct e; try discriminate He; simpl in *.
  - apply OnLButtonDown_effect.
  - apply OnLButtonUp_effect; tauto.
  - by apply OnRButtonDown_effect.
  - by apply OnRButtonUp_effect.
  - apply OnMButtonDown_effect.
  - by apply OnMButtonUp_effect.
  - apply OnMouseMove_effect.
  - apply OnMouseLeave_effect.
Qed.

(** ** What a message leaves of the tiles *)

Lemma tile_eq t t' :
  GetTileContent t' = GetTileContent t -> GetTileState t' = GetTileState t ->
  GetTileMark t' = GetTileMark t -> t' = t.
Proof. destruct t, t'. simpl. congruence. Qed.

Lemma revealed_count_pos tiles i t :
  tiles !! i = Some t -> GetTileState t = REVEALED ->
  0 < count_tiles is_revealed tiles.
Proof.
  intros Ht Hs. apply count_tiles_pos_Exists, Exists_exists. exists t.
  split; [by eapply list_elem_of_lookup_2|]. by apply is_revealed_true.
Qed.

(** The tiles after [cycle_mark]: one mark is written, and it is a question
    mark only when question marks are enabled. *)
Lemma cycle_mark_tiles index t s :
  exists mark,
    m_aMineTiles (cycle_mark index t s)
    = tile_update (SetTileMark mark) index (m_aMineTiles s)
    /\ (mark = QUESTION_MARK -> m_bQuestionMarksEnabled s = true)
    /\ m_width (cycle_mark index t s) = m_width s
    /\ m_height (cycle_mark index t s) = m_height s
    /\ m_cTiles (cycle_mark index t s) = m_cTiles s
    /\ m_cMines (cycle_mark index t s) = m_cMines s
    /\ m_cRevealedTiles (cycle_mark index t s) = m_cRevealedTiles s
    /\ m_bGameLost (cycle_mark index t s) = m_bGameLost s
    /\ m_bQuestionMarksEnabled (cycle_mark index t s) = m_bQuestionMarksEnabled s.
Proof.
  unfold cycle_mark. destruct (GetTileMark t).
  - exists FLAG. by split_and!.
  - destruct (m_bQuestionMarksEnabled s) eqn:E.
    + exists QUESTION_MARK. simpl. by split_and!.
    + exists NONE. simpl. by split_and!.
  - exists NONE. by split_and!.
Qed.

(** What every mouse message keeps, in a state that satisfies the
    invariant. *)
Lemma effect_tiles s s' :
  Inv s -> message_effect s s' ->
  (m_width s' = m_width s /\ m_height s' = m_height s
   /\ m_cTiles s' = m_cTiles s /\ m_cMines s' = m_cMines s
   /\ m_bQuestionMarksEnabled s' = m_bQuestionMarksEnabled s)
  /\ m_cRevealedTiles s <= m_cRevealedTiles s'
  /\ (m_bGameLost s = true -> m_bGameLost s' = true)
  /\ length (m_aMineTiles s') = length (m_aMineTiles s)
  /\ forall i t t',
       m_aMineTiles s !! i = Some t -> m_aMineTiles s' !! i = Some t' ->
       (GetTileState t = REVEALED -> t' = t)
       /\ (m_cRevealedTiles s <> 0 -> GetTileContent t' = GetTileContent t)
       /\ (GetTileMark t' = QUESTION_MARK ->
           GetTileMark t = QUESTION_MARK \/ m_bQuestionMarksEnabled s = true).
Proof.
  intros HInv Heff. pose proof HInv as (Hok & _ & _).
  pose proof Hok as Hok'. field_ok_names Hok'.
  pose proof (field_ok_shape _ _ _ _ _ _ _ _ Hok) as Hshape.
  destruct Heff as [tiles' H H1|x y t0 Hin Ht0 Hs0 H1|x y c Hin Hc Hs H1
                   |x y t0 Hin Ht0 Hs0 Hnz H1|rng x y t0 Hrng Hin Ht0 Hs0 Hz H1];
    destruct H1 as (Ew&Eh&En&Em&Ec&Ef&El&Eq&Et); rewrite Ew, Eh, En, Em, Ec, El, Eq, Et;
    clear Ew Eh En Em Ec Ef El Eq Et.
  - simpl. split; [done|]. split; [lia|]. split; [done|].
    split; [by rewrite <- (Forall2_length _ _ _ H)|].
    intros i t t' Ht Ht'.
    destruct (Forall2_lookup_lr _ _ _ _ _ _ H Ht Ht') as (Hcon & Hm & Hst & _).
    split_and!; [|done|rewrite Hm; tauto].
    intros Hrev. apply tile_eq; [done| |done]. rewrite Hrev. by apply Hst.
  - destruct (cycle_mark_tiles (tile_index (m_width s) x y) t0 s)
      as (mark & -> & Hq & -> & -> & -> & -> & -> & -> & ->).
    split; [done|]. split; [lia|]. split; [done|].
    split; [unfold tile_update; by rewrite length_alter|].
    intros i t t' Ht Ht'. unfold tile_update in Ht'. unfold tile_at in Ht0.
    destruct (decide (Z.to_nat (tile_index (m_width s) x y) = i)) as [<-|Hne].
    + rewrite list_lookup_alter_eq, Ht in Ht'. simpl in Ht'.
      injection Ht' as <-. rewrite Ht0 in Ht. injection Ht as <-.
      split_and!; [congruence|done|]. simpl. intros ->. right. by apply Hq.
    + rewrite list_lookup_alter_ne, Ht in Ht' by done. injection Ht' as <-.
      split_and!; [done|done|tauto].
  - assert (0 < m_cRevealedTiles s) as Hpos
      by (rewrite ok_revealed; by eapply revealed_count_pos).
    destruct (Inv_reveal_tiles (GetTileGrid (m_width s) (m_height s) x y 1) s)
      as [[Hok2 _] _]; [done|done| |].
    { intros tile Htile. by eapply GetTileGrid_range. }
    destruct (reveal_tiles_spec (GetTileGrid (m_width s) (m_height s) x y 1) s)
      as ((Ew&Eh&En&Em&_&_&Eq&_) & Hstep & _); [done| |].
    { intros tile Htile. by eapply GetTileGrid_range. }
    pose proof Hok2 as [_ _ _ _ _ _ Hc' _ _ Hl' _].
    split; [done|]. split; [|split; [|split]].
    + rewrite Hc', ok_revealed. apply (count_tiles_mono reveal_step); [|done].
      intros u u' Hr Hu. apply is_revealed_true. apply is_revealed_true in Hu.
      by apply (reveal_step_revealed _ _ Hr).
    + rewrite Hl', ok_lost. by apply revealed_mine_persists.
    + by rewrite <- (Forall2_length _ _ _ Hstep).
    + intros i t t' Ht Ht'.
      destruct (Forall2_lookup_lr _ _ _ _ _ _ Hstep Ht Ht') as (Hcon & Hm & Hst).
      split_and!; [|done|rewrite Hm; tauto].
      intros Hrev. apply tile_eq; [done| |done].
      destruct Hst as [?|(?&_)]; done.
  - pose proof (SetTileRevealed_spec x y s Hshape Hin) as Hspec.
    pose proof (field_ok_reveal x y s _ Hok Hin Hspec) as Hok2.
    pose proof (revealed_count_mono x y s _ Hspec ok_revealed) as Hmono.
    reveal_spec_names Hspec. destruct rs_frame as (Ew&Eh&En&Em&_&_&Eq&_).
    split; [done|]. split; [done|]. split; [|split].
    + rewrite rs_lost. tauto.
    + by rewrite <- (Forall2_length _ _ _ rs_step).
    + intros i t t' Ht Ht'.
      destruct (Forall2_lookup_lr _ _ _ _ _ _ rs_step Ht Ht') as (Hcon & Hm & Hst).
      split_and!; [|done|rewrite Hm; tauto].
      intros Hrev. apply tile_eq; [done| |done].
      destruct Hst as [?|(?&_)]; done.
  - pose proof (GenerateMines_step rng x y s) as Hgen.
    pose proof (field_ok_GenerateMines rng x y s Hok Hz) as Hokg.
    pose proof (SetTileRevealed_spec x y (GenerateMines rng x y s)
                  (field_ok_shape _ _ _ _ _ _ _ _ Hokg) Hin) as Hspec.
    pose proof (field_ok_reveal x y (GenerateMines rng x y s) _ Hokg Hin Hspec)
      as Hok2.
    reveal_spec_names Hspec. destruct rs_frame as (Ew&Eh&En&Em&_&_&Eq&_).
    pose proof Hok2 as [_ _ _ _ _ _ Hc' _ _ _ _].
    pose proof (count_tiles_bounds is_revealed
                  (m_aMineTiles (SetTileRevealed x y (GenerateMines rng x y s)))).
    assert (m_bGameLost s = false) as Hlost.
    { destruct (m_bGameLost s); [|done]. exfalso.
      pose proof (proj1 ok_lost eq_refl) as Hex.
      apply Exists_exists in Hex as (u & Hu & Hrev & _).
      apply list_elem_of_lookup_1 in Hu as (i & Hu).
      pose proof (revealed_count_pos _ _ _ Hu Hrev). lia. }
    split; [done|]. split; [lia|]. split; [congruence|]. split.
    + rewrite <- (Forall2_length _ _ _ rs_step).
      by rewrite <- (Forall2_length _ _ _ Hgen).
    + intros i t t' Ht Ht'.
      destruct (Forall2_lookup_l _ _ _ _ _ Hgen Ht) as (tg & Htg & Hsg & Hmg).
      destruct (Forall2_lookup_lr _ _ _ _ _ _ rs_step Htg Ht') as (Hcon & Hm & Hst).
      split_and!; [|done|rewrite Hm, Hmg; tauto].
      intros Hrev. pose proof (revealed_count_pos _ _ _ Ht Hrev). lia.
Qed.

(** The tile of the first click holds no mine after [GenerateMines]. *)
Lemma GenerateMines_origin rng x y s t :
  Inv s -> m_cRevealedTiles s = 0 ->
  in_field (m_width s) (m_height s) (x, y) ->
  SampleVector_contract rng ->
  tile_at (m_aMineTiles (GenerateMines rng x y s)) (x + y * m_width s) = Some t ->
  GetTileContent t <> MINE.
Proof.
  intros HInv Hz Hin Hrng Ht Hmine.
  destruct (GenerateMines_mines rng x y s HInv Hz Hin Hrng) as (Hm & _).
  pose proof HInv as (Hok & _). field_ok_names Hok.
  destruct Hin as [Hx Hy]. simpl in Hx, Hy.
  destruct (cell_index_bounds _ _ x y Hx Hy) as [? ?].
  destruct (Hm (x + y * m_width s)) as [_ Hout]; [lia| |].
  - unfold mine_at. rewrite Ht. by apply is_mine_true.
  - apply Hout. unfold exclusion_radius. destruct (_ <? 9).
    + rewrite GetTileGrid_0_inside by done. by apply list_elem_of_singleton.
    + by apply GetTileGrid_1_centre.
Qed.

Lemma Inv_not_lost s : Inv s -> m_cRevealedTiles s = 0 -> m_bGameLost s = false.
Proof.
  intros (Hok & _) Hz. field_ok_names Hok.
  destruct (m_bGameLost s); [|done]. exfalso.
  pose proof (proj1 ok_lost eq_refl) as Hex.
  apply Exists_exists in Hex as (u & Hu & Hrev & _).
  apply list_elem_of_lookup_1 in Hu as (i & Hu).
  pose proof (revealed_count_pos _ _ _ Hu Hrev). lia.
Qed.

Lemma effect_first_safe s s' :
  Inv s -> m_cRevealedTiles s = 0 -> message_effect s s' ->
  m_bGameLost s' = false.
Proof.
  intros HInv Hz Heff. pose proof (Inv_not_lost s HInv Hz) as Hlost.
  pose proof HInv as (Hok & _ & _). pose proof Hok as Hok'. field_ok_names Hok'.
  destruct Heff as [tiles' H H1|x y t0 Hin Ht0 Hs0 H1|x y c Hin Hc Hs H1
                   |x y t0 Hin Ht0 Hs0 Hnz H1|rng x y t0 Hrng Hin Ht0 Hs0 _ H1];
    destruct H1 as (_&_&_&_&_&_&El&_&_); rewrite El.
  - done.
  - by destruct (cycle_mark_tiles (tile_index (m_width s) x y) t0 s)
      as (mark & _ & _ & _ & _ & _ & _ & _ & -> & _).
  - pose proof (revealed_count_pos _ _ _ Hc Hs). lia.
  - done.
  - pose proof (field_ok_GenerateMines rng x y s Hok Hz) as Hokg.
    destruct (SetTileRevealed_spec x y (GenerateMines rng x y s)
                (field_ok_shape _ _ _ _ _ _ _ _ Hokg) Hin)
      as [_ _ _ Hl _ _].
    destruct (m_bGameLost (SetTileRevealed x y (GenerateMines rng x y s)));
      [|done].
    exfalso. destruct (proj1 Hl eq_refl) as [Hg|(t & Ht & _ & _ & Hmine)].
    + simpl in Hg. congruence.
    + by apply (GenerateMines_origin rng x y s t).
Qed.

(** While nothing is revealed no event can lose the game: a press, a move
    or a mark reveals nothing, a chord needs a revealed tile, and the first
    click places the mines away from the tile it reveals. *)
Theorem first_reveal_is_safe (s : MinefieldWindow) (e : Event) :
  Reachable s -> m_cRevealedTiles s = 0 -> event_ok s e ->
  IsGameLost (handle e s) = false.
Proof.
  intros Hs Hz He. pose proof (Reachable_Inv s Hs) as HInv. unfold IsGameLost.
  destruct (input_message e) eqn:Hmsg.
  - apply (effect_first_safe s); [done..|]. by apply handle_effect.
  - destruct e; try discriminate Hmsg; simpl.
    + unfold Resize. destruct (_ || _); [done|]. by apply Inv_not_lost.
    + unfold ToggleQuestionMarkUsage. simpl.
      destruct (negb (negb _)); simpl; by apply Inv_not_lost.
    + done.
Qed.

Lemma first_reveal_is_safe_witness :
  IsGameLost (handle (WM_LBUTTONUP first_k_sampler 0 (0, 0)) game_pressed) = false.
Proof.
  apply (first_reveal_is_safe game_pressed).
  - apply game_pressed_reachable.
  - reflexivity.
  - split; [apply first_k_sampler_contract|]. vm_compute. intuition discriminate.
Defined.

(** What is revealed stays: a mouse message never hides a revealed tile
    again nor changes it, never lowers the count of revealed tiles, never
    takes back a loss, and once a tile is revealed it changes the content
    of no tile, so that the mines stay where they are. *)
Theorem revealed_tiles_persist (s : MinefieldWindow) (e : Event) :
  Reachable s -> input_message e = true -> event_ok s e ->
  m_cRevealedTiles s <= m_cRevealedTiles (handle e s)
  /\ (m_bGameLost s = true -> m_bGameLost (handle e s) = true)
  /\ (forall (i : nat) (t : MineTile),
        m_aMineTiles s !! i = Some t -> GetTileState t = REVEALED ->
        m_aMineTiles (handle e s) !! i = Some t)
  /\ (m_cRevealedTiles s <> 0 ->
      forall (i : nat) (t : MineTile),
        m_aMineTiles s !! i = Some t ->
        exists t', m_aMineTiles (handle e s) !! i = Some t'
                   /\ GetTileContent t' = GetTileContent t).
Proof.
  intros Hs Hmsg He. pose proof (Reachable_Inv s Hs) as HInv.
  destruct (effect_tiles s (handle e s) HInv (handle_effect s e Hmsg He))
    as (_ & Hc & Hl & Hlen & Htiles).
  assert (forall i t, m_aMineTiles s !! i = Some t ->
            exists t', m_aMineTiles (handle e s) !! i = Some t') as Hsome.
  { intros i t Ht. apply lookup_lt_is_Some. rewrite Hlen.
    apply lookup_lt_is_Some. by eexists. }
  split_and!; [done|done| |].
  - intros i t Ht Hrev. destruct (Hsome i t Ht) as (t' & Ht').
    destruct (Htiles i t t' Ht Ht') as (Heq & _). by rewrite Ht', Heq.
  - intros Hnz i t Ht. destruct (Hsome i t Ht) as (t' & Ht').
    destruct (Htiles i t t' Ht Ht') as (_ & Hcon & _). exists t'. split; [done|].
    by apply Hcon.
Qed.

Lemma revealed_tiles_persist_witness :
  m_cRevealedTiles game_opened
  <= m_cRevealedTiles (handle (WM_RBUTTONDOWN MK_RBUTTON (1, 0)) game_opened)
  /\ (m_bGameLost game_opened = true ->
      m_bGameLost (handle (WM_RBUTTONDOWN MK_RBUTTON (1, 0)) game_opened) = true)
  /\ (forall (i : nat) (t : MineTile),
        m_aMineTiles game_opened !! i = Some t -> GetTileState t = REVEALED ->
        m_aMineTiles (handle (WM_RBUTTONDOWN MK_RBUTTON (1, 0)) game_opened) !! i
        = Some t)
  /\ (m_cRevealedTiles game_opened <> 0 ->
      forall (i : nat) (t : MineTile),
        m_aMineTiles game_opened !! i = Some t ->
        exists t',
          m_aMineTiles (handle (WM_RBUTTONDOWN MK_RBUTTON (1, 0)) game_opened) !! i
          = Some t'
          /\ GetTileContent t' = GetTileContent t).
Proof.
  apply (revealed_tiles_persist game_opened (WM_RBUTTONDOWN MK_RBUTTON (1, 0))).
  - apply game_opened_reachable.
  - reflexivity.
  - vm_compute. intuition discriminate.
Defined.

(** ** Question marks *)

Lemma sweep_fold w h (l : list (Z * Z)) tiles :
  w * h < UINT_modulus -> Forall (in_field w h) l ->
  let r :=
    foldl (fun a c =>
             match tile_at a (tile_index w c.1 c.2) with
             | Some t =>
                 if decide (GetTileMark t = QUESTION_MARK)
                 then tile_update (SetTileMark NONE) (tile_index w c.1 c.2) a
                 else a
             | None => a
             end) tiles l in
  Forall2 sweep_step tiles r
  /\ forall c t, c ∈ l -> tile_at r (c.1 + c.2 * w) = Some t ->
                 GetTileMark t <> QUESTION_MARK.
Proof.
  intros Ha. induction l as [|d l IH] using rev_ind; intros Hl r.
  - split; [reflexivity|]. by intros c t ?%elem_of_nil.
  - apply Forall_app in Hl as [Hl [[Hdx Hdy] _]%Forall_cons].
    destruct (IH Hl) as [Hstep Hclear]. subst r. rewrite foldl_snoc.
    set (r := foldl _ tiles l) in *.
    rewrite (tile_index_small w h d.1 d.2 Ha Hdx Hdy).
    assert (Forall2 sweep_step r
              match tile_at r (d.1 + d.2 * w) with
              | Some t =>
                  if decide (GetTileMark t = QUESTION_MARK)
                  then tile_update (SetTileMark NONE) (d.1 + d.2 * w) r
                  else r
              | None => r
              end) as Hlast.
    { destruct (tile_at r (d.1 + d.2 * w)) as [t|] eqn:E; [|reflexivity].
      destruct (decide _) as [Hm|_]; [|reflexivity].
      apply tile_update_rel; [apply _|]. intros t' Ht'. rewrite E in Ht'.
      injection Ht' as <-. unfold sweep_step. simpl. split_and!; [done..|].
      by right. }
    split; [by etrans|].
    intros c t [Hc| ->%list_elem_of_singleton]%elem_of_app Ht.
    + destruct (Forall2_tile_at _ _ _ _ _ Hlast Ht) as (t0 & Ht0 & _ & _ & Hm).
      pose proof (Hclear c t0 Hc Ht0). destruct Hm as [?|[_ ?]]; congruence.
    + destruct (tile_at r (d.1 + d.2 * w)) as [t0|] eqn:E; [|congruence].
      destruct (decide (GetTileMark t0 = QUESTION_MARK)) as [Hm|Hm].
      * unfold tile_update, tile_at in Ht, E.
        rewrite list_lookup_alter_eq, E in Ht. injection Ht as <-. done.
      * congruence.
Qed.

(** The tiles after [ToggleQuestionMarkUsage] has switched the question
    marks off. *)
Lemma Toggle_tiles s :
  Inv s -> m_bQuestionMarksEnabled s = true ->
  m_aMineTiles (ToggleQuestionMarkUsage s)
  = clear_question_mark <$> m_aMineTiles s.
Proof.
  intros (Hok & _) Hq. field_ok_names Hok.
  unfold ToggleQuestionMarkUsage. simpl. rewrite Hq. simpl.
  rewrite for_each_xy_cells.
  destruct (sweep_fold (m_width s) (m_height s)
              (cells (m_width s) (m_height s)) (m_aMineTiles s))
    as [Hstep Hclear]; [done| |].
  { apply Forall_forall. intros c. apply elem_of_cells. }
  set (r := foldl _ _ _) in *.
  apply list_eq. intros i. rewrite list_lookup_fmap.
  destruct (m_aMineTiles s !! i) as [t|] eqn:Ht; simpl.
  - destruct (Forall2_lookup_l _ _ _ _ _ Hstep Ht) as (t' & Ht' & Hcon & Hst & Hm).
    rewrite Ht'. f_equal.
    assert (Z.of_nat i < m_width s * m_height s) as Hi.
    { rewrite <- ok_length. apply lookup_lt_Some in Ht. lia. }
    destruct (index_cell (m_width s) (m_height s) (Z.of_nat i)) as (Hx & Hy & Ei);
      [lia|done|].
    assert (GetTileMark t' <> QUESTION_MARK) as Hno.
    { apply (Hclear (Z.of_nat i mod m_width s, Z.of_nat i / m_width s)).
      - by apply elem_of_cells.
      - simpl. rewrite <- Ei. unfold tile_at. by rewrite Nat2Z.id. }
    unfold clear_question_mark. destruct (decide _) as [Hqm|Hqm].
    + apply tile_eq; simpl; [done|done|]. destruct Hm as [?|[_ ?]]; congruence.
    + apply tile_eq; [done|done|]. destruct Hm as [?|[? _]]; congruence.
  - apply lookup_ge_None. rewrite <- (Forall2_length _ _ _ Hstep).
    by apply lookup_ge_None.
Qed.

Lemma clear_question_mark_id tiles :
  Forall (fun t => GetTileMark t <> QUESTION_MARK) tiles ->
  clear_question_mark <$> tiles = tiles.
Proof.
  induction 1 as [|t ts Ht _ IH]; [done|]. csimpl. rewrite IH. f_equal.
  unfold clear_question_mark. by destruct (decide _).
Qed.

Lemma fresh_tiles_unmarked n :
  Forall (fun t => GetTileMark t <> QUESTION_MARK) (fresh_tiles n).
Proof. unfold fresh_tiles. by apply Forall_replicate. Qed.

Lemma Reachable_no_question_marks s :
  Reachable s -> m_bQuestionMarksEnabled s = false ->
  Forall (fun t => GetTileMark t <> QUESTION_MARK) (m_aMineTiles s).
Proof.
  induction 1 as [w h m b1 b2 pos Hv|s e Hs IH Hok]; intros Hq.
  - apply fresh_tiles_unmarked.
  - pose proof (Reachable_Inv s Hs) as HInv.
    destruct (input_message e) eqn:Hmsg.
    + destruct (effect_tiles s (handle e s) HInv (handle_effect s e Hmsg Hok))
        as ((_&_&_&_&Eq) & _ & _ & Hlen & Htiles).
      rewrite Eq in Hq. specialize (IH Hq). rewrite Forall_forall in IH.
      apply Forall_forall. intros t' (i & Ht')%list_elem_of_lookup_1 Hm.
      assert (is_Some (m_aMineTiles s !! i)) as [t Ht].
      { apply lookup_lt_is_Some. rewrite <- Hlen. by eapply lookup_lt_Some. }
      destruct (Htiles i t t' Ht Ht') as (_ & _ & Hmark).
      destruct (Hmark Hm) as [Hm0|?]; [|congruence].
      apply (IH t); [by eapply list_elem_of_lookup_2|done].
    + destruct e; try discriminate Hmsg; simpl in *.
      * unfold Resize in *. destruct (_ || _); simpl in *; [|by apply IH].
        apply fresh_tiles_unmarked.
      * destruct (m_bQuestionMarksEnabled s) eqn:Eq.
        -- rewrite Toggle_tiles by done. apply Forall_fmap, Forall_forall.
           intros t _. unfold clear_question_mark. simpl.
           destruct (decide _); simpl; congruence.
        -- unfold ToggleQuestionMarkUsage in Hq. simpl in Hq.
           rewrite Eq in Hq. simpl in Hq. discriminate.
      * apply fresh_tiles_unmarked.
Qed.

(** A question mark needs the setting: in every state of a run in which
    question marks are switched off no tile carries one. *)
Theorem question_marks_need_setting (s : MinefieldWindow) :
  Reachable s -> m_bQuestionMarksEnabled s = false ->
  forall (i : nat) (t : MineTile),
    m_aMineTiles s !! i = Some t -> GetTileMark t <> QUESTION_MARK.
Proof.
  intros Hs Hq i t Ht.
  pose proof (Reachable_no_question_marks s Hs Hq) as H.
  rewrite Forall_forall in H. apply H. by eapply list_elem_of_lookup_2.
Qed.

Lemma question_marks_need_setting_witness :
  m_aMineTiles game_flagged !! 1%nat = Some (mkMineTile MINE HIDDEN FLAG)
  /\ GetTileMark (mkMineTile MINE HIDDEN FLAG) <> QUESTION_MARK.
Proof.
  split; [reflexivity|].
  apply (question_marks_need_setting game_flagged game_flagged_reachable
           eq_refl 1%nat).
  reflexivity.
Defined.

(** [ToggleQuestionMarkUsage] in a state of a run.  Switching the setting
    off writes [NONE] over every question mark and leaves every other tile
    and every counter as they are; switching it on changes the setting
    only; and from a state where it is off, two toggles give the state
    back. *)
Theorem toggle_question_marks (s : MinefieldWindow) :
  Reachable s ->
  (m_bQuestionMarksEnabled s = true ->
   ToggleQuestionMarkUsage s
   = set_aMineTiles (clear_question_mark <$> m_aMineTiles s)
       (set_bQuestionMarksEnabled false s))
  /\ (m_bQuestionMarksEnabled s = false ->
      ToggleQuestionMarkUsage s = set_bQuestionMarksEnabled true s
      /\ ToggleQuestionMarkUsage (ToggleQuestionMarkUsage s) = s).
Proof.
  intros Hs. pose proof (Reachable_Inv s Hs) as HInv. split; intros Hq.
  - pose proof (Toggle_tiles s HInv Hq) as Ht.
    unfold ToggleQuestionMarkUsage in *. simpl in *. rewrite Hq in *.
    simpl in *. unfold set_aMineTiles at 1. simpl. rewrite Ht. reflexivity.
  - assert (ToggleQuestionMarkUsage s = set_bQuestionMarksEnabled true s) as E.
    { unfold ToggleQuestionMarkUsage. simpl. by rewrite Hq. }
    split; [done|]. rewrite E.
    pose proof (Toggle_tiles (set_bQuestionMarksEnabled true s) HInv eq_refl) as Ht.
    simpl in Ht.
    rewrite clear_question_mark_id in Ht
      by (by apply Reachable_no_question_marks).
    unfold ToggleQuestionMarkUsage in *. simpl in *.
    unfold set_aMineTiles at 1. simpl. rewrite Ht.
    destruct s. simpl in *. by rewrite Hq.
Qed.

Lemma toggle_question_marks_witness :
  ToggleQuestionMarkUsage game_flagged = set_bQuestionMarksEnabled true game_flagged
  /\ ToggleQuestionMarkUsage (ToggleQuestionMarkUsage game_flagged) = game_flagged.
Proof.
  destruct (toggle_question_marks game_flagged game_flagged_reachable) as [_ H].
  apply H. reflexivity.
Defined.

(** ** The numerals *)

Lemma mine_at_content (R : relation MineTile) tiles tiles' j :
  (forall t t', R t t' -> GetTileContent t' = GetTileContent t) ->
  Forall2 R tiles tiles' -> mine_at tiles' j = mine_at tiles j.
Proof.
  intros HR H. unfold mine_at, tile_at.
  destruct (tiles' !! Z.to_nat j) as [t'|] eqn:E.
  - destruct (Forall2_lookup_r _ _ _ _ _ H E) as (t & -> & Ht).
    unfold is_mine. by rewrite (HR _ _ Ht).
  - apply Forall2_length in H. apply lookup_ge_None in E.
    rewrite (proj2 (lookup_ge_None tiles _)); [done|lia].
Qed.

Lemma GetNumberAdjacentMines_content (R : relation MineTile) w h tiles tiles' x y :
  (forall t t', R t t' -> GetTileContent t' = GetTileContent t) ->
  Forall2 R tiles tiles' ->
  GetNumberAdjacentMines w h tiles' x y = GetNumberAdjacentMines w h tiles x y.
Proof.
  intros HR H. rewrite !GetNumberAdjacentMines_eq. do 2 f_equal.
  apply list_filter_iff. intros j. by rewrite (mine_at_content R _ _ j HR H).
Qed.

Lemma number_right_content (R : relation MineTile) w h tiles tiles' i :
  (forall t t', R t t' -> GetTileContent t' = GetTileContent t) ->
  Forall2 R tiles tiles' ->
  number_right w h tiles i -> number_right w h tiles' i.
Proof.
  intros HR H Hright t' Ht' Hmine.
  destruct (Forall2_tile_at _ _ _ _ _ H Ht') as (t & Ht & Hr).
  rewrite (GetNumberAdjacentMines_content R _ _ _ _ _ _ HR H).
  rewrite (HR _ _ Hr) in *. by apply Hright.
Qed.

Lemma GetNumberAdjacentMines_unmined w h tiles x y :
  unmined tiles -> GetNumberAdjacentMines w h tiles x y = 0.
Proof.
  intros Hun. rewrite GetNumberAdjacentMines_eq.
  induction (GetTileGrid w h x y 1) as [|j l IH]; [done|].
  rewrite filter_cons. destruct (decide _) as [Hm|_]; [|done].
  by rewrite (unmined_mine_at _ j Hun) in Hm.
Qed.

Lemma number_right_fresh w h n i : number_right w h (fresh_tiles n) i.
Proof.
  intros t Ht _.
  rewrite GetNumberAdjacentMines_unmined by apply unmined_fresh.
  unfold tile_at, fresh_tiles in Ht. apply lookup_replicate in Ht as [-> _].
  reflexivity.
Qed.

(** The contents after a mouse message: those before, or, on the first
    click, those that [GenerateMines] wrote. *)
Lemma effect_contents s s' :
  Inv s -> message_effect s s' ->
  m_width s' = m_width s /\ m_height s' = m_height s
  /\ (Forall2 (fun t t' => GetTileContent t' = GetTileContent t)
        (m_aMineTiles s) (m_aMineTiles s')
      \/ exists rng x y,
           m_cRevealedTiles s = 0 /\ SampleVector_contract rng
           /\ in_field (m_width s) (m_height s) (x, y)
           /\ Forall2 (fun t t' => GetTileContent t' = GetTileContent t)
                (m_aMineTiles (GenerateMines rng x y s)) (m_aMineTiles s')).
Proof.
  intros HInv Heff. pose proof HInv as (Hok & _ & _).
  pose proof Hok as Hok'. field_ok_names Hok'.
  pose proof (field_ok_shape _ _ _ _ _ _ _ _ Hok) as Hshape.
  destruct Heff as [tiles' H H1|x y t0 Hin Ht0 Hs0 H1|x y c Hin Hc Hs H1
                   |x y t0 Hin Ht0 Hs0 Hnz H1|rng x y t0 Hrng Hin Ht0 Hs0 Hz H1];
    destruct H1 as (Ew&Eh&_&_&_&_&_&_&Et); rewrite Ew, Eh, Et; clear Ew Eh Et.
  - split; [done|]. split; [done|]. left. simpl.
    eapply Forall2_impl; [done|]. by intros t t' (?&_).
  - destruct (cycle_mark_tiles (tile_index (m_width s) x y) t0 s)
      as (mark & -> & _ & -> & -> & _).
    split; [done|]. split; [done|]. left.
    apply tile_update_rel; [by intros ?|]. by intros t _.
  - destruct (reveal_tiles_spec (GetTileGrid (m_width s) (m_height s) x y 1) s)
      as ((Ew&Eh&_) & Hstep & _); [done| |].
    { intros tile Htile. by eapply GetTileGrid_range. }
    split; [done|]. split; [done|]. left.
    eapply Forall2_impl; [done|]. apply reveal_step_content.
  - destruct (SetTileRevealed_spec x y s Hshape Hin) as [(Ew&Eh&_) Hstep _ _ _ _].
    split; [done|]. split; [done|]. left.
    eapply Forall2_impl; [done|]. apply reveal_step_content.
  - pose proof (field_ok_GenerateMines rng x y s Hok Hz) as Hokg.
    destruct (SetTileRevealed_spec x y (GenerateMines rng x y s)
                (field_ok_shape _ _ _ _ _ _ _ _ Hokg) Hin)
      as [(Ew&Eh&_) Hstep _ _ _ _].
    split; [done|]. split; [done|]. right. exists rng, x, y.
    split_and!; [done..|]. eapply Forall2_impl; [done|]. apply reveal_step_content.
Qed.

Lemma Reachable_numbers s :
  Reachable s ->
  forall c, in_field (m_width s) (m_height s) c ->
    number_right (m_width s) (m_height s) (m_aMineTiles s) (c.1 + c.2 * m_width s).
Proof.
  induction 1 as [w h m b1 b2 pos Hv|s e Hs IH Hok]; intros c Hc.
  - apply number_right_fresh.
  - pose proof (Reachable_Inv s Hs) as HInv.
    pose proof HInv as (Hfield & _). field_ok_names Hfield.
    destruct (input_message e) eqn:Hmsg.
    + destruct (effect_contents s (handle e s) HInv (handle_effect s e Hmsg Hok))
        as (Ew & Eh & [Hsame|(rng & x & y & Hz & Hrng & Hin & Hsame)]);
        rewrite Ew, Eh in *.
      * eapply number_right_content; [|exact Hsame|by apply IH]. done.
      * eapply number_right_content; [|exact Hsame|]; [done|].
        unfold GenerateMines. simpl. by apply GenerateNumbers_right.
    + destruct e; try discriminate Hmsg; simpl in *.
      * unfold Resize in *. destruct (_ || _); simpl in *; [|by apply IH].
        apply number_right_fresh.
      * assert (Forall2 sweep_step (m_aMineTiles s)
                  (m_aMineTiles (ToggleQuestionMarkUsage s))) as Hstep.
        { destruct (m_bQuestionMarksEnabled s) eqn:Eq.
          - rewrite Toggle_tiles by done.
            apply Forall2_fmap_r, Forall_Forall2_diag, Forall_forall.
            intros t _. unfold compose, clear_question_mark, sweep_step.
            case_decide; simpl.
            + split_and!; [done..|]. by right.
            + split_and!; [done..|]. by left.
          - unfold ToggleQuestionMarkUsage. simpl. rewrite Eq. simpl. reflexivity. }
        assert (m_width (ToggleQuestionMarkUsage s) = m_width s
                /\ m_height (ToggleQuestionMarkUsage s) = m_height s) as [Ew Eh].
        { unfold ToggleQuestionMarkUsage. simpl. by destruct (negb (negb _)). }
        rewrite Ew, Eh in *.
        eapply number_right_content; [|exact Hstep|by apply IH].
        by intros t t' (?&_).
      * apply number_right_fresh.
Qed.

(** The numerals are right in every state of a run: a tile of the field
    that holds no mine holds the numeral of the switch in [GenerateNumbers]
    for the number of mines in its block, which is 8 at most; before the
    first click, when there is no mine, that is [EMPTY] everywhere. *)
Theorem numerals_count_mines (s : MinefieldWindow) (x y : Z) :
  Reachable s -> in_field (m_width s) (m_height s) (x, y) ->
  exists t : MineTile,
    tile_at (m_aMineTiles s) (tile_index (m_width s) x y) = Some t
    /\ (GetTileContent t <> MINE ->
        GetTileContent t
        = content_of_count
            (GetNumberAdjacentMines (m_width s) (m_height s) (m_aMineTiles s) x y)
        /\ GetNumberAdjacentMines (m_width s) (m_height s) (m_aMineTiles s) x y
           <= 8).
Proof.
  intros Hs Hin. pose proof (Reachable_Inv s Hs) as (Hok & _).
  field_ok_names Hok. pose proof Hin as [Hx Hy]. simpl in Hx, Hy.
  rewrite (tile_index_small _ _ x y ok_area Hx Hy).
  destruct (cell_index_bounds _ _ x y Hx Hy) as [? ?].
  assert (is_Some (tile_at (m_aMineTiles s) (x + y * m_width s))) as [t Ht].
  { unfold tile_at. apply lookup_lt_is_Some. lia. }
  exists t. split; [done|]. intros Hmine.
  pose proof (Reachable_numbers s Hs (x, y) Hin t Ht Hmine) as Hnum.
  simpl in Hnum. rewrite cell_index_mod, cell_index_div in Hnum by done.
  split; [done|].
  assert (length (filter (fun j => mine_at (m_aMineTiles s) j = true)
                    (GetTileGrid (m_width s) (m_height s) x y 1))
          < length (GetTileGrid (m_width s) (m_height s) x y 1))%nat as Hlt.
  { apply (filter_length_lt _ _ (x + y * m_width s)).
    - by apply GetTileGrid_1_centre.
    - unfold mine_at. rewrite Ht. intros Hm. by apply is_mine_true in Hm. }
  pose proof (GetTileGrid_1_length (m_width s) (m_height s) x y).
  rewrite GetNumberAdjacentMines_eq. lia.
Qed.

Lemma numerals_count_mines_witness :
  exists t : MineTile,
    tile_at (m_aMineTiles game_opened) (tile_index (m_width game_opened) 0 0)
    = Some t
    /\ (GetTileContent t <> MINE ->
        GetTileContent t
        = content_of_count
            (GetNumberAdjacentMines (m_width game_opened) (m_height game_opened)
               (m_aMineTiles game_opened) 0 0)
        /\ GetNumberAdjacentMines (m_width game_opened) (m_height game_opened)
             (m_aMineTiles game_opened) 0 0 <= 8).
Proof.
  apply (numerals_count_mines game_opened 0 0).
  - apply game_opened_reachable.
  - vm_compute. intuition discriminate.
Defined.

(** ** The course of a game *)

(** Once the game is won or lost the mouse changes nothing of it: after
    any mouse message the tiles, the counters, the loss, the configuration
    and the question-mark setting are what they were, and so are
    [m_bChording] and [m_lastGridPos]; only [m_bMouseTracking] and
    [m_bLRHeldAfterChord] may change. *)
Theorem game_over_freezes (s : MinefieldWindow) (e : Event) :
  IsGameActive s = false -> input_message e = true ->
  same_game s (handle e s)
  /\ m_bChording (handle e s) = m_bChording s
  /\ m_lastGridPos (handle e s) = m_lastGridPos s.
Proof.
  intros Hact Hmsg. destruct e; try discriminate Hmsg; simpl.
  - unfold OnLButtonDown. rewrite Hact. simpl. by unfold same_game.
  - unfold OnLButtonUp. rewrite Hact. simpl.
    destruct (_ && _); by unfold same_game.
  - unfold OnRButtonDown. rewrite Hact. simpl. by unfold same_game.
  - unfold OnRButtonUp. rewrite Hact. simpl.
    destruct (_ && _); by unfold same_game.
  - unfold OnMButtonDown. rewrite Hact. simpl. by unfold same_game.
  - unfold OnMButtonUp. rewrite Hact. by unfold same_game.
  - unfold OnMouseMove. destruct (negb (m_bMouseTracking s)).
    + assert (IsGameActive (if tracked then set_bMouseTracking true s else s)
              = false) as -> by (by destruct tracked).
      destruct tracked; by unfold same_game.
    + rewrite Hact. by unfold same_game.
  - unfold OnMouseLeave. rewrite Hact. by unfold same_game.
Qed.

Lemma game_over_freezes_witness :
  same_game game_over (handle (WM_MBUTTONDOWN MK_MBUTTON (0, 0)) game_over)
  /\ m_bChording (handle (WM_MBUTTONDOWN MK_MBUTTON (0, 0)) game_over)
     = m_bChording game_over
  /\ m_lastGridPos (handle (WM_MBUTTONDOWN MK_MBUTTON (0, 0)) game_over)
     = m_lastGridPos game_over.
Proof.
  apply (game_over_freezes game_over (WM_MBUTTONDOWN MK_MBUTTON (0, 0)));
    reflexivity.
Defined.

(** ** The right button *)

(** The cycle of the right button on a hidden tile without a mark: the
    first press sets a flag and counts it; with question marks switched off
    the second press takes the flag away and gives the state back; with
    question marks switched on the second press turns the flag into a
    question mark and the third gives the state back. *)
Theorem right_button_cycle (s : MinefieldWindow) (wParam x y : Z) (t : MineTile) :
  IsGameActive s = true -> m_bLRHeldAfterChord s = false ->
  held wParam MK_MBUTTON = false -> held wParam MK_LBUTTON = false ->
  tile_at (m_aMineTiles s) (tile_index (m_width s) x y) = Some t ->
  GetTileState t = HIDDEN -> GetTileMark t = NONE ->
  0 <= m_cFlaggedTiles s -> m_cFlaggedTiles s + 1 < UINT_modulus ->
  let press := OnRButtonDown wParam (x, y) in
  tile_at (m_aMineTiles (press s)) (tile_index (m_width s) x y)
  = Some (SetTileMark FLAG t)
  /\ m_cFlaggedTiles (press s) = m_cFlaggedTiles s + 1
  /\ (m_bQuestionMarksEnabled s = false -> press (press s) = s)
  /\ (m_bQuestionMarksEnabled s = true ->
      tile_at (m_aMineTiles (press (press s))) (tile_index (m_width s) x y)
      = Some (SetTileMark QUESTION_MARK t)
      /\ m_cFlaggedTiles (press (press s)) = m_cFlaggedTiles s
      /\ press (press (press s)) = s).
Proof.
  intros Hact Hheld HM HL Ht Hs Hm Hf0 Hf1 press.
  set (index := tile_index (m_width s) x y) in *.
  assert (forall s0 t0,
            IsGameActive s0 = true -> m_bLRHeldAfterChord s0 = false ->
            m_width s0 = m_width s ->
            tile_at (m_aMineTiles s0) index = Some t0 ->
            GetTileState t0 = HIDDEN ->
            press s0 = cycle_mark index t0 s0) as Hpress.
  { intros s0 t0 Hact0 Hheld0 Ew Ht0 Hs0. subst press. unfold OnRButtonDown.
    cbn [fst snd]. rewrite Hact0, HM, Hheld0, HL, Ew. simpl.
    fold index. rewrite Ht0. by destruct (decide _). }
  assert (forall m1 m2 tiles,
            tile_update (SetTileMark m2) index
              (tile_update (SetTileMark m1) index tiles)
            = tile_update (SetTileMark m2) index tiles) as Htwice.
  { intros m1 m2 tiles. unfold tile_update. apply list_eq. intros i.
    destruct (decide (Z.to_nat index = i)) as [<-|Hne].
    - rewrite !list_lookup_alter_eq. by destruct (tiles !! Z.to_nat index).
    - by rewrite !list_lookup_alter_ne. }
  assert (tile_update (SetTileMark NONE) index (m_aMineTiles s) = m_aMineTiles s)
    as Hback.
  { unfold tile_update. apply list_eq. intros i.
    destruct (decide (Z.to_nat index = i)) as [<-|Hne].
    - rewrite list_lookup_alter_eq. unfold tile_at in Ht. rewrite Ht. simpl.
      f_equal. apply tile_eq; simpl; congruence.
    - by rewrite list_lookup_alter_ne. }
  assert (forall mark,
            tile_at (tile_update (SetTileMark mark) index (m_aMineTiles s)) index
            = Some (SetTileMark mark t)) as Hat.
  { intros mark. unfold tile_at, tile_update in *.
    by rewrite list_lookup_alter_eq, Ht. }
  assert (press s
          = set_aMineTiles (tile_update (SetTileMark FLAG) index (m_aMineTiles s))
              (set_cFlaggedTiles (m_cFlaggedTiles s + 1) s)) as E1.
  { rewrite (Hpress s t) by done. unfold cycle_mark. rewrite Hm.
    by rewrite wrap_small by lia. }
  assert (press (press s)
          = set_aMineTiles
              (tile_update
                 (SetTileMark
                    (if m_bQuestionMarksEnabled s then QUESTION_MARK else NONE))
                 index (m_aMineTiles s))
              (set_cFlaggedTiles (m_cFlaggedTiles s) s)) as E2.
  { rewrite E1. rewrite (Hpress _ (SetTileMark FLAG t)); [|done..| |done].
    - unfold cycle_mark. simpl. rewrite Htwice.
      replace (m_cFlaggedTiles s + 1 - 1) with (m_cFlaggedTiles s) by lia.
      by rewrite wrap_small by lia.
    - simpl. apply Hat. }
  split; [rewrite E1; simpl; apply Hat|].
  split; [by rewrite E1|]. split.
  - intros Hq. rewrite E2, Hq, Hback. by destruct s.
  - intros Hq. rewrite Hq in E2. split; [rewrite E2; simpl; apply Hat|].
    split; [by rewrite E2|].
    rewrite (Hpress (press (press s)) (SetTileMark QUESTION_MARK t));
      rewrite ?E2; [|done..| |done].
    + unfold cycle_mark. simpl. rewrite Htwice, Hback. by destruct s.
    + simpl. apply Hat.
Qed.

Lemma right_button_cycle_witness :
  tile_at (m_aMineTiles (OnRButtonDown MK_RBUTTON (2, 0) game_opened))
    (tile_index (m_width game_opened) 2 0)
  = Some (SetTileMark FLAG (mkMineTile ONE HIDDEN NONE))
  /\ m_cFlaggedTiles (OnRButtonDown MK_RBUTTON (2, 0) game_opened)
     = m_cFlaggedTiles game_opened + 1
  /\ (m_bQuestionMarksEnabled game_opened = false ->
      OnRButtonDown MK_RBUTTON (2, 0)
        (OnRButtonDown MK_RBUTTON (2, 0) game_opened) = game_opened)
  /\ (m_bQuestionMarksEnabled game_opened = true ->
      tile_at
        (m_aMineTiles
           (OnRButtonDown MK_RBUTTON (2, 0)
              (OnRButtonDown MK_RBUTTON (2, 0) game_opened)))
        (tile_index (m_width game_opened) 2 0)
      = Some (SetTileMark QUESTION_MARK (mkMineTile ONE HIDDEN NONE))
      /\ m_cFlaggedTiles
           (OnRButtonDown MK_RBUTTON (2, 0)
              (OnRButtonDown MK_RBUTTON (2, 0) game_opened))
         = m_cFlaggedTiles game_opened
      /\ OnRButtonDown MK_RBUTTON (2, 0)
           (OnRButtonDown MK_RBUTTON (2, 0)
              (OnRButtonDown MK_RBUTTON (2, 0) game_opened))
         = game_opened).
Proof.
  apply (right_button_cycle game_opened MK_RBUTTON 2 0
           (mkMineTile ONE HIDDEN NONE)); reflexivity.
Defined.

(** ** Clicks *)

(** A tile that is revealed, or hidden under a flag, is out of reach of the
    left button: pressing and releasing it on the tile, outside a chord,
    gives the state back as it was.  And the right button sets no mark on a
    tile that is not hidden. *)
Theorem locked_tile_ignores_clicks (s : MinefieldWindow) (rng : Sampler)
    (wDown wUp x y : Z) (t : MineTile) :
  tile_at (m_aMineTiles s) (tile_index (m_width s) x y) = Some t ->
  m_bChording s = false -> m_bLRHeldAfterChord s = false ->
  (GetTileState t = REVEALED \/ GetTileState t = HIDDEN /\ GetTileMark t = FLAG
   -> held wDown MK_RBUTTON = false ->
   OnLButtonUp rng wUp (x, y) (OnLButtonDown wDown (x, y) s) = s)
  /\ (GetTileState t <> HIDDEN -> held wDown MK_LBUTTON = false ->
      OnRButtonDown wDown (x, y) s = s).
Proof.
  intros Ht Hch Hheld. split.
  - intros Hlocked HR.
    assert (OnLButtonDown wDown (x, y) s = s) as ->.
    { unfold OnLButtonDown. cbn [fst snd]. rewrite HR, Ht.
      destruct (_ && _); [|done].
      destruct (decide _) as [[Hs Hm]|_]; [|done].
      destruct Hlocked as [?|[_ ?]]; congruence. }
    unfold OnLButtonUp. cbn [fst snd]. rewrite Hch, Hheld, Ht. simpl.
    destruct (_ && _); [|done].
    destruct (decide _) as [Hs|_]; [|done].
    destruct Hlocked as [?|[? _]]; congruence.
  - intros Hs HL. unfold OnRButtonDown. cbn [fst snd]. rewrite HL, Ht.
    destruct (_ && _); [|done]. by destruct (decide _).
Qed.

Lemma locked_tile_ignores_clicks_witness :
  OnLButtonUp first_k_sampler 0 (1, 0) (OnLButtonDown MK_LBUTTON (1, 0) game_flagged)
  = game_flagged
  /\ OnRButtonDown MK_RBUTTON (0, 0) game_flagged = game_flagged.
Proof.
  split.
  - apply (locked_tile_ignores_clicks game_flagged first_k_sampler MK_LBUTTON 0 1 0
             (mkMineTile MINE HIDDEN FLAG)); try reflexivity.
    right. split; reflexivity.
  - apply (locked_tile_ignores_clicks game_flagged first_k_sampler MK_RBUTTON 0 0 0
             (mkMineTile ONE REVEALED NONE)); try reflexivity.
    discriminate.
Defined.

Lemma count_tiles_grows (R : relation MineTile) P tiles tiles' i t t' :
  (forall u u', R u u' -> P u = true -> P u' = true) ->
  Forall2 R tiles tiles' ->
  tiles !! i = Some t -> tiles' !! i = Some t' -> P t = false -> P t' = true ->
  count_tiles P tiles < count_tiles P tiles'.
Proof.
  intros HR H. revert i. induction H as [|u u' l l' Hu Hl IH]; intros i Ht Ht' Hf Ht1.
  - done.
  - pose proof (count_tiles_mono R P l l' HR Hl) as Hmono.
    destruct i as [|i]; simpl in *.
    + injection Ht as ->. injection Ht' as ->. rewrite Hf, Ht1. lia.
    + specialize (IH i Ht Ht' Hf Ht1).
      destruct (P u) eqn:Eu; [rewrite (HR _ _ Hu Eu); lia|].
      destruct (P u'); lia.
Qed.

(** A click opens a tile: in a state of a run in which the game is on and
    no chord is under way, pressing and releasing the left button on a
    hidden tile without a flag leaves that tile revealed, with its mark,
    and the count of revealed tiles higher; and the game is lost after the
    click iff the tile holds a mine. *)
Theorem click_reveals_tile (s : MinefieldWindow) (rng : Sampler)
    (wDown wUp x y : Z) (t : MineTile) :
  Reachable s -> IsGameActive s = true ->
  m_bChording s = false -> m_bLRHeldAfterChord s = false ->
  SampleVector_contract rng -> in_field (m_width s) (m_height s) (x, y) ->
  tile_at (m_aMineTiles s) (tile_index (m_width s) x y) = Some t ->
  GetTileState t = HIDDEN -> GetTileMark t <> FLAG ->
  held wDown MK_MBUTTON = false -> held wDown MK_RBUTTON = false ->
  held wUp MK_MBUTTON = false ->
  let s' := OnLButtonUp rng wUp (x, y) (OnLButtonDown wDown (x, y) s) in
  exists t' : MineTile,
    tile_at (m_aMineTiles s') (tile_index (m_width s) x y) = Some t'
    /\ GetTileState t' = REVEALED /\ GetTileMark t' = GetTileMark t
    /\ m_cRevealedTiles s < m_cRevealedTiles s'
    /\ (IsGameLost s' = true <-> GetTileContent t' = MINE).
Proof.
  intros Hs Hact Hch Hheld Hrng Hin Ht Hst Hm HM HR HMup s'.
  pose proof (Reachable_Inv s Hs) as HInv.
  set (index := tile_index (m_width s) x y) in *.
  set (s1 := set_aMineTiles
               (tile_update (SetTileState CLICKED) index (m_aMineTiles s)) s).
  assert (OnLButtonDown wDown (x, y) s = s1) as E1.
  { unfold OnLButtonDown. cbn [fst snd]. rewrite Hact, HM, Hheld, HR. simpl.
    fold index. rewrite Ht. destruct (decide _) as [_|Hno]; [done|].
    destruct Hno. by split. }
  assert (Inv s1) as HInv1.
  { rewrite <- E1. by apply Inv_OnLButtonDown. }
  assert (tile_at (m_aMineTiles s1) index = Some (SetTileState CLICKED t)) as Ht1.
  { unfold tile_at, tile_update in *. simpl.
    by rewrite list_lookup_alter_eq, Ht. }
  set (s2 := if m_cRevealedTiles s1 =? 0 then GenerateMines rng x y s1 else s1).
  assert (s' = SetTileRevealed x y s2) as E2.
  { subst s'. rewrite E1. unfold OnLButtonUp. cbn [fst snd].
    replace (IsGameActive s1) with true by done.
    replace (m_bLRHeldAfterChord s1) with false by done.
    replace (m_bChording s1) with false by done.
    rewrite HMup. simpl. change (m_width s1) with (m_width s). fold index.
    change (tile_update (SetTileState CLICKED) index (m_aMineTiles s))
      with (m_aMineTiles s1).
    rewrite Ht1. simpl. reflexivity. }
  pose proof HInv1 as (Hok1 & _). pose proof Hok1 as Hok1'. field_ok_names Hok1'.
  assert (index = x + y * m_width s) as Eindex.
  { destruct Hin as [Hx Hy]. by apply (tile_index_small _ (m_height s)). }
  assert (field_ok (m_width s) (m_height s) (m_cTiles s) (m_cMines s)
            (m_cRevealedTiles s) (m_cFlaggedTiles s) (m_bGameLost s)
            (m_aMineTiles s2)
          /\ exists t2, tile_at (m_aMineTiles s2) index = Some t2
                        /\ GetTileState t2 = CLICKED
                        /\ GetTileMark t2 = GetTileMark t
                        /\ (m_cRevealedTiles s = 0 -> GetTileContent t2 <> MINE)
                        /\ count_tiles is_revealed (m_aMineTiles s2)
                           = m_cRevealedTiles s)
    as (Hok2 & t2 & Ht2 & Hst2 & Hm2 & Hsafe & Hc2).
  { subst s2. change (m_cRevealedTiles s1) with (m_cRevealedTiles s).
    destruct (Z.eqb_spec (m_cRevealedTiles s) 0) as [Hz|Hnz].
    - split; [exact (field_ok_GenerateMines rng x y s1 Hok1 Hz)|].
      destruct (Forall2_tile_at_l _ _ _ _ _ (GenerateMines_step rng x y s1) Ht1)
        as (t2 & Ht2 & Hst2 & Hm2).
      exists t2. split_and!; [done..| |].
      + intros _. apply (GenerateMines_origin rng x y s1 t2); try done.
        rewrite Eindex in Ht2. exact Ht2.
      + pose proof (field_ok_GenerateMines rng x y s1 Hok1 Hz)
          as [_ _ _ _ _ _ Hc _ _ _ _]. done.
    - split; [done|]. exists (SetTileState CLICKED t).
      split_and!; [done..|lia|done]. }
  assert (m_bGameLost s = false) as Hlost.
  { unfold IsGameActive, IsGameLost in Hact. by destruct (m_bGameLost s). }
  assert (in_field (m_width s2) (m_height s2) (x, y)
          /\ m_width s2 = m_width s /\ m_cRevealedTiles s2 = m_cRevealedTiles s
          /\ m_bGameLost s2 = m_bGameLost s) as (Hin2 & Ew2 & Ec2 & El2).
  { subst s2. by destruct (_ =? 0). }
  assert (field_shape (m_width s2) (m_height s2) (m_aMineTiles s2)) as Hshape2.
  { assert (m_height s2 = m_height s) as -> by (subst s2; by destruct (_ =? 0)).
    rewrite Ew2. by eapply field_ok_shape. }
  destruct (SetTileRevealed_spec x y s2 Hshape2 Hin2)
    as [_ Hstep _ Hl Hor Hcount].
  rewrite <- E2 in *. rewrite Ew2, <- Eindex in *.
  destruct Hor as (t' & Ht' & Hor).
  destruct (Forall2_tile_at _ _ _ _ _ Hstep Ht') as (t2' & Ht2' & Hr).
  rewrite Ht2 in Ht2'. injection Ht2' as <-.
  pose proof (reveal_step_mark _ _ Hr) as Hm'.
  pose proof (reveal_step_content _ _ Hr) as Hcon'.
  assert (GetTileState t' = REVEALED) as Hrev
    by (destruct Hor as [?|?]; [done|congruence]).
  exists t'. split_and!; [done|done|congruence| |].
  - rewrite Hcount by (by rewrite Ec2). rewrite <- Hc2.
    unfold tile_at in Ht2, Ht'.
    eapply (count_tiles_grows reveal_step); [|exact Hstep|exact Ht2|exact Ht'| |].
    + intros u u' Hu Hp. apply is_revealed_true. apply is_revealed_true in Hp.
      by apply (reveal_step_revealed _ _ Hu).
    + apply is_revealed_false. congruence.
    + by apply is_revealed_true.
  - unfold IsGameLost. rewrite Hl, El2, Hlost, Hcon'. split.
    + intros [?|(u & Hu & _ & _ & Hmine)]; [done|congruence].
    + intros Hmine. right. exists t2. split_and!; [done|congruence|congruence|done].
Qed.

Lemma click_reveals_tile_witness :
  exists t' : MineTile,
    tile_at
      (m_aMineTiles
         (OnLButtonUp first_k_sampler 0 (2, 0)
            (OnLButtonDown MK_LBUTTON (2, 0) game_opened)))
      (tile_index (m_width game_opened) 2 0) = Some t'
    /\ GetTileState t' = REVEALED
    /\ GetTileMark t' = GetTileMark (mkMineTile ONE HIDDEN NONE)
    /\ m_cRevealedTiles game_opened
       < m_cRevealedTiles
           (OnLButtonUp first_k_sampler 0 (2, 0)
              (OnLButtonDown MK_LBUTTON (2, 0) game_opened))
    /\ (IsGameLost
          (OnLButtonUp first_k_sampler 0 (2, 0)
             (OnLButtonDown MK_LBUTTON (2, 0) game_opened)) = true
        <-> GetTileContent t' = MINE).
Proof.
  apply (click_reveals_tile game_opened first_k_sampler MK_LBUTTON 0 2 0
           (mkMineTile ONE HIDDEN NONE)); try reflexivity.
  - apply game_opened_reachable.
  - apply first_k_sampler_contract.
  - vm_compute. intuition discriminate.
  - discriminate.
Defined.

(** ** Winning *)

Lemma count_tiles_cover (P Q : MineTile -> bool) (tiles : list MineTile) :
  Forall (fun t => ~ (P t = true /\ Q t = true)) tiles ->
  count_tiles P tiles + count_tiles Q tiles = Z.of_nat (length tiles) ->
  Forall (fun t => P t = true \/ Q t = true) tiles.
Proof.
  induction 1 as [|t ts Ht Hts IH]; [constructor|].
  pose proof (count_tiles_disjoint P Q ts Hts). simpl. intros Hsum.
  destruct (P t) eqn:EP, (Q t) eqn:EQ; try (exfalso; lia);
    (constructor; [tauto|apply IH; lia]).
Qed.

Lemma count_tiles_split (P Q : MineTile -> bool) (tiles : list MineTile) :
  Forall (fun t => P t = true <-> Q t = false) tiles ->
  count_tiles P tiles + count_tiles Q tiles = Z.of_nat (length tiles).
Proof.
  induction 1 as [|t ts Ht _ IH]; [done|]. simpl.
  destruct (P t), (Q t); try lia; destruct Ht; intuition discriminate.
Qed.

(** With fewer mines than tiles the game is won exactly when the revealed
    tiles are the tiles without a mine: [IsGameWon] holds in a state of a
    run iff every tile is revealed iff it holds no mine. *)
Theorem won_iff_safe_tiles_revealed (s : MinefieldWindow) :
  Reachable s -> m_cMines s < m_cTiles s ->
  IsGameWon s = true
  <-> forall (i : nat) (t : MineTile),
        m_aMineTiles s !! i = Some t ->
        (GetTileState t = REVEALED <-> GetTileContent t <> MINE).
Proof.
  intros Hs Hlt. pose proof (Reachable_Inv s Hs) as (Hok & Hun & Hmines).
  field_ok_names Hok.
  pose proof (count_tiles_bounds is_revealed (m_aMineTiles s)) as Hb.
  pose proof (revealed_below_safe s Hs Hlt) as Hsafe.
  assert (m_bGameLost s = false ->
          Forall (fun t => ~ (is_revealed t = true /\ is_mine t = true))
            (m_aMineTiles s)) as Hdisj.
  { intros Hl. apply Forall_forall. intros t Ht [Hr Hm].
    apply is_revealed_true in Hr. apply is_mine_true in Hm.
    assert (m_bGameLost s = true) as Hl'; [|congruence].
    apply ok_lost, Exists_exists. by exists t. }
  unfold IsGameWon. split.
  - intros Hwon. destruct (m_bGameLost s) eqn:Hl; [discriminate|]. simpl in Hwon.
    apply andb_true_iff in Hwon as [Hn Hc]. apply Z.leb_le in Hn.
    apply Z.ltb_lt in Hc. specialize (Hsafe eq_refl).
    rewrite wrap_small in Hn by lia.
    pose proof (count_tiles_cover is_revealed is_mine (m_aMineTiles s)
                  (Hdisj eq_refl)) as Hcover.
    rewrite <- ok_revealed, (Hmines Hc Hlt) in Hcover.
    specialize (Hcover ltac:(lia)). specialize (Hdisj eq_refl).
    rewrite Forall_forall in Hcover, Hdisj.
    intros i t Ht. pose proof (list_elem_of_lookup_2 _ _ _ Ht) as Hin.
    specialize (Hcover t Hin). specialize (Hdisj t Hin).
    rewrite is_revealed_true, is_mine_true in Hcover, Hdisj.
    split; [tauto|]. intros Hm. tauto.
  - intros Hall.
    assert (Forall (fun t => is_revealed t = true <-> is_mine t = false)
              (m_aMineTiles s)) as Hsplit.
    { apply Forall_forall. intros t (i & Ht)%list_elem_of_lookup_1.
      rewrite is_revealed_true, is_mine_false. by apply (Hall i). }
    pose proof (count_tiles_split _ _ _ Hsplit) as Hsum.
    rewrite <- ok_revealed in Hsum.
    assert (m_bGameLost s = false) as Hl.
    { destruct (m_bGameLost s); [|done]. exfalso.
      pose proof (proj1 ok_lost eq_refl) as Hex.
      apply Exists_exists in Hex as (t & (i & Ht)%list_elem_of_lookup_1 & Hr & Hm).
      by apply (Hall i t Ht). }
    assert (0 < m_cRevealedTiles s) as Hc.
    { destruct (decide (m_cRevealedTiles s = 0)) as [Hz|]; [|lia].
      rewrite (unmined_count _ (Hun Hz)) in Hsum. lia. }
    rewrite (Hmines Hc Hlt) in Hsum. rewrite Hl. simpl.
    rewrite wrap_small by lia.
    apply andb_true_iff. split; [apply Z.leb_le|apply Z.ltb_lt]; lia.
Qed.

Lemma won_iff_safe_tiles_revealed_witness :
  IsGameWon game_opened = true
  <-> forall (i : nat) (t : MineTile),
        m_aMineTiles game_opened !! i = Some t ->
        (GetTileState t = REVEALED <-> GetTileContent t <> MINE).
Proof.
  apply (won_iff_safe_tiles_revealed game_opened game_opened_reachable).
  reflexivity.
Defined.

(** ** Starting over *)

(** [ResetGame] in a state of a run gives what the constructor gives for
    the same width, height and number of mines, except that it keeps the
    question-mark setting and [m_bMouseTracking]; the game is on again, and
    a second reset changes nothing. *)
Theorem reset_like_new (s : MinefieldWindow) :
  Reachable s ->
  ResetGame s
  = set_bMouseTracking (m_bMouseTracking s)
      (set_bQuestionMarksEnabled (m_bQuestionMarksEnabled s)
         (MinefieldWindow_new (m_width s) (m_height s) (m_cMines s)
            (m_bChording s) (m_bLRHeldAfterChord s) (m_lastGridPos s)))
  /\ IsGameActive (ResetGame s) = true
  /\ ResetGame (ResetGame s) = ResetGame s.
Proof.
  intros Hs. pose proof (Reachable_Inv s Hs) as (Hok & _). field_ok_names Hok.
  split; [|split; [|done]].
  - unfold ResetGame, MinefieldWindow_new. cbv zeta.
    assert (0 <= m_width s * m_height s) by nia.
    rewrite wrap_small by lia. rewrite <- ok_cTiles.
    replace (m_cTiles s <? m_cMines s) with false
      by (symmetry; apply Z.ltb_ge; lia).
    reflexivity.
  - unfold IsGameActive, IsGameLost, IsGameWon, ResetGame. simpl.
    by rewrite andb_false_r.
Qed.

Lemma reset_like_new_witness :
  ResetGame game_flagged
  = set_bMouseTracking (m_bMouseTracking game_flagged)
      (set_bQuestionMarksEnabled (m_bQuestionMarksEnabled game_flagged)
         (MinefieldWindow_new (m_width game_flagged) (m_height game_flagged)
            (m_cMines game_flagged) (m_bChording game_flagged)
            (m_bLRHeldAfterChord game_flagged) (m_lastGridPos game_flagged)))
  /\ IsGameActive (ResetGame game_flagged) = true
  /\ ResetGame (ResetGame game_flagged) = ResetGame game_flagged.
Proof. apply (reset_like_new game_flagged game_flagged_reachable). Defined.

(** ** Presses and moves *)

Lemma preview_status tiles tiles' :
  Forall2 preview_step tiles tiles' -> Forall2 status_step tiles tiles'.
Proof.
  intros H. eapply Forall2_impl; [done|]. by intros t t' (?&_&?&_).
Qed.

Lemma quiet_preview s s' tiles' :
  Forall2 preview_step (m_aMineTiles s) tiles' ->
  same_game (set_aMineTiles tiles' s) s' ->
  m_cRevealedTiles s' = m_cRevealedTiles s
  /\ m_bGameLost s' = m_bGameLost s
  /\ IsGameWon s' = IsGameWon s
  /\ Forall2 status_step (m_aMineTiles s) (m_aMineTiles s').
Proof.
  intros H (_&_&En&Em&Ec&_&El&_&Et). unfold IsGameWon.
  rewrite En, Em, Ec, El, Et. split_and!; [done..|]. by apply preview_status.
Qed.

Lemma quiet_nothing s s' :
  same_game s s' ->
  m_cRevealedTiles s' = m_cRevealedTiles s
  /\ m_bGameLost s' = m_bGameLost s
  /\ IsGameWon s' = IsGameWon s
  /\ Forall2 status_step (m_aMineTiles s) (m_aMineTiles s').
Proof.
  intros H. apply (quiet_preview s s' (m_aMineTiles s)); [reflexivity|].
  by destruct s.
Qed.

Lemma quiet_MovePos oldPos newPos r force s s' :
  same_game (MovePos oldPos newPos r force s) s' ->
  m_cRevealedTiles s' = m_cRevealedTiles s
  /\ m_bGameLost s' = m_bGameLost s
  /\ IsGameWon s' = IsGameWon s
  /\ Forall2 status_step (m_aMineTiles s) (m_aMineTiles s').
Proof.
  unfold MovePos. destruct (_ || _); [|apply quiet_nothing].
  apply quiet_preview. etrans; [apply release_tiles_step|apply press_tiles_step].
Qed.

(** Only the release of a button reveals: a button going down, a move of
    the mouse and the mouse leaving the window reveal no tile, change the
    content of none, and neither lose nor win the game. *)
Theorem only_release_reveals (s : MinefieldWindow) (e : Event) :
  input_message e = true -> button_release e = false ->
  m_cRevealedTiles (handle e s) = m_cRevealedTiles s
  /\ m_bGameLost (handle e s) = m_bGameLost s
  /\ IsGameWon (handle e s) = IsGameWon s
  /\ Forall2 status_step (m_aMineTiles s) (m_aMineTiles (handle e s)).
Proof.
  intros Hmsg Hrel.
  assert (forall x y, same_game
            (set_aMineTiles
               (press_tiles (GetTileGrid (m_width s) (m_height s) x y 1)
                  (m_aMineTiles s)) s)
            (BeginChord x y s)) as Hchord by (by unfold same_game).
  destruct e; try discriminate Hmsg; try discriminate Hrel; cbn [handle].
  - unfold OnLButtonDown.
    destruct (_ && _); [|apply quiet_nothing, same_game_refl].
    destruct (held wParam MK_RBUTTON);
      [eapply quiet_preview; [apply press_tiles_step|apply Hchord]|].
    destruct (tile_at _ _) as [t|] eqn:E; [|apply quiet_nothing, same_game_refl].
    destruct (decide _) as [[Hs Hm]|_]; [|apply quiet_nothing, same_game_refl].
    eapply quiet_preview; [by eapply press_one_step|apply same_game_refl].
  - unfold OnRButtonDown.
    destruct (_ && _ && _); [|apply quiet_nothing, same_game_refl].
    destruct (held wParam MK_LBUTTON);
      [eapply quiet_preview; [apply press_tiles_step|apply Hchord]|].
    destruct (tile_at _ _) as [t|] eqn:E; [|apply quiet_nothing, same_game_refl].
    destruct (decide _) as [Hs|_]; [|apply quiet_nothing, same_game_refl].
    destruct (cycle_mark_tiles (tile_index (m_width s) gridPos.1 gridPos.2) t s)
      as (mark & Et & _ & _ & _ & En & Em & Ec & El & _).
    unfold IsGameWon. rewrite En, Em, Ec, El, Et. split_and!; [done..|].
    apply tile_update_rel; [by intros ?|]. by intros u _.
  - unfold OnMButtonDown.
    destruct (_ && _); [|apply quiet_nothing, same_game_refl].
    destruct (negb _); [|apply quiet_nothing, same_game_refl].
    eapply quiet_preview; [apply press_tiles_step|apply Hchord].
  - unfold OnMouseMove. destruct (negb (m_bMouseTracking s)).
    + set (s0 := if tracked then set_bMouseTracking true s else s).
      assert (same_game s s0) as H0 by (subst s0; by destruct tracked).
      pose proof H0 as (_&_&En&Em&Ec&_&El&_&Et).
      unfold IsGameWon. rewrite <- En, <- Em, <- Ec, <- El, <- Et.
      fold (IsGameWon s0).
      destruct (IsGameActive s0); [|apply quiet_nothing, same_game_refl].
      destruct (held wParam MK_LBUTTON || held wParam MK_MBUTTON);
        [|apply quiet_nothing; by unfold same_game].
      destruct (held wParam MK_RBUTTON || held wParam MK_MBUTTON);
        (eapply quiet_MovePos; by unfold same_game).
    + destruct (IsGameActive s); [|apply quiet_nothing, same_game_refl].
      destruct (_ || _); [|apply quiet_nothing; by unfold same_game].
      destruct (m_bChording s); [eapply quiet_MovePos; by unfold same_game|].
      destruct (negb _); [eapply quiet_MovePos; by unfold same_game|].
      apply quiet_nothing; by unfold same_game.
  - unfold OnMouseLeave. cbv zeta.
    destruct (IsGameActive s); [|apply quiet_nothing; by unfold same_game].
    eapply quiet_preview; [apply release_tiles_step|by unfold same_game].
Qed.

Lemma only_release_reveals_witness :
  m_cRevealedTiles (handle (WM_MBUTTONDOWN MK_MBUTTON (0, 0)) game_flagged)
  = m_cRevealedTiles game_flagged
  /\ m_bGameLost (handle (WM_MBUTTONDOWN MK_MBUTTON (0, 0)) game_flagged)
     = m_bGameLost game_flagged
  /\ IsGameWon (handle (WM_MBUTTONDOWN MK_MBUTTON (0, 0)) game_flagged)
     = IsGameWon game_flagged
  /\ Forall2 status_step (m_aMineTiles game_flagged)
       (m_aMineTiles (handle (WM_MBUTTONDOWN MK_MBUTTON (0, 0)) game_flagged)).
Proof.
  apply (only_release_reveals game_flagged (WM_MBUTTONDOWN MK_MBUTTON (0, 0)));
    reflexivity.
Defined.

(** ** The reach of the flood *)

Lemma flood_visit_step fl tile :
  Forall2 reveal_step (fl_tiles fl) (fl_tiles (flood_visit fl tile)).
Proof.
  destruct (flood_visit_cases fl tile)
    as [->|(t & Ht & Hs & Hm & [[_ ->]|[_ ->]])]; [reflexivity|..]; simpl;
    by eapply reveal_one_step.
Qed.

Lemma flood_visits_step fl grid :
  Forall2 reveal_step (fl_tiles fl) (fl_tiles (foldl flood_visit fl grid)).
Proof.
  revert fl. induction grid as [|tile grid IH]; intros fl; simpl; [reflexivity|].
  etrans; [apply flood_visit_step|apply IH].
Qed.

Lemma settled_at_step tiles tiles' j :
  Forall2 reveal_step tiles tiles' -> settled_at tiles j -> settled_at tiles' j.
Proof.
  intros H (t & Ht & Hs).
  destruct (Forall2_tile_at_l _ _ _ _ _ H Ht) as (t' & Ht' & Hr).
  exists t'. split; [done|]. destruct Hs as [Hs|Hm].
  - left. by apply (reveal_step_revealed _ _ Hr).
  - right. by rewrite (reveal_step_mark _ _ Hr).
Qed.

Lemma flood_visit_settles fl tile :
  is_Some (tile_at (fl_tiles fl) tile) ->
  settled_at (fl_tiles (flood_visit fl tile)) tile.
Proof.
  intros [t Ht]. unfold flood_visit. rewrite Ht.
  destruct (decide _) as [[Hs Hm]|Hno].
  - assert (tile_at (tile_update (SetTileState REVEALED) tile (fl_tiles fl)) tile
            = Some (SetTileState REVEALED t)) as Ht'.
    { unfold tile_at, tile_update in *. by rewrite list_lookup_alter_eq, Ht. }
    destruct (decide _); simpl; exists (SetTileState REVEALED t); split;
      try done; by left.
  - exists t. split; [done|].
    destruct (decide (GetTileState t = REVEALED)); [by left|].
    destruct (decide (GetTileMark t = FLAG)); [by right|]. by destruct Hno.
Qed.

Lemma flood_visits_settle fl grid :
  (forall j, j ∈ grid -> is_Some (tile_at (fl_tiles fl) j)) ->
  forall j, j ∈ grid -> settled_at (fl_tiles (foldl flood_visit fl grid)) j.
Proof.
  revert fl. induction grid as [|tile grid IH]; intros fl Hgrid j Hj; simpl.
  - by apply elem_of_nil in Hj.
  - apply elem_of_cons in Hj as [->|Hj].
    + eapply settled_at_step; [apply flood_visits_step|].
      apply flood_visit_settles, Hgrid. by left.
    + apply IH; [|done]. intros k Hk.
      destruct (Hgrid k) as [t Ht]; [by right|].
      destruct (Forall2_tile_at_l _ _ _ _ _ (flood_visit_step fl tile) Ht)
        as (t' & Ht' & _). by exists t'.
Qed.

Lemma opened_empty_visit tiles0 fl tile j :
  0 <= tile ->
  opened_empty tiles0 (fl_tiles (flood_visit fl tile)) j ->
  opened_empty tiles0 (fl_tiles fl) j
  \/ (j = tile /\ fl_pushed (flood_visit fl tile) = fl_pushed fl ++ [tile]).
Proof.
  intros Htile (Hj & t0 & t & Ht0 & Ht & Hs0 & Hs & He).
  destruct (flood_visit_cases fl tile)
    as [E|(u & Hu & Hsu & Hmu & [[Heu E]|[Heu E]])]; rewrite E in *; simpl in *.
  - left. split; [done|]. by exists t0, t.
  - destruct (decide (j = tile)) as [->|Hne]; [by right|]. left.
    split; [done|]. exists t0, t. split_and!; try done.
    unfold tile_at, tile_update in *.
    by rewrite list_lookup_alter_ne in Ht by lia.
  - left. split; [done|]. exists t0, t. split_and!; try done.
    unfold tile_at, tile_update in *.
    destruct (decide (j = tile)) as [->|Hne].
    + rewrite list_lookup_alter_eq, Hu in Ht. injection Ht as <-. done.
    + by rewrite list_lookup_alter_ne in Ht by lia.
Qed.

Lemma flood_visit_closed w h tiles0 fl tile :
  0 <= tile ->
  flood_closed w h tiles0 fl -> flood_closed w h tiles0 (flood_visit fl tile).
Proof.
  intros Htile [Hdone Hpushed]. split.
  - intros p Hp Hq j Hj.
    eapply settled_at_step; [apply flood_visit_step|].
    apply (Hdone p); [| |done];
      destruct (flood_visit_cases fl tile)
        as [E|(u & _ & _ & _ & [[_ E]|[_ E]])]; rewrite E in *; simpl in *;
      try done.
    + apply elem_of_app in Hp as [? | ->%list_elem_of_singleton]; [done|].
      destruct Hq. apply elem_of_app. right. by apply list_elem_of_singleton.
    + intros Hin. apply Hq, elem_of_app. by left.
  - intros j Hopen.
    destruct (opened_empty_visit tiles0 fl tile j Htile Hopen) as [Hold|[-> ->]].
    + apply Hpushed in Hold.
      destruct (flood_visit_cases fl tile)
        as [->|(u & _ & _ & _ & [[_ ->]|[_ ->]])]; simpl; try done.
      apply elem_of_app. by left.
    + apply elem_of_app. right. by apply list_elem_of_singleton.
Qed.

Lemma flood_visits_closed w h tiles0 fl grid :
  Forall (fun j => 0 <= j) grid ->
  flood_closed w h tiles0 fl ->
  flood_closed w h tiles0 (foldl flood_visit fl grid).
Proof.
  revert fl. induction grid as [|tile grid IH]; intros fl Hgrid H; simpl; [done|].
  apply Forall_cons in Hgrid as [Htile Hgrid].
  apply IH; [done|]. by apply flood_visit_closed.
Qed.

Lemma flood_visits_queue fl grid :
  exists more, fl_queue (foldl flood_visit fl grid) = fl_queue fl ++ more.
Proof.
  revert fl. induction grid as [|tile grid IH]; intros fl; simpl.
  - exists []. by rewrite app_nil_r.
  - destruct (IH (flood_visit fl tile)) as [more ->].
    destruct (flood_visit_cases fl tile)
      as [->|(u & _ & _ & _ & [[_ ->]|[_ ->]])]; simpl; [by exists more| |by exists more].
    exists ([tile] ++ more). by rewrite app_assoc.
Qed.

Lemma flood_turn_closed w h tiles0 front rest fl :
  field_shape w h (fl_tiles fl) ->
  fl_queue fl = front :: rest ->
  flood_closed w h tiles0 fl ->
  flood_closed w h tiles0 (flood_turn w h front fl)
  /\ field_shape w h (fl_tiles (flood_turn w h front fl)).
Proof.
  intros (Hw & Hh & Ha & Hlen) Hqueue Hclosed. unfold flood_turn.
  set (grid := GetTileGrid w h (front mod w) (front / w) 1).
  set (fl' := foldl flood_visit fl grid).
  assert (forall j, j ∈ grid -> 0 <= j < w * h) as Hrange.
  { intros j Hj. by eapply GetTileGrid_range. }
  pose proof (flood_visits_step fl grid) as Hstep. fold fl' in Hstep.
  assert (flood_closed w h tiles0 fl') as [Hdone Hpushed].
  { apply flood_visits_closed; [|done]. apply Forall_forall.
    intros j Hj. apply Hrange in Hj. lia. }
  assert (forall j, j ∈ grid -> settled_at (fl_tiles fl') j) as Hsettled.
  { apply flood_visits_settle. intros j Hj. apply Hrange in Hj.
    unfold tile_at. apply lookup_lt_is_Some. lia. }
  destruct (flood_visits_queue fl grid) as [more Hmore]. fold fl' in Hmore.
  rewrite Hqueue in Hmore. simpl.
  split; [split; simpl|].
  - intros p Hp Hq. rewrite Hmore in Hq. simpl in Hq.
    destruct (decide (p = front)) as [->|Hne]; [exact Hsettled|].
    apply Hdone; [done|]. rewrite Hmore. intros [?|?]%elem_of_cons; done.
  - done.
  - unfold field_shape. by rewrite <- (Forall2_length _ _ _ Hstep).
Qed.

Lemma flood_loop_closed w h tiles0 fuel fl fl' :
  field_shape w h (fl_tiles fl) ->
  flood_closed w h tiles0 fl ->
  flood_loop w h fuel fl = Some fl' ->
  forall j, opened_empty tiles0 (fl_tiles fl') j ->
            block_settled w h (fl_tiles fl') j.
Proof.
  revert fl. induction fuel as [|fuel IH]; intros fl Hshape Hclosed; simpl.
  - destruct (fl_queue fl) eqn:E; [|done]. intros [= <-] j Hj.
    destruct Hclosed as [Hdone Hpushed]. apply Hdone; [by apply Hpushed|].
    rewrite E. apply not_elem_of_nil.
  - destruct (fl_queue fl) as [|front rest] eqn:E.
    + intros [= <-] j Hj.
      destruct Hclosed as [Hdone Hpushed]. apply Hdone; [by apply Hpushed|].
      rewrite E. apply not_elem_of_nil.
    + destruct (flood_turn_closed w h tiles0 front rest fl Hshape E Hclosed)
        as [Hclosed' Hshape'].
      by apply IH.
Qed.

Lemma opened_empty_one tiles index t j :
  tile_at tiles index = Some t ->
  opened_empty tiles (tile_update (SetTileState REVEALED) index tiles) j ->
  0 <= index -> j = index /\ GetTileContent t = EMPTY.
Proof.
  intros Ht (Hj & t0 & t' & Ht0 & Ht' & Hs0 & Hs' & He) Hindex.
  unfold tile_at, tile_update in *.
  destruct (decide (j = index)) as [->|Hne].
  - rewrite list_lookup_alter_eq, Ht in Ht'. injection Ht' as <-. done.
  - rewrite list_lookup_alter_ne in Ht' by lia. congruence.
Qed.

Lemma SetTileRevealed_closed x y s :
  field_shape (m_width s) (m_height s) (m_aMineTiles s) ->
  in_field (m_width s) (m_height s) (x, y) ->
  forall j,
    opened_empty (m_aMineTiles s) (m_aMineTiles (SetTileRevealed x y s)) j ->
    block_settled (m_width s) (m_height s)
      (m_aMineTiles (SetTileRevealed x y s)) j.
Proof.
  intros Hshape [Hx Hy] j. simpl in Hx, Hy.
  pose proof Hshape as (Hw & Hh & Ha & Hlen).
  destruct (cell_index_bounds _ _ x y Hx Hy) as [Hi0 Hi1].
  assert (forall tiles, ~ opened_empty tiles tiles j) as Hsame.
  { intros tiles (_ & t0 & t & Ht0 & Ht & Hs0 & Hs & _). congruence. }
  unfold SetTileRevealed. cbv zeta.
  rewrite (tile_index_small _ _ x y Ha Hx Hy).
  destruct (tile_at (m_aMineTiles s) (x + y * m_width s)) as [t|] eqn:Ht;
    [|by intros ?%Hsame].
  destruct (decide _) as [[Hs Hm]|_]; [|by intros ?%Hsame].
  destruct (decide (GetTileContent t = MINE)) as [Hmine|Hmine].
  { simpl. intros Hopen.
    destruct (opened_empty_one _ _ _ _ Ht Hopen) as [_ He]; [lia|congruence]. }
  destruct (decide (GetTileContent t = EMPTY)) as [He|He].
  2:{ simpl. intros Hopen.
      destruct (opened_empty_one _ _ _ _ Ht Hopen) as [_ He']; [lia|congruence]. }
  rewrite (seed_index _ _ x y Ha Hx Hy).
  destruct (flood_from_origin _ _ _ (m_cRevealedTiles s) x y t Hshape Hx Hy Ht Hs Hm He)
    as (fl & Hfl & _).
  rewrite Hfl. simpl.
  eapply flood_loop_closed; [| |exact Hfl]; simpl.
  - unfold field_shape, tile_update. by rewrite length_alter.
  - split; simpl.
    + intros p Hp Hq. done.
    + intros k Hopen. apply list_elem_of_singleton.
      destruct (opened_empty_one _ _ _ _ Ht Hopen) as [-> _]; [lia|done].
Qed.

(** The flood leaves no gap: after [SetTileRevealed(x, y)], around every
    [EMPTY] tile that the call has revealed, every tile of the block is
    revealed or carries a flag. *)
Theorem flood_reveals_around_empty (s : MinefieldWindow) (x y : Z) :
  field_shape (m_width s) (m_height s) (m_aMineTiles s) ->
  in_field (m_width s) (m_height s) (x, y) ->
  forall (j : Z) (t0 t : MineTile),
    0 <= j ->
    tile_at (m_aMineTiles s) j = Some t0 ->
    tile_at (m_aMineTiles (SetTileRevealed x y s)) j = Some t ->
    GetTileState t0 <> REVEALED -> GetTileState t = REVEALED ->
    GetTileContent t = EMPTY ->
    forall k : Z,
      k ∈ GetTileGrid (m_width s) (m_height s) (j mod m_width s) (j / m_width s) 1 ->
      exists u : MineTile,
        tile_at (m_aMineTiles (SetTileRevealed x y s)) k = Some u
        /\ (GetTileState u = REVEALED \/ GetTileMark u = FLAG).
Proof.
  intros Hshape Hin j t0 t Hj Ht0 Ht Hs0 Hs He k Hk.
  apply (SetTileRevealed_closed x y s Hshape Hin j); [|done].
  split; [done|]. by exists t0, t.
Qed.


Lemma flood_reveals_around_empty_witness :
  exists u : MineTile,
    tile_at (m_aMineTiles (SetTileRevealed 0 0 game_mineless)) 1 = Some u
    /\ (GetTileState u = REVEALED \/ GetTileMark u = FLAG).
Proof.
  apply (flood_reveals_around_empty game_mineless 0 0) with
    (j := 0) (t0 := mkMineTile EMPTY CLICKED NONE)
    (t := mkMineTile EMPTY REVEALED NONE); try reflexivity.
  - unfold field_shape. rewrite UINT_modulus_eq. simpl. lia.
  - vm_compute. intuition discriminate.
  - discriminate.
  - apply (bool_decide_unpack _). vm_compute. reflexivity.
Defined.

(** ** The opening click *)

(** The two messages of a click on a hidden tile without a flag, while
    nothing is revealed: the press marks the tile as pressed, the release
    places the mines and reveals the tile. *)
Lemma opening_click_steps s rng wDown wUp x y t :
  Reachable s -> m_cRevealedTiles s = 0 ->
  m_bChording s = false -> m_bLRHeldAfterChord s = false ->
  in_field (m_width s) (m_height s) (x, y) ->
  tile_at (m_aMineTiles s) (x + y * m_width s) = Some t ->
  GetTileState t = HIDDEN -> GetTileMark t <> FLAG ->
  held wDown MK_MBUTTON = false -> held wDown MK_RBUTTON = false ->
  held wUp MK_MBUTTON = false ->
  let s1 :=
    set_aMineTiles
      (tile_update (SetTileState CLICKED) (x + y * m_width s) (m_aMineTiles s)) s in
  OnLButtonUp rng wUp (x, y) (OnLButtonDown wDown (x, y) s)
  = SetTileRevealed x y (GenerateMines rng x y s1)
  /\ Inv s1
  /\ tile_at (m_aMineTiles s1) (x + y * m_width s) = Some (SetTileState CLICKED t).
Proof.
  intros Hs Hz Hch Hheld Hin Ht Hst Hm HM HR HMup s1.
  pose proof (Reachable_Inv s Hs) as HInv.
  pose proof HInv as (Hok & _). field_ok_names Hok.
  pose proof Hin as [Hx Hy]. simpl in Hx, Hy.
  pose proof (tile_index_small _ _ x y ok_area Hx Hy) as Eindex.
  assert (IsGameActive s = true) as Hact.
  { unfold IsGameActive, IsGameLost, IsGameWon.
    rewrite (Inv_not_lost s HInv Hz), Hz. simpl. by rewrite andb_false_r. }
  assert (OnLButtonDown wDown (x, y) s = s1) as E1.
  { unfold OnLButtonDown. cbn [fst snd]. rewrite Hact, HM, Hheld, HR, Eindex.
    simpl. rewrite Ht. destruct (decide _) as [_|Hno]; [done|].
    destruct Hno. by split. }
  assert (tile_at (m_aMineTiles s1) (x + y * m_width s)
          = Some (SetTileState CLICKED t)) as Ht1.
  { unfold tile_at, tile_update in *. simpl.
    by rewrite list_lookup_alter_eq, Ht. }
  split; [|split; [|done]].
  - rewrite E1. unfold OnLButtonUp. cbn [fst snd].
    replace (IsGameActive s1) with true by done.
    replace (m_bLRHeldAfterChord s1) with false by done.
    replace (m_bChording s1) with false by done.
    rewrite HMup. simpl. change (m_width s1) with (m_width s). rewrite Eindex.
    change (tile_update (SetTileState CLICKED) (x + y * m_width s) (m_aMineTiles s))
      with (m_aMineTiles s1).
    rewrite Ht1. simpl. change (m_cRevealedTiles s1) with (m_cRevealedTiles s).
    by rewrite Hz.
  - rewrite <- E1. by apply Inv_OnLButtonDown.
Qed.

Lemma count_tiles_zero P tiles :
  count_tiles P tiles = 0 -> Forall (fun t => P t = false) tiles.
Proof.
  intros Hz. apply Forall_forall. intros t Ht.
  destruct (P t) eqn:E; [|done].
  assert (0 < count_tiles P tiles); [|lia].
  apply count_tiles_pos_Exists, Exists_exists. by exists t.
Qed.

Lemma count_tiles_all P tiles :
  Forall (fun t => P t = true) tiles ->
  count_tiles P tiles = Z.of_nat (length tiles).
Proof. induction 1 as [|t ts Ht _ IH]; simpl; [done|]. rewrite Ht. lia. Qed.

(** The first click on a field with at least nine tiles more than mines
    opens at least a block: the tile under the click comes out [EMPTY] and
    revealed, and every tile of the block around it is revealed, or left
    under its flag. *)
Theorem opening_click_opens_block (s : MinefieldWindow) (rng : Sampler)
    (wDown wUp x y : Z) (t : MineTile) :
  Reachable s -> m_cRevealedTiles s = 0 -> 9 <= m_cTiles s - m_cMines s ->
  m_bChording s = false -> m_bLRHeldAfterChord s = false ->
  SampleVector_contract rng -> in_field (m_width s) (m_height s) (x, y) ->
  tile_at (m_aMineTiles s) (x + y * m_width s) = Some t ->
  GetTileState t = HIDDEN -> GetTileMark t <> FLAG ->
  held wDown MK_MBUTTON = false -> held wDown MK_RBUTTON = false ->
  held wUp MK_MBUTTON = false ->
  let s' := OnLButtonUp rng wUp (x, y) (OnLButtonDown wDown (x, y) s) in
  (exists t' : MineTile,
     tile_at (m_aMineTiles s') (x + y * m_width s) = Some t'
     /\ GetTileState t' = REVEALED /\ GetTileContent t' = EMPTY)
  /\ forall k : Z,
       k ∈ GetTileGrid (m_width s) (m_height s) x y 1 ->
       exists u : MineTile,
         tile_at (m_aMineTiles s') k = Some u
         /\ (GetTileState u = REVEALED \/ GetTileMark u = FLAG).
Proof.
  intros Hs Hz Hspare Hch Hheld Hrng Hin Ht Hst Hm HM HR HMup s'.
  destruct (opening_click_steps s rng wDown wUp x y t) as (E & HInv1 & Ht1);
    try done.
  subst s'. rewrite E. clear E.
  set (s1 := set_aMineTiles
               (tile_update (SetTileState CLICKED) (x + y * m_width s)
                  (m_aMineTiles s)) s) in *.
  pose proof HInv1 as (Hok1 & _). pose proof Hok1 as Hok1'. field_ok_names Hok1'.
  pose proof Hin as [Hx Hy]. simpl in Hx, Hy.
  destruct (cell_index_bounds _ _ x y Hx Hy) as [Hi0 Hi1].
  change (m_width s1) with (m_width s) in *.
  change (m_height s1) with (m_height s) in *.
  change (m_cTiles s1) with (m_cTiles s) in *.
  change (m_cMines s1) with (m_cMines s) in *.
  destruct (GenerateMines_mines rng x y s1 HInv1 Hz Hin Hrng) as (Hmines & _).
  cbv zeta in Hmines.
  change (m_width s1) with (m_width s) in Hmines.
  change (m_height s1) with (m_height s) in Hmines.
  change (m_cTiles s1) with (m_cTiles s) in Hmines.
  change (m_cMines s1) with (m_cMines s) in Hmines.
  assert (exclusion_radius (m_cTiles s) (m_cMines s) = 1) as Hradius.
  { apply exclusion_radius_cases; [done|lia|done]. }
  rewrite Hradius in Hmines.
  set (s2 := GenerateMines rng x y s1) in *.
  assert (forall j, j ∈ GetTileGrid (m_width s) (m_height s) x y 1 ->
            mine_at (m_aMineTiles s2) j = false) as Hclear.
  { intros j Hj. destruct (mine_at (m_aMineTiles s2) j) eqn:E; [|done].
    destruct (Hmines j) as [_ Hout]; [by eapply GetTileGrid_nonneg|done|].
    by destruct Hout. }
  assert (GetNumberAdjacentMines (m_width s) (m_height s) (m_aMineTiles s2) x y = 0)
    as Hnone.
  { rewrite GetNumberAdjacentMines_eq.
    assert (forall l : list Z,
              (forall j, j ∈ l -> mine_at (m_aMineTiles s2) j = false) ->
              filter (fun j => mine_at (m_aMineTiles s2) j = true) l = []) as Hf.
    { induction l as [|j l IH]; intros Hl; [done|].
      rewrite filter_cons. destruct (decide _) as [Hj|_].
      - rewrite Hl in Hj by (by left). discriminate.
      - apply IH. intros k Hk. apply Hl. by right. }
    by rewrite Hf. }
  destruct (Forall2_tile_at_l _ _ _ _ _ (GenerateMines_step rng x y s1) Ht1)
    as (t2 & Ht2 & Hst2 & Hm2). fold s2 in Ht2.
  assert (GetTileContent t2 = EMPTY) as He2.
  { pose proof (GenerateNumbers_right (m_width s) (m_height s)
                  (place_mines
                     (rng (tiles_to_toggle (length (m_aMineTiles s1)) 0
                             (GetTileGrid (m_width s) (m_height s) x y
                                (exclusion_radius (m_cTiles s) (m_cMines s))))
                        (m_cMines s))
                     (m_aMineTiles s1))
                  (x, y) ok_area Hin t2 Ht2) as Hnum.
    simpl in Hnum. rewrite cell_index_mod, cell_index_div in Hnum by done.
    change (GenerateNumbers _ _ _) with (m_aMineTiles s2) in Hnum.
    rewrite Hnone in Hnum. apply Hnum.
    pose proof (Hclear (x + y * m_width s)
                  (GetTileGrid_1_centre _ _ x y ok_area Hx Hy)) as Hc.
    unfold mine_at in Hc. rewrite Ht2 in Hc. by apply is_mine_false. }
  pose proof (field_ok_GenerateMines rng x y s1 Hok1 Hz) as Hok2. fold s2 in Hok2.
  pose proof (field_ok_shape _ _ _ _ _ _ _ _ Hok2) as Hshape2.
  destruct (SetTileRevealed_spec x y s2 Hshape2 Hin) as [_ Hstep _ _ Hor _].
  change (m_width s2) with (m_width s) in *.
  change (m_height s2) with (m_height s) in *.
  destruct Hor as (t' & Ht' & Hor).
  destruct (Forall2_tile_at _ _ _ _ _ Hstep Ht') as (t2' & Ht2' & Hr).
  rewrite Ht2 in Ht2'. injection Ht2' as <-.
  assert (GetTileState t' = REVEALED) as Hrev.
  { destruct Hor as [?|Hf]; [done|].
    rewrite (reveal_step_mark _ _ Hr), Hm2 in Hf. simpl in Hf. done. }
  assert (GetTileContent t' = EMPTY) as He'
    by (by rewrite (reveal_step_content _ _ Hr)).
  split; [by exists t'|].
  intros k Hk.
  apply (SetTileRevealed_closed x y s2 Hshape2 Hin (x + y * m_width s)).
  - split; [lia|]. exists t2, t'. split_and!; try done. rewrite Hst2. simpl. done.
  - change (m_width s2) with (m_width s). change (m_height s2) with (m_height s).
    by rewrite cell_index_mod, cell_index_div.
Qed.

Lemma opening_click_opens_block_witness :
  (exists t' : MineTile,
     tile_at
       (m_aMineTiles
          (OnLButtonUp first_k_sampler 0 (1, 2)
             (OnLButtonDown MK_LBUTTON (1, 2)
                (MinefieldWindow_new 4 4 3 false false (0, 0)))))
       (1 + 2 * m_width (MinefieldWindow_new 4 4 3 false false (0, 0)))
     = Some t'
     /\ GetTileState t' = REVEALED /\ GetTileContent t' = EMPTY)
  /\ forall k : Z,
       k ∈ GetTileGrid (m_width (MinefieldWindow_new 4 4 3 false false (0, 0)))
             (m_height (MinefieldWindow_new 4 4 3 false false (0, 0))) 1 2 1 ->
       exists u : MineTile,
         tile_at
           (m_aMineTiles
              (OnLButtonUp first_k_sampler 0 (1, 2)
                 (OnLButtonDown MK_LBUTTON (1, 2)
                    (MinefieldWindow_new 4 4 3 false false (0, 0))))) k
         = Some u
         /\ (GetTileState u = REVEALED \/ GetTileMark u = FLAG).
Proof.
  apply (opening_click_opens_block
           (MinefieldWindow_new 4 4 3 false false (0, 0)) first_k_sampler
           MK_LBUTTON 0 1 2 MineTile_default); try reflexivity.
  - apply Reachable_new. unfold valid_configuration, is_UINT.
    rewrite UINT_modulus_eq. lia.
  - vm_compute. discriminate.
  - apply first_k_sampler_contract.
  - vm_compute. intuition discriminate.
  - discriminate.
Defined.

(** ** A field without mines *)

(** On a field without mines and without flags the first click opens
    everything: after the press and the release of the left button on any
    tile every tile is revealed, the count of revealed tiles is the number
    of tiles, and the game is won. *)
Theorem mineless_field_opens_entirely (s : MinefieldWindow) (rng : Sampler)
    (wDown wUp x y : Z) (t : MineTile) :
  Reachable s -> m_cRevealedTiles s = 0 ->
  m_cMines s = 0 -> m_cFlaggedTiles s = 0 ->
  m_bChording s = false -> m_bLRHeldAfterChord s = false ->
  SampleVector_contract rng -> in_field (m_width s) (m_height s) (x, y) ->
  tile_at (m_aMineTiles s) (x + y * m_width s) = Some t ->
  GetTileState t = HIDDEN ->
  held wDown MK_MBUTTON = false -> held wDown MK_RBUTTON = false ->
  held wUp MK_MBUTTON = false ->
  let s' := OnLButtonUp rng wUp (x, y) (OnLButtonDown wDown (x, y) s) in
  Forall (fun u => GetTileState u = REVEALED) (m_aMineTiles s')
  /\ m_cRevealedTiles s' = m_cTiles s
  /\ IsGameWon s' = true.
Proof.
  intros Hs Hz Hm0 Hf0 Hch Hheld Hrng Hin Ht Hst HM HR HMup s'.
  pose proof (Reachable_Inv s Hs) as (Hok & _). field_ok_names Hok.
  pose proof Hin as [Hx Hy]. simpl in Hx, Hy.
  destruct (cell_index_bounds _ _ x y Hx Hy) as [Hi0 Hi1].
  assert (Forall (fun u => GetTileMark u <> FLAG) (m_aMineTiles s)) as Hnoflag.
  { eapply Forall_impl; [apply count_tiles_zero; by rewrite <- ok_flagged|].
    intros u Hu. by apply is_flagged_false. }
  assert (GetTileMark t <> FLAG) as Hm.
  { rewrite Forall_forall in Hnoflag. apply Hnoflag.
    unfold tile_at in Ht. by eapply list_elem_of_lookup_2. }
  destruct (opening_click_steps s rng wDown wUp x y t) as (E & HInv1 & Ht1);
    try done.
  subst s'. rewrite E. clear E.
  set (s1 := set_aMineTiles
               (tile_update (SetTileState CLICKED) (x + y * m_width s)
                  (m_aMineTiles s)) s) in *.
  pose proof HInv1 as (Hok1 & _).
  destruct (GenerateMines_mines rng x y s1 HInv1 Hz Hin Hrng)
    as (_ & Hcount & Hlen).
  cbv zeta in Hcount, Hlen.
  pose proof (GenerateMines_step rng x y s1) as Hgen.
  pose proof (field_ok_GenerateMines rng x y s1 Hok1 Hz) as Hok2.
  set (s2 := GenerateMines rng x y s1) in *.
  change (m_width s1) with (m_width s) in *.
  change (m_height s1) with (m_height s) in *.
  change (m_cTiles s1) with (m_cTiles s) in *.
  change (m_cMines s1) with (m_cMines s) in *.
  change (m_cRevealedTiles s1) with (m_cRevealedTiles s) in *.
  assert (unmined (m_aMineTiles s2)) as Hunmined.
  { eapply Forall_impl; [apply (count_tiles_zero is_mine)|].
    - rewrite Hcount, Hlen; lia.
    - intros u Hu. by apply is_mine_false. }
  pose proof (field_ok_shape _ _ _ _ _ _ _ _ Hok2) as Hshape2.
  pose proof Hshape2 as (_ & _ & _ & Hlen2).
  assert (forall i u, 0 <= i -> tile_at (m_aMineTiles s2) i = Some u ->
            GetTileContent u = EMPTY /\ GetTileState u <> REVEALED
            /\ GetTileMark u <> FLAG) as Htiles2.
  { intros i u Hi Hu.
    assert (i < m_width s * m_height s) as Hi'.
    { unfold tile_at in Hu. apply lookup_lt_Some in Hu. lia. }
    destruct (index_cell (m_width s) (m_height s) i) as (Hcx & Hcy & Ei);
      [lia|done|].
    split_and!.
    - pose proof (GenerateNumbers_right (m_width s) (m_height s)
                    (place_mines
                       (rng (tiles_to_toggle (length (m_aMineTiles s1)) 0
                               (GetTileGrid (m_width s) (m_height s) x y
                                  (exclusion_radius (m_cTiles s) (m_cMines s))))
                          (m_cMines s))
                       (m_aMineTiles s1))
                    (i mod m_width s, i / m_width s) ok_area
                    (conj Hcx Hcy) u) as Hnum.
      simpl in Hnum. rewrite <- Ei in Hnum.
      change (GenerateNumbers _ _ _) with (m_aMineTiles s2) in Hnum.
      rewrite (GetNumberAdjacentMines_unmined _ _ _ _ _ Hunmined) in Hnum.
      apply Hnum; [done|]. unfold unmined in Hunmined.
      rewrite Forall_forall in Hunmined. apply Hunmined.
      unfold tile_at in Hu. by eapply list_elem_of_lookup_2.
    - pose proof Hok2 as [_ _ _ _ _ _ Hc2 _ _ _ _]. rewrite Hz in Hc2.
      pose proof (no_revealed_tile _ (eq_sym Hc2)) as Hnone.
      rewrite Forall_forall in Hnone. apply Hnone.
      unfold tile_at in Hu. by eapply list_elem_of_lookup_2.
    - destruct (Forall2_tile_at _ _ _ _ _ Hgen Hu) as (u1 & Hu1 & _ & Hm1).
      rewrite Hm1. unfold s1, tile_at, tile_update in Hu1. simpl in Hu1.
      rewrite Forall_forall in Hnoflag.
      destruct (decide (Z.to_nat (x + y * m_width s) = Z.to_nat i)) as [Ei'|Hne].
      + rewrite <- Ei', list_lookup_alter_eq in Hu1. unfold tile_at in Ht.
        rewrite Ht in Hu1. injection Hu1 as <-. done.
      + rewrite list_lookup_alter_ne in Hu1 by done. apply Hnoflag.
        by eapply list_elem_of_lookup_2. }
  destruct (SetTileRevealed_spec x y s2 Hshape2 Hin)
    as [(Ew&Eh&En&Em&_) Hstep _ _ Hor _].
  pose proof (field_ok_reveal x y s2 _ Hok2 Hin
                (SetTileRevealed_spec x y s2 Hshape2 Hin)) as Hok'.
  pose proof (SetTileRevealed_closed x y s2 Hshape2 Hin) as Hclosed.
  set (s' := SetTileRevealed x y s2) in *.
  change (m_width s2) with (m_width s) in *.
  change (m_height s2) with (m_height s) in *.
  change (m_cTiles s2) with (m_cTiles s) in *.
  change (m_cMines s2) with (m_cMines s) in *.
  rewrite Ew, Eh in Hok'.
  assert (forall i u', 0 <= i -> tile_at (m_aMineTiles s') i = Some u' ->
            GetTileContent u' = EMPTY /\ GetTileMark u' <> FLAG
            /\ exists u, tile_at (m_aMineTiles s2) i = Some u
                         /\ GetTileState u <> REVEALED) as Htiles'.
  { intros i u' Hi Hu'.
    destruct (Forall2_tile_at _ _ _ _ _ Hstep Hu') as (u & Hu & Hr).
    destruct (Htiles2 i u Hi Hu) as (He & Hs2 & Hm2).
    rewrite (reveal_step_content _ _ Hr), (reveal_step_mark _ _ Hr).
    split_and!; [done|done|by exists u]. }
  assert (forall j, revealed_at (m_aMineTiles s') j ->
            forall k, k ∈ GetTileGrid (m_width s) (m_height s)
                            (j mod m_width s) (j / m_width s) 1 ->
                      revealed_at (m_aMineTiles s') k) as Hspread.
  { intros j (Hj & u' & Hu' & Hrev) k Hk.
    destruct (Htiles' j u' Hj Hu') as (He & _ & u & Hu & Hs2).
    destruct (Hclosed j) with (j := k) as (v & Hv & Hsettled); [|done|].
    - split; [done|]. by exists u, u'.
    - pose proof (GetTileGrid_nonneg _ _ _ _ _ _ Hk) as Hk0.
      split; [done|]. exists v. split; [done|].
      destruct Hsettled as [?|Hflag]; [done|].
      by destruct (Htiles' k v Hk0 Hv) as (_ & ? & _). }
  assert (revealed_at (m_aMineTiles s') (x + y * m_width s)) as Horigin.
  { assert (0 <= x + y * m_width s) as Hi0' by lia.
    destruct Hor as (u' & Hu' & Hsettled). split; [lia|]. exists u'.
    split; [done|]. destruct Hsettled as [?|Hflag]; [done|].
    by destruct (Htiles' (x + y * m_width s) u' Hi0' Hu') as (_ & ? & _). }
  assert (forall (n : nat) x' y',
            0 <= x' < m_width s -> 0 <= y' < m_height s ->
            Z.abs (x' - x) <= Z.of_nat n -> Z.abs (y' - y) <= Z.of_nat n ->
            revealed_at (m_aMineTiles s') (x' + y' * m_width s)) as Hall.
  { induction n as [|n IH]; intros x' y' Hx' Hy' Hdx Hdy.
    - assert (x' = x) as -> by lia. assert (y' = y) as -> by lia. done.
    - set (x'' := if x' <? x then x' + 1 else if x <? x' then x' - 1 else x').
      set (y'' := if y' <? y then y' + 1 else if y <? y' then y' - 1 else y').
      assert (0 <= x'' < m_width s /\ Z.abs (x'' - x) <= Z.of_nat n
              /\ x'' - 1 <= x' <= x'' + 1) as (Hx'' & Hdx'' & Hnx).
      { subst x''. destruct (Z.ltb_spec x' x); [lia|].
        destruct (Z.ltb_spec x x'); lia. }
      assert (0 <= y'' < m_height s /\ Z.abs (y'' - y) <= Z.of_nat n
              /\ y'' - 1 <= y' <= y'' + 1) as (Hy'' & Hdy'' & Hny).
      { subst y''. destruct (Z.ltb_spec y' y); [lia|].
        destruct (Z.ltb_spec y y'); lia. }
      apply (Hspread (x'' + y'' * m_width s)); [by apply IH|].
      rewrite cell_index_mod, cell_index_div by done.
      apply elem_of_GetTileGrid_1; [done..|]. exists x', y'. lia. }
  assert (Forall (fun u => GetTileState u = REVEALED) (m_aMineTiles s')) as Hrevealed.
  { apply Forall_lookup. intros i u Hu.
    pose proof Hok' as [_ _ _ _ Hlen' _ _ _ _ _ _].
    assert (Z.of_nat i < m_width s * m_height s) as Hi.
    { apply lookup_lt_Some in Hu. lia. }
    destruct (index_cell (m_width s) (m_height s) (Z.of_nat i))
      as (Hcx & Hcy & Ei); [lia|done|].
    destruct (Hall (Z.to_nat (Z.abs (Z.of_nat i mod m_width s - x)
                              + Z.abs (Z.of_nat i / m_width s - y)))
                (Z.of_nat i mod m_width s) (Z.of_nat i / m_width s))
      as (_ & u' & Hu' & Hrev); [done|done|lia|lia|].
    rewrite <- Ei in Hu'. unfold tile_at in Hu'. rewrite Nat2Z.id in Hu'.
    congruence. }
  pose proof Hok' as [_ _ _ _ Hlen' _ Hc' _ _ Hlost' _].
  assert (m_cRevealedTiles s' = m_cTiles s) as Hcount'.
  { rewrite Hc', ok_cTiles, <- Hlen'. apply count_tiles_all.
    eapply Forall_impl; [done|]. intros u Hu. by apply is_revealed_true. }
  split; [done|]. split; [done|].
  unfold IsGameWon. rewrite Hcount', Em, En, Hm0.
  assert (m_bGameLost s' = false) as ->.
  { destruct (m_bGameLost s'); [|done]. exfalso.
    pose proof (proj1 Hlost' eq_refl) as Hex.
    apply Exists_exists in Hex as (u & (i & Hu)%list_elem_of_lookup_1 & _ & Hmine).
    destruct (Htiles' (Z.of_nat i) u) as (He & _); [lia| |congruence].
    unfold tile_at. by rewrite Nat2Z.id. }
  simpl. rewrite wrap_small by lia.
  apply andb_true_iff. split; [apply Z.leb_le|apply Z.ltb_lt]; lia.
Qed.

Lemma mineless_field_opens_entirely_witness :
  Forall (fun u => GetTileState u = REVEALED)
    (m_aMineTiles
       (OnLButtonUp first_k_sampler 0 (2, 1)
          (OnLButtonDown MK_LBUTTON (2, 1)
             (MinefieldWindow_new 3 3 0 false false (0, 0)))))
  /\ m_cRevealedTiles
       (OnLButtonUp first_k_sampler 0 (2, 1)
          (OnLButtonDown MK_LBUTTON (2, 1)
             (MinefieldWindow_new 3 3 0 false false (0, 0))))
     = m_cTiles (MinefieldWindow_new 3 3 0 false false (0, 0))
  /\ IsGameWon
       (OnLButtonUp first_k_sampler 0 (2, 1)
          (OnLButtonDown MK_LBUTTON (2, 1)
             (MinefieldWindow_new 3 3 0 false false (0, 0)))) = true.
Proof.
  apply (mineless_field_opens_entirely
           (MinefieldWindow_new 3 3 0 false false (0, 0)) first_k_sampler
           MK_LBUTTON 0 2 1 MineTile_default); try reflexivity.
  - apply Reachable_new. unfold valid_configuration, is_UINT.
    rewrite UINT_modulus_eq. lia.
  - apply first_k_sampler_contract.
  - vm_compute. intuition discriminate.
Defined.

(** ** Where the mines go *)

(** The merge loop of [GenerateMines]: the candidates handed to the sampler
    are exactly the tiles of the field outside the excluded block, each
    once; there are as many as tiles less the size of the block, and at
    least [m_cMines] of them whenever there are fewer mines than tiles. *)
Theorem mine_candidates (s : MinefieldWindow) (x y : Z) :
  Reachable s -> in_field (m_width s) (m_height s) (x, y) ->
  let excluded :=
    GetTileGrid (m_width s) (m_height s) x y
      (exclusion_radius (m_cTiles s) (m_cMines s)) in
  let candidates := tiles_to_toggle (length (m_aMineTiles s)) 0 excluded in
  (forall i, i ∈ candidates <-> 0 <= i < m_cTiles s /\ i ∉ excluded)
  /\ NoDup candidates
  /\ Z.of_nat (length candidates) = m_cTiles s - Z.of_nat (length excluded)
  /\ (m_cMines s < m_cTiles s -> m_cMines s <= Z.of_nat (length candidates)).
Proof.
  intros Hs [Hx Hy]. simpl in Hx, Hy.
  pose proof (Reachable_Inv s Hs) as (Hok & _).
  pose proof Hok as Hok'. field_ok_names Hok'.
  destruct (GenerateMines_candidates _ _ _ _ _ x y
              (field_ok_shape _ _ _ _ _ _ _ _ Hok) ok_cTiles ok_cMines Hx Hy)
    as (Hcand & Hnd & Hlen & Hmany).
  cbv zeta in *. split_and!; [|done|lia|done].
  intros i. rewrite (Hcand i). split; intros [? ?]; (split; [lia|done]).
Qed.

Lemma mine_candidates_witness :
  (forall i,
     i ∈ tiles_to_toggle (length (m_aMineTiles game_pressed)) 0
           (GetTileGrid (m_width game_pressed) (m_height game_pressed) 0 0
              (exclusion_radius (m_cTiles game_pressed) (m_cMines game_pressed)))
     <-> 0 <= i < m_cTiles game_pressed
         /\ i ∉ GetTileGrid (m_width game_pressed) (m_height game_pressed) 0 0
                 (exclusion_radius (m_cTiles game_pressed)
                    (m_cMines game_pressed)))
  /\ NoDup
       (tiles_to_toggle (length (m_aMineTiles game_pressed)) 0
          (GetTileGrid (m_width game_pressed) (m_height game_pressed) 0 0
             (exclusion_radius (m_cTiles game_pressed) (m_cMines game_pressed))))
  /\ Z.of_nat
       (length
          (tiles_to_toggle (length (m_aMineTiles game_pressed)) 0
             (GetTileGrid (m_width game_pressed) (m_height game_pressed) 0 0
                (exclusion_radius (m_cTiles game_pressed)
                   (m_cMines game_pressed)))))
     = m_cTiles game_pressed
       - Z.of_nat
           (length
              (GetTileGrid (m_width game_pressed) (m_height game_pressed) 0 0
                 (exclusion_radius (m_cTiles game_pressed)
                    (m_cMines game_pressed))))
  /\ (m_cMines game_pressed < m_cTiles game_pressed ->
      m_cMines game_pressed
      <= Z.of_nat
           (length
              (tiles_to_toggle (length (m_aMineTiles game_pressed)) 0
                 (GetTileGrid (m_width game_pressed) (m_height game_pressed) 0 0
                    (exclusion_radius (m_cTiles game_pressed)
                       (m_cMines game_pressed)))))).
Proof.
  apply (mine_candidates game_pressed 0 0 game_pressed_reachable).
  vm_compute. intuition discriminate.
Defined.

(** The mines are the sample: after [GenerateMines(x, y)], called when
    nothing is revealed, a tile holds a mine iff the sampler returned it;
    no state and no mark has changed. *)
Theorem mines_are_the_sample (s : MinefieldWindow) (rng : Sampler) (x y : Z) :
  Reachable s -> m_cRevealedTiles s = 0 ->
  in_field (m_width s) (m_height s) (x, y) ->
  SampleVector_contract rng ->
  let sample :=
    rng (tiles_to_toggle (length (m_aMineTiles s)) 0
           (GetTileGrid (m_width s) (m_height s) x y
              (exclusion_radius (m_cTiles s) (m_cMines s))))
      (m_cMines s) in
  (forall j, 0 <= j ->
     mine_at (m_aMineTiles (GenerateMines rng x y s)) j = true <-> j ∈ sample)
  /\ Forall2 content_step (m_aMineTiles s)
       (m_aMineTiles (GenerateMines rng x y s)).
Proof.
  intros Hs Hz Hin Hrng sample. split; [|apply GenerateMines_step].
  pose proof (Reachable_Inv s Hs) as HInv.
  destruct (GenerateMines_mines rng x y s HInv Hz Hin Hrng) as (Hmines & _).
  intros j Hj. split; [intros Hm; by apply Hmines|]. intros Hsample.
  pose proof HInv as (Hok & _). pose proof Hok as Hok'. field_ok_names Hok'.
  destruct Hin as [Hx Hy]. simpl in Hx, Hy.
  destruct (GenerateMines_candidates _ _ _ _ _ x y
              (field_ok_shape _ _ _ _ _ _ _ _ Hok) ok_cTiles ok_cMines Hx Hy)
    as (Hcand & _).
  destruct (Hrng (tiles_to_toggle (length (m_aMineTiles s)) 0
                    (GetTileGrid (m_width s) (m_height s) x y
                       (exclusion_radius (m_cTiles s) (m_cMines s))))
              (m_cMines s)) as (Hsub & _).
  fold sample in Hsub.
  assert (Forall (fun p => 0 <= p) sample) as Hpos.
  { apply Forall_forall. intros p Hp. apply Hsub, Hcand in Hp. lia. }
  assert (j < m_width s * m_height s) as Hj'.
  { apply Hsub, Hcand in Hsample. lia. }
  assert (m_aMineTiles (GenerateMines rng x y s)
          = GenerateNumbers (m_width s) (m_height s)
              (place_mines sample (m_aMineTiles s))) as -> by done.
  rewrite <- (mine_at_Forall2 _ _ j (GenerateNumbers_step _ _ _)).
  unfold mine_at. rewrite place_mines_tile_at by done.
  assert (is_Some (tile_at (m_aMineTiles s) j)) as [t ->].
  { unfold tile_at. apply lookup_lt_is_Some. lia. }
  simpl. by rewrite decide_True.
Qed.

Lemma mines_are_the_sample_witness :
  (forall j, 0 <= j ->
     mine_at (m_aMineTiles (GenerateMines first_k_sampler 0 0 game_pressed)) j
     = true
     <-> j ∈ first_k_sampler
               (tiles_to_toggle (length (m_aMineTiles game_pressed)) 0
                  (GetTileGrid (m_width game_pressed) (m_height game_pressed) 0 0
                     (exclusion_radius (m_cTiles game_pressed)
                        (m_cMines game_pressed))))
               (m_cMines game_pressed))
  /\ Forall2 content_step (m_aMineTiles game_pressed)
       (m_aMineTiles (GenerateMines first_k_sampler 0 0 game_pressed)).
Proof.
  apply (mines_are_the_sample game_pressed first_k_sampler 0 0
           game_pressed_reachable).
  - reflexivity.
  - vm_compute. intuition discriminate.
  - apply first_k_sampler_contract.
Defined.

(** ** Mines and the flood *)

(** The flood spares the mines: in a state of a run, a tile that a call of
    [SetTileRevealed(x, y)] reveals holds no mine, unless it is the tile
    [(x, y)] itself. *)
Theorem flood_spares_mines (s : MinefieldWindow) (x y : Z) :
  Reachable s -> in_field (m_width s) (m_height s) (x, y) ->
  forall (j : Z) (t0 t : MineTile),
    0 <= j ->
    tile_at (m_aMineTiles s) j = Some t0 ->
    tile_at (m_aMineTiles (SetTileRevealed x y s)) j = Some t ->
    GetTileState t0 <> REVEALED -> GetTileState t = REVEALED ->
    j <> x + y * m_width s ->
    GetTileContent t <> MINE.
Proof.
  intros Hs Hin j t0 t Hj Ht0 Ht Hs0 Hst Hne Hmine.
  pose proof (Reachable_Inv s Hs) as (Hok & _).
  pose proof Hok as Hok'. field_ok_names Hok'.
  destruct (SetTileRevealed_spec x y s (field_ok_shape _ _ _ _ _ _ _ _ Hok) Hin)
    as [_ Hstep Hnear _ _ _].
  destruct (Hnear j t0 t Hj Ht0 Ht Hs0 Hst) as [?|(q & (Hq & tq & Htq & Heq) & Hq')];
    [done|].
  apply (ok_numbers q tq Hq Htq Heq j t0 Hq' Ht0).
  destruct (Forall2_tile_at _ _ _ _ _ Hstep Ht) as (t0' & Ht0' & Hr).
  rewrite Ht0 in Ht0'. injection Ht0' as <-.
  by rewrite <- (reveal_step_content _ _ Hr).
Qed.

Lemma flood_spares_mines_witness :
  GetTileContent (mkMineTile EMPTY REVEALED NONE) <> MINE.
Proof.
  apply (flood_spares_mines game_mineless 0 0) with
    (j := 1) (t0 := mkMineTile EMPTY HIDDEN NONE); try reflexivity.
  - apply Reachable_handle.
    + apply Reachable_new. unfold valid_configuration, is_UINT.
      rewrite UINT_modulus_eq. lia.
    + vm_compute. intuition discriminate.
  - vm_compute. intuition discriminate.
  - lia.
  - discriminate.
  - vm_compute. discriminate.
Defined.

(** ** After a chord *)

(** While [m_bLRHeldAfterChord] is set, which it is from the end of a chord
    until the other button is up, the left and the right button do nothing
    to the game: a press changes nothing, and a release at most clears the
    member, which it does when the other button is no longer down. *)
Theorem chord_latch_blocks_buttons (s : MinefieldWindow) (rng : Sampler)
    (wParam : Z) (gridPos : Z * Z) :
  m_bLRHeldAfterChord s = true ->
  OnLButtonDown wParam gridPos s = s
  /\ OnRButtonDown wParam gridPos s = s
  /\ OnLButtonUp rng wParam gridPos s
     = (if held wParam MK_RBUTTON then s else set_bLRHeldAfterChord false s)
  /\ OnRButtonUp wParam gridPos s
     = (if held wParam MK_LBUTTON then s else set_bLRHeldAfterChord false s).
Proof.
  intros Hheld.
  unfold OnLButtonDown, OnRButtonDown, OnLButtonUp, OnRButtonUp.
  rewrite Hheld, !andb_false_r. simpl.
  split_and!; [done|done|by destruct (held wParam MK_RBUTTON)
              |by destruct (held wParam MK_LBUTTON)].
Qed.

Lemma chord_latch_blocks_buttons_witness :
  OnLButtonDown MK_LBUTTON (2, 0) (set_bLRHeldAfterChord true game_opened)
  = set_bLRHeldAfterChord true game_opened
  /\ OnRButtonDown MK_LBUTTON (2, 0) (set_bLRHeldAfterChord true game_opened)
     = set_bLRHeldAfterChord true game_opened
  /\ OnLButtonUp first_k_sampler MK_LBUTTON (2, 0)
       (set_bLRHeldAfterChord true game_opened)
     = (if held MK_LBUTTON MK_RBUTTON
        then set_bLRHeldAfterChord true game_opened
        else set_bLRHeldAfterChord false (set_bLRHeldAfterChord true game_opened))
  /\ OnRButtonUp MK_LBUTTON (2, 0) (set_bLRHeldAfterChord true game_opened)
     = (if held MK_LBUTTON MK_LBUTTON
        then set_bLRHeldAfterChord true game_opened
        else set_bLRHeldAfterChord false (set_bLRHeldAfterChord true game_opened)).
Proof.
  apply (chord_latch_blocks_buttons (set_bLRHeldAfterChord true game_opened)
           first_k_sampler MK_LBUTTON (2, 0)).
  reflexivity.
Defined.

(** ** Losing by a chord *)

(** A tile revealed by the loop of [EndChord] is one of the tiles the loop
    runs over, or lies in the block of an [EMPTY] tile. *)
Lemma reveal_tiles_near grid s :
  field_shape (m_width s) (m_height s) (m_aMineTiles s) ->
  (forall j, j ∈ grid -> 0 <= j < m_width s * m_height s) ->
  forall j t0 t,
    0 <= j -> tile_at (m_aMineTiles s) j = Some t0 ->
    tile_at (m_aMineTiles (reveal_tiles grid s)) j = Some t ->
    GetTileState t0 <> REVEALED -> GetTileState t = REVEALED ->
    j ∈ grid
    \/ exists q, empty_at (m_aMineTiles s) q
                 /\ j ∈ GetTileGrid (m_width s) (m_height s)
                         (q mod m_width s) (q / m_width s) 1.
Proof.
  unfold reveal_tiles. revert s.
  induction grid as [|p grid IH]; intros s Hshape Hgrid j t0 t Hj Ht0 Ht Hs0 Hs;
    simpl in Ht.
  - congruence.
  - pose proof Hshape as (Hw & Hh & Ha & Hlen).
    destruct (index_cell (m_width s) (m_height s) p) as (Hx & Hy & Hp);
      [apply Hgrid; by left|done|].
    destruct (SetTileRevealed_spec (p mod m_width s) (p / m_width s) s Hshape)
      as [(Ew & Eh & _) Hstep Hnear _ _ _]; [done|].
    rewrite <- Hp in Hnear.
    set (s1 := SetTileRevealed (p mod m_width s) (p / m_width s) s) in *.
    destruct (Forall2_tile_at_l _ _ _ _ _ Hstep Ht0) as (t1 & Ht1 & Hr1).
    destruct (decide (GetTileState t1 = REVEALED)) as [Hs1|Hs1].
    + destruct (Hnear j t0 t1 Hj Ht0 Ht1 Hs0 Hs1) as [->|Hq];
        [left; by left|by right].
    + destruct (IH s1) with (j := j) (t0 := t1) (t := t) as [Hin|(q & Hq & Hin)];
        try done.
      * unfold field_shape. rewrite Ew, Eh.
        by rewrite <- (Forall2_length _ _ _ Hstep).
      * rewrite Ew, Eh. intros k Hk. apply Hgrid. by right.
      * left. by right.
      * right. exists q. rewrite Ew, Eh in Hin. split; [|done].
        eapply empty_at_Forall2; [apply reveal_step_content|done..].
Qed.

(** A chord that goes through loses the game exactly when its block holds
    a mine without a flag: in a state of a run that is not lost, when the
    test of [EndChord(x, y)] passes, the game is lost after the call iff
    some tile of the block around [(x, y)] holds a mine and carries no
    flag. *)
Theorem chord_loses_on_unflagged_mine (s : MinefieldWindow) (x y : Z) :
  Reachable s -> in_field (m_width s) (m_height s) (x, y) ->
  chord_matches x y s -> m_bGameLost s = false ->
  m_bGameLost (EndChord x y s) = true
  <-> exists (k : Z) (t : MineTile),
        k ∈ GetTileGrid (m_width s) (m_height s) x y 1
        /\ tile_at (m_aMineTiles s) k = Some t
        /\ GetTileContent t = MINE /\ GetTileMark t <> FLAG.
Proof.
  intros Hs Hin (c & Hc & Hsc & Hflags) Hlost.
  pose proof (Reachable_Inv s Hs) as HInv. pose proof HInv as (Hok & _).
  pose proof Hok as Hok'. field_ok_names Hok'.
  pose proof (field_ok_shape _ _ _ _ _ _ _ _ Hok) as Hshape.
  set (grid := GetTileGrid (m_width s) (m_height s) x y 1).
  assert (forall j, j ∈ grid -> 0 <= j < m_width s * m_height s) as Hgrid
    by (intros j Hj; by eapply GetTileGrid_range).
  assert (EndChord x y s = set_bChording false (reveal_tiles grid s)) as ->.
  { unfold EndChord. rewrite Hc. rewrite decide_True by done.
    by rewrite decide_True by done. }
  simpl.
  assert (0 < m_cRevealedTiles s) as Hpos
    by (rewrite ok_revealed; by eapply revealed_count_pos).
  destruct (Inv_reveal_tiles grid s HInv Hpos Hgrid) as [(Hok2 & _) _].
  destruct (reveal_tiles_spec grid s Hshape Hgrid) as (_ & Hstep & Hdone).
  pose proof (reveal_tiles_near grid s Hshape Hgrid) as Hnear.
  pose proof Hok2 as [_ _ _ _ _ _ _ _ _ Hlost' _]. rewrite Hlost'. split.
  - intros (u' & (i & Hu')%list_elem_of_lookup_1 & Hrev & Hmine)%Exists_exists.
    assert (tile_at (m_aMineTiles (reveal_tiles grid s)) (Z.of_nat i) = Some u')
      as Hat' by (unfold tile_at; by rewrite Nat2Z.id).
    destruct (Forall2_tile_at _ _ _ _ _ Hstep Hat') as (u & Hu & Hr).
    assert (GetTileState u <> REVEALED) as Hsu.
    { intros Hsu. assert (m_bGameLost s = true) as Hl; [|congruence].
      apply ok_lost, Exists_exists. exists u. split.
      - unfold tile_at in Hu. by eapply list_elem_of_lookup_2.
      - split; [done|]. by rewrite <- (reveal_step_content _ _ Hr). }
    destruct (Hnear (Z.of_nat i) u u' ltac:(lia) Hu Hat' Hsu Hrev)
      as [Hin'|(q & (Hq & tq & Htq & Heq) & Hq')].
    + exists (Z.of_nat i), u. split_and!; [done|done| |].
      * by rewrite <- (reveal_step_content _ _ Hr).
      * destruct Hr as (_ & _ & [Hsame|(_ & ? & _)]); [congruence|done].
    + exfalso. apply (ok_numbers q tq Hq Htq Heq (Z.of_nat i) u Hq' Hu).
      by rewrite <- (reveal_step_content _ _ Hr).
  - intros (k & t & Hk & Ht & Hmine & Hm).
    destruct (Hdone k Hk) as (t' & Ht' & Hor).
    destruct (Forall2_tile_at _ _ _ _ _ Hstep Ht') as (t0 & Ht0 & Hr).
    rewrite Ht in Ht0. injection Ht0 as <-.
    apply Exists_exists. exists t'. split.
    + unfold tile_at in Ht'. by eapply list_elem_of_lookup_2.
    + split; [|by rewrite (reveal_step_content _ _ Hr)].
      destruct Hor as [?|Hf]; [done|]. by rewrite (reveal_step_mark _ _ Hr) in Hf.
Qed.

Lemma chord_loses_on_unflagged_mine_witness :
  m_bGameLost (EndChord 0 0 game_chording) = true
  <-> exists (k : Z) (t : MineTile),
        k ∈ GetTileGrid (m_width game_chording) (m_height game_chording) 0 0 1
        /\ tile_at (m_aMineTiles game_chording) k = Some t
        /\ GetTileContent t = MINE /\ GetTileMark t <> FLAG.
Proof.
  apply (chord_loses_on_unflagged_mine game_chording 0 0
           game_chording_reachable).
  - vm_compute. intuition discriminate.
  - exists (mkMineTile ONE REVEALED NONE). split_and!; reflexivity.
  - reflexivity.
Defined.

(** ** The five effects *)

(** Whatever mouse message the minefield handles, and in whatever state, it
    does one of five things to the game, the members that follow the mouse
    aside: it changes which tiles show as pressed, it steps the mark of a
    hidden tile, it reveals the block around a revealed tile, it reveals a
    pressed tile, or, while nothing is revealed, it places the mines around
    a pressed tile and reveals it. *)
Theorem message_does_one_of_five (s : MinefieldWindow) (e : Event) :
  input_message e = true -> event_ok s e -> message_effect s (handle e s).
Proof. apply handle_effect. Qed.

Lemma message_does_one_of_five_witness :
  message_effect game_pressed
    (handle (WM_LBUTTONUP first_k_sampler 0 (0, 0)) game_pressed).
Proof.
  apply (message_does_one_of_five game_pressed
           (WM_LBUTTONUP first_k_sampler 0 (0, 0))).
  - reflexivity.
  - split; [apply first_k_sampler_contract|]. vm_compute. intuition discriminate.
Defined.

(** ** A chord that does not go through *)

Lemma press_tiles_at grid tiles j :
  0 <= j -> Forall (fun p => 0 <= p) grid ->
  tile_at (press_tiles grid tiles) j
  = (fun t => if decide (j ∈ grid /\ GetTileState t = HIDDEN
                         /\ GetTileMark t <> FLAG)
              then SetTileState CLICKED t else t)
      <$> tile_at tiles j.
Proof.
  intros Hj. unfold press_tiles. revert tiles.
  induction grid as [|p grid IH]; intros tiles Hpos; cbn [foldl].
  - destruct (tile_at tiles j); [|done]. cbn [fmap option_fmap option_map].
    case_decide as H; [|done]. destruct H as [H _]. by apply elem_of_nil in H.
  - apply Forall_cons in Hpos as [Hp Hpos]. rewrite IH by done. clear IH.
    destruct (decide (p = j)) as [->|Hne].
    + destruct (tile_at tiles j) as [t|] eqn:E; [|by rewrite E].
      destruct (decide (GetTileState t = HIDDEN /\ GetTileMark t <> FLAG))
        as [[Hs Hm]|Hno].
      * unfold tile_at, tile_update in *. rewrite list_lookup_alter_eq, E. simpl.
        f_equal. rewrite decide_False by (by intros (_ & ? & _)).
        rewrite decide_True; [done|]. split_and!; [by left|done|done].
      * rewrite E. simpl. f_equal.
        rewrite !decide_False; [done|intros (_ & ? & ?); by apply Hno..].
    + assert (tile_at
                match tile_at tiles p with
                | Some t => if decide (GetTileState t = HIDDEN
                                       /\ GetTileMark t <> FLAG)
                            then tile_update (SetTileState CLICKED) p tiles
                            else tiles
                | None => tiles
                end j = tile_at tiles j) as ->.
      { destruct (tile_at tiles p) as [t|]; [|done].
        destruct (decide _); [|done]. unfold tile_at, tile_update.
        by rewrite list_lookup_alter_ne by lia. }
      destruct (tile_at tiles j) as [t|]; [|done]. simpl. f_equal.
      destruct (decide (j ∈ grid /\ GetTileState t = HIDDEN
                        /\ GetTileMark t <> FLAG)) as [(H1 & H2 & H3)|Hno].
      * rewrite decide_True; [done|]. split_and!; [by right|done|done].
      * rewrite decide_False; [done|].
        intros ([?|?]%elem_of_cons & ? & ?); [done|]. by apply Hno.
Qed.

Lemma count_flags_marks (R : relation MineTile) tiles tiles' grid :
  (forall t t', R t t' -> GetTileMark t' = GetTileMark t) ->
  Forall2 R tiles tiles' ->
  count_flags tiles' grid = count_flags tiles grid.
Proof.
  intros HR H. unfold count_flags. generalize 0.
  induction grid as [|p grid IH]; intros acc; simpl; [done|].
  rewrite IH. f_equal.
  destruct (tile_at tiles' p) as [t'|] eqn:E'.
  - destruct (Forall2_tile_at _ _ _ _ _ H E') as (t & -> & Hr).
    by rewrite (HR _ _ Hr).
  - unfold tile_at in *. apply lookup_ge_None in E'.
    rewrite <- (Forall2_length _ _ _ H) in E'.
    by rewrite (proj2 (lookup_ge_None _ _) E').
Qed.

(** A chord that does not go through leaves no trace: when the test of
    [EndChord(x, y)] fails and no tile of the block shows as pressed,
    [BeginChord(x, y)] followed by [EndChord(x, y)] gives the state back,
    with [m_bChording] cleared. *)
Theorem chord_preview_round_trip (s : MinefieldWindow) (x y : Z) :
  field_shape (m_width s) (m_height s) (m_aMineTiles s) ->
  in_field (m_width s) (m_height s) (x, y) ->
  ~ chord_matches x y s ->
  (forall k t,
     k ∈ GetTileGrid (m_width s) (m_height s) x y 1 ->
     tile_at (m_aMineTiles s) k = Some t -> GetTileState t <> CLICKED) ->
  EndChord x y (BeginChord x y s) = set_bChording false s.
Proof.
  intros Hshape [Hx Hy] Hno Hfree. simpl in Hx, Hy.
  pose proof Hshape as (Hw & Hh & Ha & Hlen).
  destruct (cell_index_bounds _ _ x y Hx Hy) as [Hi0 Hi1].
  set (grid := GetTileGrid (m_width s) (m_height s) x y 1) in *.
  assert (Forall (fun p => 0 <= p) grid) as Hpos.
  { apply Forall_forall. intros p Hp. by eapply GetTileGrid_nonneg. }
  pose proof (press_tiles_step grid (m_aMineTiles s)) as Hpress.
  assert (release_tiles grid (press_tiles grid (m_aMineTiles s)) = m_aMineTiles s)
    as Hback.
  { apply list_eq. intros i.
    pose proof (release_tiles_at grid (press_tiles grid (m_aMineTiles s))
                  (Z.of_nat i) ltac:(lia) Hpos) as Hr.
    rewrite press_tiles_at in Hr by (done || lia).
    unfold tile_at in Hr. rewrite Nat2Z.id in Hr. rewrite Hr.
    destruct (m_aMineTiles s !! i) as [t|] eqn:Et; [|done]. simpl. f_equal.
    destruct (decide (Z.of_nat i ∈ grid /\ GetTileState t = HIDDEN
                      /\ GetTileMark t <> FLAG)) as [(H1 & H2 & H3)|Hnot].
    - rewrite decide_True by done. apply tile_eq; simpl; done.
    - destruct (decide _) as [[H1 H2]|_]; [|done]. exfalso.
      apply (Hfree (Z.of_nat i) t H1); [|done].
      unfold tile_at. by rewrite Nat2Z.id. }
  unfold EndChord, BeginChord. simpl. fold grid. rewrite Hback.
  assert (set_bChording false
            (set_aMineTiles (m_aMineTiles s)
               (set_bChording true
                  (set_aMineTiles (press_tiles grid (m_aMineTiles s)) s)))
          = set_bChording false s) as Hstate by (by destruct s).
  destruct (tile_at (press_tiles grid (m_aMineTiles s))
              (tile_index (m_width s) x y)) as [c'|] eqn:Hc'.
  2:{ exfalso. unfold tile_at in Hc'. apply lookup_ge_None in Hc'.
      rewrite <- (Forall2_length _ _ _ Hpress) in Hc'.
      rewrite (tile_index_small _ _ x y Ha Hx Hy) in Hc'. lia. }
  destruct (decide (GetTileState c' = REVEALED)) as [Hs'|]; [|done].
  destruct (decide _) as [Hflags|]; [|done].
  exfalso. apply Hno.
  destruct (Forall2_tile_at _ _ _ _ _ Hpress Hc') as (c & Hc & _ & _ & Hiff & _).
  exists c. split_and!; [done|by apply Hiff|].
  rewrite (count_flags_marks preview_step (m_aMineTiles s)
             (press_tiles grid (m_aMineTiles s)) grid) in Hflags;
    [|by intros t t' (_ & ? & _)|done].
  rewrite (GetNumberAdjacentMines_content preview_step _ _ (m_aMineTiles s)
             (press_tiles grid (m_aMineTiles s))) in Hflags;
    [done|by intros t t' (? & _)|done].
Qed.

Lemma chord_preview_round_trip_witness :
  EndChord 2 0 (BeginChord 2 0 game_flagged) = set_bChording false game_flagged.
Proof.
  apply (chord_preview_round_trip game_flagged 2 0).
  - unfold field_shape. rewrite UINT_modulus_eq. simpl. lia.
  - vm_compute. intuition discriminate.
  - intros (c & Hc & Hs & _). vm_compute in Hc. injection Hc as <-. discriminate.
  - intros k t Hk Ht. assert (k = 1 \/ k = 2) as [-> | ->].
    { vm_compute in Hk. apply elem_of_cons in Hk as [->|Hk]; [by left|].
      apply list_elem_of_singleton in Hk. by right. }
    + vm_compute in Ht. injection Ht as <-. discriminate.
    + vm_compute in Ht. injection Ht as <-. discriminate.
Defined.

(** ** The mouse leaves *)

(** [OnMouseLeave]: the members [m_bMouseTracking] and
    [m_bLRHeldAfterChord] are cleared, [m_bChording], [m_lastGridPos] and
    the counters stay; while the game is on, the tiles of the block around
    the last position (of radius 1 during a chord, else the one tile) that
    show as pressed go back to hidden and every other tile stays; once the
    game is over no tile changes. *)
Theorem mouse_leave_releases (s : MinefieldWindow) :
  let grid :=
    GetTileGrid (m_width s) (m_height s) (wrap (m_lastGridPos s).1)
      (wrap (m_lastGridPos s).2) (if m_bChording s then 1 else 0) in
  m_bMouseTracking (OnMouseLeave s) = false
  /\ m_bLRHeldAfterChord (OnMouseLeave s) = false
  /\ m_bChording (OnMouseLeave s) = m_bChording s
  /\ m_lastGridPos (OnMouseLeave s) = m_lastGridPos s
  /\ m_cRevealedTiles (OnMouseLeave s) = m_cRevealedTiles s
  /\ m_cFlaggedTiles (OnMouseLeave s) = m_cFlaggedTiles s
  /\ m_bGameLost (OnMouseLeave s) = m_bGameLost s
  /\ (IsGameActive s = false -> m_aMineTiles (OnMouseLeave s) = m_aMineTiles s)
  /\ (IsGameActive s = true ->
      forall j : Z,
        0 <= j ->
        tile_at (m_aMineTiles (OnMouseLeave s)) j
        = (fun t => if decide (j ∈ grid /\ GetTileState t = CLICKED)
                    then SetTileState HIDDEN t else t)
            <$> tile_at (m_aMineTiles s) j).
Proof.
  intros grid. unfold OnMouseLeave. cbv zeta. fold grid.
  destruct (IsGameActive s); simpl; split_and!; try done.
  intros _ j Hj. apply release_tiles_at; [done|].
  apply Forall_forall. intros p Hp. by eapply GetTileGrid_nonneg.
Qed.

Lemma mouse_leave_releases_witness :
  m_bMouseTracking (OnMouseLeave game_pressed) = false
  /\ m_bLRHeldAfterChord (OnMouseLeave game_pressed) = false
  /\ m_bChording (OnMouseLeave game_pressed) = m_bChording game_pressed
  /\ m_lastGridPos (OnMouseLeave game_pressed) = m_lastGridPos game_pressed
  /\ m_cRevealedTiles (OnMouseLeave game_pressed) = m_cRevealedTiles game_pressed
  /\ m_cFlaggedTiles (OnMouseLeave game_pressed) = m_cFlaggedTiles game_pressed
  /\ m_bGameLost (OnMouseLeave game_pressed) = m_bGameLost game_pressed
  /\ tile_at (m_aMineTiles (OnMouseLeave game_pressed)) 0
     = (fun t =>
          if decide
               (0 ∈ GetTileGrid (m_width game_pressed) (m_height game_pressed)
                      (wrap (m_lastGridPos game_pressed).1)
                      (wrap (m_lastGridPos game_pressed).2)
                      (if m_bChording game_pressed then 1 else 0)
                /\ GetTileState t = CLICKED)
          then SetTileState HIDDEN t else t)
         <$> tile_at (m_aMineTiles game_pressed) 0.
Proof.
  destruct (mouse_leave_releases game_pressed)
    as (H1 & H2 & H3 & H4 & H5 & H6 & H7 & _ & H9).
  split_and!; [exact H1|exact H2|exact H3|exact H4|exact H5|exact H6|exact H7|].
  apply H9; [reflexivity|lia].
Defined.
